(** * workflows-mcp: parameter schema compiler, configuration merge and
    prompt templating.

    Shallow embedding of [packages/mcp-server/src/config.ts]
    (mergeConfigs, mergeTools, validateToolConfig,
    convertParameter(s)ToJsonSchema, convertParameter(s)ToZodSchema,
    loadConfig, loadConfigSync, loadPresetConfig, listAvailablePresets,
    loadPresetConfigs; the last three are repeated in
    [packages/mcpn/src/preset.ts]) and [packages/mcpn/src/utils.ts]
    (formatToolsList, appendFormattedTools, processTemplate).  The file
    system is a directory listing whose files carry the document
    [yaml.load] gives for them; Node's [path.extname] and [path.basename]
    are transcribed (POSIX).

    JavaScript values are modelled by [jv]; a plain object is the list of its
    own properties in the order [Object.entries] gives them (array-index
    keys first, ascending, then the other keys in creation order).  A
    property read on a plain object falls back to the members inherited
    from [Object.prototype]: its native functions and the [__proto__]
    accessor, whose getter returns the prototype and whose setter replaces
    it without adding an own property.  A number is an integer value.
    Strings are byte strings: every literal of the source is ASCII and
    white space is ASCII white space. *)

From Stdlib Require Import ZArith List String Ascii Bool Lia Permutation.
From Stdlib Require Import Numbers.DecimalString.
Import ListNotations.
Open Scope string_scope.
Open Scope list_scope.
Set Warnings "-register-all".

(** ** JavaScript values *)

Inductive jv : Type :=
| JUndef
| JNull
| JBool (b : bool)
| JNum (z : Z)
| JStr (s : string)
| JArr (xs : list jv)
| JObj (fs : list (string * jv))
| JFun (name : string).  (** a native function, e.g. [Object.prototype.toString] *)

(** [!!v] *)
Definition truthy (v : jv) : bool :=
  match v with
  | JUndef | JNull => false
  | JBool b => b
  | JNum z => negb (Z.eqb z 0)
  | JStr s => negb (String.eqb s "")
  | JArr _ | JObj _ | JFun _ => true
  end.

(** [typeof v] *)
Definition typeof (v : jv) : string :=
  match v with
  | JUndef => "undefined"
  | JNull => "object"
  | JBool _ => "boolean"
  | JNum _ => "number"
  | JStr _ => "string"
  | JArr _ | JObj _ => "object"
  | JFun _ => "function"
  end.

Definition is_object_type (v : jv) : bool := String.eqb (typeof v) "object".

(** Members every plain object inherits from [Object.prototype]: its
    native methods and the [__proto__] accessor. *)
Definition proto_members : list string :=
  ["constructor"; "hasOwnProperty"; "isPrototypeOf"; "propertyIsEnumerable";
   "toLocaleString"; "toString"; "valueOf"; "__defineGetter__";
   "__defineSetter__"; "__lookupGetter__"; "__lookupSetter__"; "__proto__"].

Definition is_proto_member (k : string) : bool :=
  existsb (String.eqb k) proto_members.

(** The value of an inherited member: the native function (the
    [constructor] member is the function [Object]); the [__proto__] getter
    returns the prototype, [Object.prototype], whose own properties are
    all non-enumerable, so that as a value it is the empty object. *)
Definition proto_get (k : string) : jv :=
  if String.eqb k "__proto__" then JObj []
  else if is_proto_member k
  then JFun (if String.eqb k "constructor" then "Object" else k)
  else JUndef.

(** Own-property lookup (first occurrence). *)
Fixpoint lookup {A} (k : string) (fs : list (string * A)) : option A :=
  match fs with
  | [] => None
  | (k', v) :: r => if String.eqb k k' then Some v else lookup k r
  end.

(** [o[k]] on a plain object with own properties [fs] and prototype
    [Object.prototype]. *)
Definition get (fs : list (string * jv)) (k : string) : jv :=
  match lookup k fs with
  | Some v => v
  | None => proto_get k
  end.

(** [k in o] on a plain object with prototype [Object.prototype]. *)
Definition key_in (fs : list (string * jv)) (k : string) : bool :=
  match lookup k fs with
  | Some _ => true
  | None => is_proto_member k
  end.

(** Own properties are listed in the order [Object.entries] gives them:
    the array-index keys first, in ascending order, then the other keys in
    creation order. *)
Definition digit_value (c : ascii) : option N :=
  let n := nat_of_ascii c in
  if (48 <=? n)%nat && (n <=? 57)%nat then Some (N.of_nat (n - 48)) else None.

Fixpoint digits_value (l : list ascii) (acc : N) : option N :=
  match l with
  | [] => Some acc
  | c :: r => match digit_value c with
              | Some d => digits_value r (10 * acc + d)%N
              | None => None
              end
  end.

(** A canonical array index: ["0"], or digits without a leading zero,
    with a value below [2^32 - 1]. *)
Definition array_index (k : string) : option N :=
  match list_ascii_of_string k with
  | [] => None
  | c :: r =>
      if Ascii.eqb c "0" && negb (match r with [] => true | _ => false end) then None
      else match digits_value (c :: r) 0%N with
           | Some n => if (n <? 4294967295)%N then Some n else None
           | None => None
           end
  end.

(** A new key [k] is enumerated before the existing key [k']. *)
Definition key_before (k k' : string) : bool :=
  match array_index k, array_index k' with
  | Some i, Some j => (i <? j)%N
  | Some _, None => true
  | None, _ => false
  end.

Fixpoint insert_key {A} (k : string) (v : A) (fs : list (string * A)) : list (string * A) :=
  match fs with
  | [] => [(k, v)]
  | (k', w) :: r => if key_before k k' then (k, v) :: fs else (k', w) :: insert_key k v r
  end.

Fixpoint update_key {A} (k : string) (v : A) (fs : list (string * A)) : list (string * A) :=
  match fs with
  | [] => []
  | (k', w) :: r => if String.eqb k k' then (k', v) :: r else (k', w) :: update_key k v r
  end.

(** [CreateDataProperty(o, k, v)], as a spread, an object literal or
    [Object.fromEntries] define a property: an existing own property keeps
    its position, a new one takes its place in the enumeration order. *)
Definition adef {A} (k : string) (v : A) (fs : list (string * A)) : list (string * A) :=
  match lookup k fs with
  | Some _ => update_key k v fs
  | None => insert_key k v fs
  end.

(** [o[k] = v] on a plain object with prototype [Object.prototype]: as
    [adef], except that a key [__proto__] that is not an own property
    reaches the inherited accessor, whose setter adds no own property (it
    replaces the prototype of [o] when [v] is an object or [null], and
    does nothing otherwise).  Only the own properties are modelled: a
    replaced prototype is not followed by later reads, and the statements
    below exclude the inputs where such a replacement happens. *)
Definition aset {A} (k : string) (v : A) (fs : list (string * A)) : list (string * A) :=
  match lookup k fs with
  | Some _ => update_key k v fs
  | None => if String.eqb k "__proto__" then fs else insert_key k v fs
  end.

(** The keys [ks] are listed in their enumeration order: no key is
    enumerated before a key that precedes it. *)
Fixpoint enum_ordered (ks : list string) : bool :=
  match ks with
  | [] => true
  | k :: r => forallb (fun k' => negb (key_before k' k)) r && enum_ordered r
  end.

Definition index_key (n : nat) : string := NilEmpty.string_of_uint (Nat.to_uint n).

Fixpoint indexed {A} (n : nat) (xs : list A) : list (string * A) :=
  match xs with
  | [] => []
  | x :: r => (index_key n, x) :: indexed (S n) r
  end.

Fixpoint chars (s : string) : list jv :=
  match s with
  | EmptyString => []
  | String c r => JStr (String c EmptyString) :: chars r
  end.

(** [Object.entries(v)], also the own enumerable properties copied by a
    spread [{...v}]. *)
Definition own_entries (v : jv) : list (string * jv) :=
  match v with
  | JObj fs => fs
  | JArr xs => indexed 0 xs
  | JStr s => indexed 0 (chars s)
  | _ => []
  end.

(** [{...acc, ...v}] *)
Definition spread (acc : list (string * jv)) (v : jv) : list (string * jv) :=
  fold_left (fun a '(k, x) => adef k x a) (own_entries v) acc.

Definition Z_to_string (z : Z) : string := NilEmpty.string_of_int (Z.to_int z).

Fixpoint sjoin (sep : string) (l : list string) : string :=
  match l with
  | [] => ""
  | x :: r => match r with
              | [] => x
              | _ => (x ++ sep ++ sjoin sep r)%string
              end
  end.

(** *** [Number::toString] on the integer values

    [JNum z] is a number whose value is the integer [z].  [round_double x]
    is the double nearest to the integer [x >= 0] (ties to even). *)
Definition round_double (x : Z) : Z :=
  let sh := (Z.log2 x + 1 - 53)%Z in
  if (sh <=? 0)%Z then x
  else let m := Z.shiftr x sh in
       let r := (x - Z.shiftl m sh)%Z in
       let half := Z.shiftl 1 (sh - 1) in
       let m' := if (half <? r)%Z then (m + 1)%Z
                 else if Z.eqb r half then (if Z.odd m then (m + 1)%Z else m) else m in
       Z.shiftl m' sh.

Definition dec_digits (x : Z) : nat := String.length (Z_to_string x).

(** The digits [s] (with [k] digits) and the exponent [n] of the
    shortest decimal [s * 10^(n-k)] that rounds to the double [x > 0]
    ([x] has [d] digits), the one closest to [x] (the even [s] on a tie). *)
Fixpoint shortest_loop (x : Z) (d : nat) (k : nat) (fuel : nat) : Z * nat * nat :=
  match fuel with
  | O => (x, d, d)
  | S f =>
      let q := (10 ^ Z.of_nat (d - k))%Z in
      let lo := (x / q)%Z in
      let hi := (lo + 1)%Z in
      let lo_ok := Z.eqb (round_double (lo * q)) x in
      let hi_ok := Z.eqb (round_double (hi * q)) x in
      let pick_hi := if Z.eqb hi (10 ^ Z.of_nat k) then (1%Z, 1%nat, S d) else (hi, k, d) in
      if lo_ok && hi_ok then
        let dl := (x - lo * q)%Z in
        let dh := (hi * q - x)%Z in
        if (dl <? dh)%Z then (lo, k, d)
        else if (dh <? dl)%Z then pick_hi
        else if Z.even lo then (lo, k, d) else pick_hi
      else if lo_ok then (lo, k, d)
      else if hi_ok then pick_hi
      else shortest_loop x d (S k) f
  end.

Fixpoint zeros (n : nat) : string :=
  match n with O => "" | S m => String "0" (zeros m) end.

(** [Number::toString(x)] for a double [x > 0] that is an integer: the
    digits followed by zeros up to 21 digits, the exponent form above. *)
Definition pos_number_string (x : Z) : string :=
  let d := dec_digits x in
  let '(s, k, n) := shortest_loop x d 1 d in
  let ds := Z_to_string s in
  if (n <=? 21)%nat then (ds ++ zeros (n - k))%string
  else match ds with
       | String c rest =>
           (String c EmptyString ++
              match rest with EmptyString => "" | _ => "." ++ rest end
              ++ "e+" ++ Z_to_string (Z.of_nat n - 1))%string
       | EmptyString => ""
       end.

Definition number_String (z : Z) : string :=
  let x := round_double (Z.abs z) in
  let body := if (2 ^ 1024 <=? x)%Z then "Infinity"
              else if Z.eqb x 0 then "0" else pos_number_string x in
  if (z <? 0)%Z && negb (Z.eqb x 0) then ("-" ++ body)%string else body.

(** [String(v)] of a primitive. *)
Definition prim_String (v : jv) : string :=
  match v with
  | JUndef => "undefined"
  | JNull => "null"
  | JBool true => "true"
  | JBool false => "false"
  | JNum z => number_String z
  | JStr s => s
  | _ => ""
  end.

(** The outcome of a call, with a plain object as [this] and no
    argument, of one of the native functions a [JFun] names (the methods
    of [Object.prototype], and [Object]): a primitive, an object, or a
    thrown error. *)
Inductive call_outcome : Type :=
| CPrim (v : jv)
| CObj
| CThrow.

Definition call_native_base (n : string) (fs : list (string * jv)) : call_outcome :=
  if String.eqb n "toString" then CPrim (JStr "[object Object]")
  else if String.eqb n "valueOf" || String.eqb n "Object" then CObj
  else if String.eqb n "hasOwnProperty" || String.eqb n "propertyIsEnumerable"
  then CPrim (JBool (match lookup "undefined" fs with Some _ => true | None => false end))
  else if String.eqb n "isPrototypeOf" then CPrim (JBool false)
  else if String.eqb n "__lookupGetter__" || String.eqb n "__lookupSetter__" then CPrim JUndef
  else CThrow.

(** [toLocaleString] calls [this.toString()]; if that is
    [toLocaleString] itself, the recursion exhausts the stack. *)
Definition call_native (n : string) (fs : list (string * jv)) : call_outcome :=
  if String.eqb n "toLocaleString" then
    match get fs "toString" with
    | JFun m => if String.eqb m "toLocaleString" then CThrow else call_native_base m fs
    | _ => CThrow
    end
  else call_native_base n fs.

(** [OrdinaryToPrimitive(o, string)]: try [o.toString()], then
    [o.valueOf()]; [None] is a thrown [TypeError] (or the error of the
    call). *)
Definition object_String (fs : list (string * jv)) : option string :=
  let attempt (name : string) (next : option string) : option string :=
    match get fs name with
    | JFun n =>
        match call_native n fs with
        | CPrim p => Some (prim_String p)
        | CObj => next
        | CThrow => None
        end
    | _ => next
    end in
  attempt "toString" (attempt "valueOf" None).

(** [String(v)]; [None] when it throws. *)
Fixpoint js_String (v : jv) : option string :=
  match v with
  | JArr xs =>
      option_map (sjoin ",")
        ((fix go (xs : list jv) : option (list string) :=
            match xs with
            | [] => Some []
            | x :: r =>
                match match x with JUndef | JNull => Some "" | _ => js_String x end, go r with
                | Some s, Some ss => Some (s :: ss)
                | _, _ => None
                end
            end) xs)
  | JObj fs => object_String fs
  | JFun n => Some ("function " ++ n ++ "() { [native code] }")%string
  | _ => Some (prim_String v)
  end.

(** ** Character-level helpers ([trim], [split(",")], [join]) *)

Definition is_ws (c : ascii) : bool :=
  let n := nat_of_ascii c in
  orb (Nat.eqb n 32) (andb (Nat.leb 9 n) (Nat.leb n 13)).

Fixpoint dropws (l : list ascii) : list ascii :=
  match l with
  | [] => []
  | c :: r => if is_ws c then dropws r else l
  end.

Definition trim_l (l : list ascii) : list ascii := rev (dropws (rev (dropws l))).

Definition trim (s : string) : string :=
  string_of_list_ascii (trim_l (list_ascii_of_string s)).

Definition comma : ascii := ",".

(** [s.split(",")] *)
Fixpoint split_comma (l : list ascii) : list (list ascii) :=
  match l with
  | [] => [[]]
  | c :: r =>
      if Ascii.eqb c comma then [] :: split_comma r
      else match split_comma r with
           | h :: t => (c :: h) :: t
           | [] => [[c]]
           end
  end.

(** [s.split(",").map((t) => t.trim())] *)
Definition toks (s : string) : list (list ascii) :=
  map trim_l (split_comma (list_ascii_of_string s)).

(** [Array.from(new Set(xs))]: first occurrences, in order. *)
Definition set_add (acc : list (list ascii)) (x : list ascii) : list (list ascii) :=
  if existsb (fun y => if list_eq_dec ascii_dec x y then true else false) acc
  then acc else acc ++ [x].

Definition dedup (l : list (list ascii)) : list (list ascii) := fold_left set_add l [].

Definition comma_space : list ascii := [comma; " "%char].

(** [xs.join(", ")] *)
Fixpoint join_cs (l : list (list ascii)) : list ascii :=
  match l with
  | [] => []
  | x :: r => match r with
              | [] => x
              | _ => x ++ comma_space ++ join_cs r
              end
  end.

(** ** [ParameterConfig] and its two compilers (config.ts) *)

(** An element of [enum?: (string | number)[]]. *)
Inductive lit : Type :=
| LStr (s : string)
| LNum (z : Z).

Definition lit_jv (l : lit) : jv :=
  match l with
  | LStr s => JStr s
  | LNum z => JNum z
  end.

(** [typeof firstValue === "number"] *)
Definition lit_is_number (l : lit) : bool :=
  match l with
  | LNum _ => true
  | LStr _ => false
  end.

(** Strict equality [v === l] of an input value and a literal. *)
Definition lit_match (l : lit) (v : jv) : bool :=
  match l, v with
  | LStr s, JStr t => String.eqb s t
  | LNum a, JNum b => Z.eqb a b
  | _, _ => false
  end.

(** A parameter declaration as parsed from YAML; [None] is an absent
    (undefined) field.  The type tag is any string, as the loader does
    not check it. *)
Inductive ParameterConfig : Type := mkParam {
  ptype : option string;
  pdescription : option string;
  prequired : option bool;
  pdefault : option jv;
  penum : option (list lit);
  pitems : option ParameterConfig;
  pproperties : option (list (string * ParameterConfig))
}.

(** [!!param.required] *)
Definition is_required (p : ParameterConfig) : bool :=
  match prequired p with Some b => b | None => false end.

(** [!!param.description] *)
Definition description_set (p : ParameterConfig) : option string :=
  match pdescription p with
  | Some d => if String.eqb d "" then None else Some d
  | None => None
  end.

(** The cases of [switch (param.type)]. *)
Inductive tag : Type := TString | TNumber | TBoolean | TArray | TObject | TEnum | TOther.

Definition tag_of (t : option string) : tag :=
  match t with
  | None => TOther
  | Some s =>
      if String.eqb s "string" then TString
      else if String.eqb s "number" then TNumber
      else if String.eqb s "boolean" then TBoolean
      else if String.eqb s "array" then TArray
      else if String.eqb s "object" then TObject
      else if String.eqb s "enum" then TEnum
      else TOther
  end.

(** Fields set after the switch: [description], then [default]. *)
Definition annotations (p : ParameterConfig) : list (string * jv) :=
  match description_set p with Some d => [("description", JStr d)] | None => [] end ++
  match pdefault p with Some d => [("default", d)] | None => [] end.

(** The loop of [convertParametersToJsonSchema] over
    [Object.entries(parameters)], given each entry's name, required flag
    and compiled schema: [properties] and [required].  A name [__proto__]
    goes through the setter ([aset]): it replaces the prototype of
    [properties] and adds no own property, but is pushed on [required]. *)
Definition params_loop (es : list (string * bool * jv)) : list (string * jv) * list string :=
  fold_left (fun (acc : list (string * jv) * list string) (e : string * bool * jv) =>
               let '(props, req) := acc in
               let '(n, r, sch) := e in
               (aset n sch props, if r then req ++ [n] else req))
            es ([], []).

Definition params_schema (es : list (string * bool * jv)) : jv :=
  let '(props, req) := params_loop es in
  JObj ([("type", JStr "object"); ("properties", JObj props)] ++
        (if Nat.ltb 0 (List.length req) then [("required", JArr (map JStr req))] else [])).

(** [convertParameterToJsonSchema] *)
Fixpoint convertParameterToJsonSchema (p : ParameterConfig) : jv :=
  match p with
  | mkParam ty _ _ _ en it pr =>
    let base :=
      match tag_of ty with
      | TString => [("type", JStr "string")]
      | TNumber => [("type", JStr "number")]
      | TBoolean => [("type", JStr "boolean")]
      | TArray =>
          [("type", JStr "array");
           ("items", match it with
                     | Some i => convertParameterToJsonSchema i
                     | None => JObj [("type", JStr "string")]
                     end)]
      | TObject =>
          match pr with
          | Some ps =>
              let nested := params_schema
                  (map (fun '(n, q) => (n, is_required q, convertParameterToJsonSchema q)) ps) in
              let fs := own_entries nested in
              [("type", JStr "object"); ("properties", get fs "properties")] ++
              match get fs "required" with
              | JArr (_ :: _) as r => [("required", r)]
              | _ => []
              end
          | None => [("type", JStr "object"); ("additionalProperties", JBool true)]
          end
      | TEnum =>
          match en with
          | Some ((v0 :: _) as vs) =>
              [("type", JStr (if lit_is_number v0 then "number" else "string"));
               ("enum", JArr (map lit_jv vs))]
          | _ => [("type", JStr "string"); ("enum", JArr [])]
          end
      | TOther => []
      end
    in JObj (base ++ annotations p)
  end.

(** [convertParametersToJsonSchema] *)
Definition convertParametersToJsonSchema (ps : list (string * ParameterConfig)) : jv :=
  params_schema (map (fun '(n, q) => (n, is_required q, convertParameterToJsonSchema q)) ps).

(** Zod schemas built by the compiler. *)
Inductive zod : Type :=
| ZString
| ZNumber
| ZBoolean
| ZArray (z : zod)
| ZObject (shape : list (string * zod))
| ZRecordUnknown                   (** [z.record(z.unknown())] *)
| ZLiteral (l : lit)
| ZUnion (zs : list zod)
| ZEnum (vs : list lit)
| ZDescribe (d : string) (z : zod)
| ZDefault (d : jv) (z : zod)
| ZOptional (z : zod).

(** [safeParse(v).success]; [JUndef] is an absent value.  As in Zod 3, an
    object schema reads each shape key with [data[key]]. *)
Fixpoint accepts (z : zod) (v : jv) : bool :=
  match z with
  | ZString => match v with JStr _ => true | _ => false end
  | ZNumber => match v with JNum _ => true | _ => false end
  | ZBoolean => match v with JBool _ => true | _ => false end
  | ZArray zi => match v with JArr xs => forallb (accepts zi) xs | _ => false end
  | ZObject sh =>
      match v with
      | JObj fs =>
          (fix go (sh : list (string * zod)) : bool :=
             match sh with
             | [] => true
             | (k, zk) :: r => accepts zk (get fs k) && go r
             end) sh
      | _ => false
      end
  | ZRecordUnknown => match v with JObj _ => true | _ => false end
  | ZLiteral l => lit_match l v
  | ZUnion zs =>
      (fix go (zs : list zod) : bool :=
         match zs with
         | [] => false
         | zi :: r => accepts zi v || go r
         end) zs
  | ZEnum vs => match v with JStr _ => existsb (fun l => lit_match l v) vs | _ => false end
  | ZDescribe _ zi => accepts zi v
  | ZDefault d zi => match v with JUndef => accepts zi d | _ => accepts zi v end
  | ZOptional zi => match v with JUndef => true | _ => accepts zi v end
  end.

(** [if (!param.required) schema = schema.optional()] *)
Definition wrap_optional (p : ParameterConfig) (z : zod) : zod :=
  if is_required p then z else ZOptional z.

(** The loop of [convertParametersToZodSchema]: [schemaObj[name] = schema].
    A name [__proto__] replaces the prototype of [schemaObj] by a Zod
    schema instead of adding a key; what later assignments meet on that
    prototype chain is not modelled. *)
Definition zod_params_loop (es : list (string * zod)) : list (string * zod) :=
  fold_left (fun (acc : list (string * zod)) (e : string * zod) =>
               let '(n, z) := e in aset n z acc) es [].

(** [convertParameterToZodSchema] *)
Fixpoint convertParameterToZodSchema (p : ParameterConfig) : zod :=
  match p with
  | mkParam ty _ _ df en it pr =>
    let base :=
      match tag_of ty with
      | TString => ZString
      | TNumber => ZNumber
      | TBoolean => ZBoolean
      | TArray =>
          match it with
          | Some i => ZArray (convertParameterToZodSchema i)
          | None => ZArray ZString
          end
      | TObject =>
          match pr with
          | Some ps =>
              ZObject (zod_params_loop
                (map (fun '(n, q) => (n, wrap_optional q (convertParameterToZodSchema q))) ps))
          | None => ZRecordUnknown
          end
      | TEnum =>
          match en with
          | Some ((v0 :: _) as vs) =>
              if lit_is_number v0 then ZUnion (map ZLiteral vs) else ZEnum vs
          | _ => ZEnum [LStr ""]
          end
      | TOther => ZString
      end in
    let described :=
      match description_set p with Some d => ZDescribe d base | None => base end in
    match df with
    | Some d => ZDefault d described
    | None => described
    end
  end.

(** [convertParametersToZodSchema] *)
Definition convertParametersToZodSchema (ps : list (string * ParameterConfig)) : list (string * zod) :=
  zod_params_loop (map (fun '(n, q) => (n, wrap_optional q (convertParameterToZodSchema q))) ps).

(** The tool's input validator: the server wraps the record in
    [z.object(...)]. *)
Definition parameters_validator (ps : list (string * ParameterConfig)) : zod :=
  ZObject (convertParametersToZodSchema ps).

(** ** [validateToolConfig] (config.ts) *)

Definition dq : string := String (ascii_of_nat 34) EmptyString.
Definition quoted (s : string) : string := (dq ++ s ++ dq)%string.

Definition valid_types : list string :=
  ["string"; "number"; "boolean"; "array"; "object"; "enum"].

(** [!param.type] *)
Definition type_missing (t : option string) : bool :=
  match t with None => true | Some s => String.eqb s "" end.

(** [validTypes.includes(param.type)] *)
Definition type_valid (t : option string) : bool :=
  match t with Some s => existsb (String.eqb s) valid_types | None => false end.

Definition type_text (t : option string) : string :=
  match t with Some s => s | None => "undefined" end.

(** [param.type === s] *)
Definition type_is (t : option string) (s : string) : bool :=
  match t with Some s' => String.eqb s' s | None => false end.

(** [param.enum && Array.isArray(param.enum) && param.enum.length > 0] *)
Definition enum_nonempty (en : option (list lit)) : bool :=
  match en with Some (_ :: _) => true | _ => false end.

Definition or_else (a b : option string) : option string :=
  match a with Some e => Some e | None => b end.

(** [validateNestedParameter] *)
Fixpoint validateNestedParameter (p : ParameterConfig) (path : string) : option string :=
  match p with
  | mkParam ty _ _ _ en it pr =>
    or_else
      (if type_is ty "enum" && negb (enum_nonempty en)
       then Some ("Parameter " ++ quoted path ++ " of type " ++ quoted "enum" ++
                  " must have a non-empty enum array")%string
       else None)
    (or_else
      (if negb (type_is ty "object") then None else
       match pr with
       | Some ps =>
           (fix go (ps : list (string * ParameterConfig)) : option string :=
              match ps with
              | [] => None
              | (n, q) :: r =>
                  if type_missing (ptype q)
                  then Some ("Nested parameter " ++ quoted n ++ " in " ++ quoted path ++
                             " is missing type property")%string
                  else if negb (type_valid (ptype q))
                  then Some ("Nested parameter " ++ quoted n ++ " in " ++ quoted path ++
                             " has invalid type " ++ quoted (type_text (ptype q)))%string
                  else or_else (validateNestedParameter q (path ++ "." ++ n)%string) (go r)
              end) ps
       | None => None
       end)
      (if negb (type_is ty "array") then None else
       match it with
       | Some i =>
           if type_missing (ptype i)
           then Some ("Items in array parameter " ++ quoted path ++ " must specify a type")%string
           else if negb (type_valid (ptype i))
           then Some ("Items in array parameter " ++ quoted path ++ " have invalid type " ++
                      quoted (type_text (ptype i)))%string
           else validateNestedParameter i (path ++ " items")%string
       | None => None
       end))
  end.

(** The body of the loop over [Object.entries(toolConfig.parameters)]. *)
Definition validateTopParameter (paramName : string) (param : ParameterConfig) : option string :=
  let ty := ptype param in
  if type_missing ty
  then Some ("Parameter " ++ quoted paramName ++ " is missing type property")%string
  else if negb (type_valid ty)
  then Some ("Parameter " ++ quoted paramName ++ " has invalid type " ++ quoted (type_text ty))%string
  else if type_is ty "enum" && negb (enum_nonempty (penum param))
  then Some ("Parameter " ++ quoted paramName ++ " of type " ++ quoted "enum" ++
             " must have a non-empty enum array")%string
  else or_else
    (if negb (type_is ty "object") then None else
     match pproperties param with
     | Some ps =>
         fold_right (fun (e : string * ParameterConfig) (rest : option string) =>
           let '(nestedName, nestedParam) := e in
           if type_missing (ptype nestedParam)
           then Some ("Nested parameter " ++ quoted nestedName ++ " in " ++ quoted paramName ++
                      " is missing type property")%string
           else if negb (type_valid (ptype nestedParam))
           then Some ("Nested parameter " ++ quoted nestedName ++ " in " ++ quoted paramName ++
                      " has invalid type " ++ quoted (type_text (ptype nestedParam)))%string
           else or_else (validateNestedParameter nestedParam
                           (paramName ++ "." ++ nestedName)%string) rest) None ps
     | None => None
     end)
    (if negb (type_is ty "array") then None else
     match pitems param with
     | Some i =>
         if type_missing (ptype i)
         then Some ("Items in array parameter " ++ quoted paramName ++ " must specify a type")%string
         else if negb (type_valid (ptype i))
         then Some ("Items in array parameter " ++ quoted paramName ++ " have invalid type " ++
                    quoted (type_text (ptype i)))%string
         else validateNestedParameter i (paramName ++ " items")%string
     | None => None
     end).

(** The field of a [PromptConfig] that [validateToolConfig] reads. *)
Record ToolEntry : Type := mkToolEntry {
  te_parameters : option (list (string * ParameterConfig))
}.

(** A [DevToolsConfig]: [None] is a [null] entry. *)
Definition ToolsConfig : Type := list (string * option ToolEntry).

(** [validateToolConfig]; [None] is [null].  A name inherited from
    [Object.prototype] finds a function, whose [parameters] is undefined. *)
Definition validateToolConfig (config : ToolsConfig) (toolName : string) : option string :=
  let not_found := Some ("Tool " ++ quoted toolName ++ " not found in configuration")%string in
  match lookup toolName config with
  | Some (Some te) =>
      match te_parameters te with
      | Some ps =>
          fold_right (fun (e : string * ParameterConfig) (rest : option string) =>
                        or_else (validateTopParameter (fst e) (snd e)) rest) None ps
      | None => None
      end
  | Some None => not_found
  | None => if is_proto_member toolName then None else not_found
  end.

(** ** [mergeTools] and [mergeConfigs] (config.ts) *)

(** [Object.fromEntries(tools.split(",").map((t) => [t.trim(), ""]))]
    when [tools] is a string; the value itself otherwise. *)
Definition tools_to_obj (v : jv) : jv :=
  match v with
  | JStr s =>
      JObj (fold_left (fun (acc : list (string * jv)) (t : list ascii) =>
                         adef (string_of_list_ascii (trim_l t)) (JStr "") acc)
                      (split_comma (list_ascii_of_string s)) [])
  | _ => v
  end.

(** One step of [for (const [key, value] of Object.entries(sourceObj))]. *)
Definition merge_tool_entry (result : list (string * jv)) (e : string * jv) : list (string * jv) :=
  let '(key, value) := e in
  if key_in result key && is_object_type (get result key) && is_object_type value
  then aset key (JObj (spread (spread [] (get result key)) value)) result
  else aset key value result.

(** [mergeTools] *)
Definition mergeTools (targetTools sourceTools : jv) : jv :=
  if negb (truthy targetTools) && negb (truthy sourceTools) then JUndef
  else if negb (truthy targetTools) then sourceTools
  else if negb (truthy sourceTools) then targetTools
  else match targetTools, sourceTools with
       | JStr a, JStr b =>
           JStr (string_of_list_ascii (join_cs (dedup (toks a ++ toks b))))
       | _, _ =>
           let targetObj := tools_to_obj targetTools in
           let sourceObj := tools_to_obj sourceTools in
           JObj (fold_left merge_tool_entry (own_entries sourceObj) (spread [] targetObj))
       end.

(** [x?.tools] *)
Definition tools_of (v : jv) : jv :=
  match v with
  | JObj fs => get fs "tools"
  | _ => JUndef
  end.

(** One step of [Object.entries(source).forEach(([key, value]) => ...)]
    in [mergeConfigs]: [target[key]] is read through the prototype. *)
Definition merge_config_entry (tgt : list (string * jv)) (e : string * jv) : list (string * jv) :=
  let '(key, value) := e in
  if truthy (get tgt key)
  then aset key
         (JObj (adef "tools" (mergeTools (tools_of (get tgt key)) (tools_of value))
                     (spread (spread [] (get tgt key)) value))) tgt
  else aset key value tgt.

(** [mergeConfigs]: the target (a plain object with prototype
    [Object.prototype]) is updated key by key (an object stored by
    [target[key] = value] is never mutated afterwards: the merge branch
    builds a fresh object, so the model passes values).  A source key
    [__proto__] that is not an own key of the target takes the merge
    branch ([target.__proto__] is the prototype) and the setter then
    replaces the prototype of the target: later reads of [target[key]]
    through that prototype are not modelled. *)
Definition mergeConfigs (target source : list (string * jv)) : list (string * jv) :=
  fold_left merge_config_entry source target.

(** The token list of a tools string, as a caller reading it back splits it. *)
Definition tokens_of (v : jv) : list (list ascii) :=
  match v with
  | JStr s => toks s
  | _ => []
  end.

Fixpoint nodup_keys {A} (fs : list (string * A)) : bool :=
  match fs with
  | [] => true
  | (k, _) :: r => negb (existsb (String.eqb k) (map fst r)) && nodup_keys r
  end.

(** A tools value in one of its two declared forms: a non-empty
    comma-separated string, or an object (with distinct keys). *)
Definition tools_form (v : jv) : bool :=
  match v with
  | JStr a => negb (String.eqb a "")
  | JObj fs => nodup_keys fs
  | _ => false
  end.

Definition is_obj (v : jv) : bool :=
  match v with JObj _ => true | _ => false end.

(** The trimmed names of a tools string, in order ([Object.fromEntries]
    keeps one key per name). *)
Definition tool_names (a : string) : list string :=
  map (fun t => string_of_list_ascii (trim_l t)) (split_comma (list_ascii_of_string a)).

(** The entry of a key after merging two declaration sets, as C3
    describes it: a key on both sides gets the overlay's fields over the
    base's, with [tools] computed by [mergeTools]; a key on one side only
    keeps its value. *)
Definition merged_config (base overlay : option jv) : option jv :=
  match base, overlay with
  | Some x, Some y =>
      Some (JObj (adef "tools" (mergeTools (tools_of x) (tools_of y)) (spread (spread [] x) y)))
  | Some x, None => Some x
  | None, Some y => Some y
  | None, None => None
  end.

(** The entry of a key after merging two tool mappings, as C4 (amended)
    describes it: a key on one side only keeps its value; a key on both
    sides gets [{...base, ...overlay}] when both values are objects
    ([typeof] "object"), and the overlay value otherwise. *)
Definition merged_entry (base overlay : option jv) : option jv :=
  match base, overlay with
  | Some x, Some y =>
      Some (if is_object_type x && is_object_type y then JObj (spread (spread [] x) y) else y)
  | Some x, None => Some x
  | None, Some y => Some y
  | None, None => None
  end.

(** The condition of C10, from its words: a recognized type tag, a
    non-empty value list for an enum, and the same for every property of an
    object and for the item shape of an array, at every depth. *)
Fixpoint shape_ok (p : ParameterConfig) : bool :=
  match p with
  | mkParam ty _ _ _ en it pr =>
      type_valid ty &&
      (if type_is ty "enum" then enum_nonempty en else true) &&
      (if type_is ty "object" then
         match pr with
         | Some ps =>
             (fix all (ps : list (string * ParameterConfig)) : bool :=
                match ps with
                | [] => true
                | (_, q) :: r => shape_ok q && all r
                end) ps
         | None => true
         end
       else true) &&
      (if type_is ty "array" then
         match it with Some i => shape_ok i | None => true end
       else true)
  end.

Definition params_ok (o : option (list (string * ParameterConfig))) : bool :=
  match o with
  | Some ps => forallb (fun e => shape_ok (snd e)) ps
  | None => true
  end.

(** ** [processTemplate] and [appendFormattedTools] (utils.ts) *)

Definition nl : string := String (ascii_of_nat 10) EmptyString.

(** [new Set<string>().add(x)] keeps insertion order and no duplicate. *)
Definition str_set_add (acc : list string) (x : string) : list string :=
  if existsb (String.eqb x) acc then acc else acc ++ [x].

(** The longest prefix without ['}'], and the rest. *)
Fixpoint take_run (l : list ascii) : list ascii * list ascii :=
  match l with
  | [] => ([], [])
  | c :: r =>
      if Ascii.eqb c "}" then ([], l)
      else let '(run, rest) := take_run r in (c :: run, rest)
  end.

(** [template.replace(/\{\{\s*([^}]+)\s*\}\}/g, ...)]: at a ["{{"] the
    three parts of the pattern all consume non-['}'] characters, so a
    match is ["{{"], a non-empty run of non-['}'] characters, and ["}}"];
    the captured name, once trimmed, is the trimmed run. Where no match
    starts, the scan moves on by one character. *)
Fixpoint replace_loop (fuel : nat) (params : list (string * jv)) (l : list ascii)
         (used : list string) : option (list ascii * list string) :=
  match fuel with
  | O => Some (l, used)
  | S f =>
      match l with
      | [] => Some ([], used)
      | c :: r =>
          let skip := match replace_loop f params r used with
                      | Some (out, u) => Some (c :: out, u)
                      | None => None
                      end in
          match r with
          | c2 :: r2 =>
              if Ascii.eqb c "{" && Ascii.eqb c2 "{" then
                let '(run, rest) := take_run r2 in
                match run, rest with
                | _ :: _, c3 :: c4 :: rest' =>
                    if Ascii.eqb c3 "}" && Ascii.eqb c4 "}" then
                      let trimmedName := string_of_list_ascii (trim_l run) in
                      if key_in params trimmedName then
                        match js_String (get params trimmedName) with
                        | Some s =>
                            match replace_loop f params rest' (str_set_add used trimmedName) with
                            | Some (out, u) => Some (list_ascii_of_string s ++ out, u)
                            | None => None
                            end
                        | None => None
                        end
                      else
                        match replace_loop f params rest' used with
                        | Some (out, u) => Some ((c :: c2 :: run ++ [c3; c4]) ++ out, u)
                        | None => None
                        end
                    else skip
                | _, _ => skip
                end
              else skip
          | [] => skip
          end
      end
  end.

(** [processTemplate]: [None] is an undefined (or null) template;
    [params] holds the own properties of the argument object (a plain
    object with prototype [Object.prototype]).  The result is [None] when
    the call throws ([String()] of a replacement value throws). *)
Definition processTemplate (template : option string) (params : list (string * jv))
  : option (string * list string) :=
  match template with
  | None => Some ("", [])
  | Some t =>
      if Nat.eqb (List.length params) 0 then Some (t, [])
      else let l := list_ascii_of_string t in
           match replace_loop (List.length l) params l [] with
           | Some (out, u) => Some (string_of_list_ascii out, u)
           | None => None
           end
  end.

(** [ToolItem] *)
Record ToolItem : Type := mkToolItem {
  name : string;
  description : option string;
  prompt : option string;
  optional : option bool
}.

(** [!!s] for an optional string, [!!b] for an optional boolean. *)
Definition str_truthy (o : option string) : bool :=
  match o with Some s => negb (String.eqb s "") | None => false end.

Definition opt_truthy (o : option bool) : bool :=
  match o with Some b => b | None => false end.

(** [`${s}`] of a (truthy) optional string. *)
Definition ostr (o : option string) : string :=
  match o with Some s => s | None => "" end.

(** The body of one iteration of either loop of [appendFormattedTools],
    after its first append ([prefix] ++ [tool.name]). *)
Definition tool_line (prefix : string) (tool : ToolItem) : string :=
  let p := str_truthy (prompt tool) in
  let d := str_truthy (description tool) in
  (prefix ++ name tool
   ++ (if (negb p && d) || (p && d) then ": " else "")
   ++ (if d then ostr (description tool) else "")
   ++ (if p && d then " - " else "")
   ++ (if p && negb d then ": " else "")
   ++ (if p then ostr (prompt tool) else "")
   ++ (if opt_truthy (optional tool) then " (Optional)" else "")
   ++ nl)%string.

(** [for (const [index, tool] of toolsList.entries())]: [`${index + 1}. `]. *)
Fixpoint sequential_lines (index : nat) (tools : list ToolItem) : string :=
  match tools with
  | [] => ""
  | tool :: r => (tool_line (index_key (S index) ++ ". ") tool ++ sequential_lines (S index) r)%string
  end.

Fixpoint dynamic_lines (tools : list ToolItem) : string :=
  match tools with
  | [] => ""
  | tool :: r => (tool_line "- " tool ++ dynamic_lines r)%string
  end.

Definition sequential_intro : string :=
  "If all required user input/feedback is acquired or if no input/feedback is needed, execute this exact sequence of tools to complete this task:".

Definition dynamic_intro : string :=
  "Use these tools as needed to complete the user's request:".

Definition next_steps : string :=
  "After using each tool, return a 'Next Steps' section with a list of the next steps to take / remaining tools to invoke along with each tool's prompt/description and 'optional' flag if present.".

Definition tools_header : string := (nl ++ nl ++ "## Available Tools" ++ nl)%string.

(** [appendFormattedTools]; [toolMode] is [Some "sequential"],
    [Some "situational"] or [None]. *)
Definition appendFormattedTools (baseText : string) (toolsList : list ToolItem)
           (toolMode : option string) : string :=
  match toolsList with
  | [] => baseText
  | _ =>
      let resultText := (baseText ++ tools_header)%string in
      let resultText :=
        match toolMode with
        | Some "sequential" =>
            (resultText ++ sequential_intro ++ nl ++ nl ++ sequential_lines 0 toolsList)%string
        | _ => (resultText ++ dynamic_intro ++ nl ++ nl ++ dynamic_lines toolsList)%string
        end in
      (resultText ++ nl ++ next_steps)%string
  end.

(** A field "present" in the sense of C8: defined and non-empty. *)
Definition present (o : option string) : option string :=
  match o with
  | Some s => if String.eqb s "" then None else Some s
  | None => None
  end.

(** One entry as C8 (amended) renders it: the name, then [": "] and the
    description and/or the prompt, separated by [" - "] when both are
    present, then [" (Optional)"] when the flag is set. *)
Definition entry_text (tool : ToolItem) : string :=
  (name tool
   ++ match present (description tool), present (prompt tool) with
      | Some d, Some p => ": " ++ d ++ " - " ++ p
      | Some d, None => ": " ++ d
      | None, Some p => ": " ++ p
      | None, None => ""
      end
   ++ (if opt_truthy (optional tool) then " (Optional)" else ""))%string.

(** C8's rendering of the entries, numbered from [index + 1] or bulleted. *)
Fixpoint numbered_entries (index : nat) (tools : list ToolItem) : string :=
  match tools with
  | [] => ""
  | tool :: r =>
      (index_key (S index) ++ ". " ++ entry_text tool ++ nl ++ numbered_entries (S index) r)%string
  end.

Fixpoint bulleted_entries (tools : list ToolItem) : string :=
  match tools with
  | [] => ""
  | tool :: r => ("- " ++ entry_text tool ++ nl ++ bulleted_entries r)%string
  end.

(** Every byte below 128: the text holds no multi-byte UTF-8 character
    (an en-dash is the three bytes 226 128 147). *)
Definition ascii_only (s : string) : bool :=
  forallb (fun c => Nat.ltb (nat_of_ascii c) 128) (list_ascii_of_string s).

(** ** [formatToolsList] (utils.ts) *)

(** The objects [formatToolsList] builds, with their fields as the
    configuration gives them ([JUndef]: the field is not set). *)
Record ToolItemValue : Type := mkToolItemValue {
  item_name : string;
  item_description : jv;
  item_prompt : jv;
  item_optional : jv
}.

(** [v || d] *)
Definition js_or (v d : jv) : jv := if truthy v then v else d.

(** [v.k] on a value of [typeof] "object" other than [null]. *)
Definition prop (v : jv) (k : string) : jv := get (own_entries v) k.

(** The callback of [Object.entries(tools).map(([name, value]) => ...)]. *)
Definition format_entry (e : string * jv) : ToolItemValue :=
  let '(nm, value) := e in
  match value with
  | JStr d => mkToolItemValue nm (JStr d) JUndef JUndef
  | JObj _ | JArr _ =>
      mkToolItemValue nm (js_or (prop value "description") (JStr ""))
                         (js_or (prop value "prompt") (JStr ""))
                         (js_or (prop value "optional") (JBool false))
  | _ => mkToolItemValue nm (JStr "") JUndef JUndef
  end.

(** [formatToolsList]: a value whose [typeof] is neither "string" nor
    "object" leaves the list empty. *)
Definition formatToolsList (tools : jv) : list ToolItemValue :=
  match tools with
  | JUndef | JNull => []
  | JStr s =>
      if String.eqb (trim s) "" then [mkToolItemValue "" (JStr "") JUndef JUndef]
      else map (fun t => mkToolItemValue (string_of_list_ascii (trim_l t)) (JStr "") JUndef JUndef)
               (split_comma (list_ascii_of_string s))
  | JObj _ | JArr _ => map format_entry (own_entries tools)
  | _ => []
  end.

(** A [ToolItemValue] whose fields hold strings (and a boolean flag) is
    the [ToolItem] that [appendFormattedTools] reads. *)
Definition string_field (v : jv) : option (option string) :=
  match v with JUndef => Some None | JStr s => Some (Some s) | _ => None end.

Definition bool_field (v : jv) : option (option bool) :=
  match v with JUndef => Some None | JBool b => Some (Some b) | _ => None end.

Definition to_tool_item (i : ToolItemValue) : option ToolItem :=
  match string_field (item_description i), string_field (item_prompt i),
        bool_field (item_optional i) with
  | Some d, Some p, Some o => Some (mkToolItem (item_name i) d p o)
  | _, _, _ => None
  end.

(** ** Configuration loaders (config.ts, preset.ts) *)

(** [s.toLowerCase()] on ASCII text. *)
Definition lower (c : ascii) : ascii :=
  let n := nat_of_ascii c in
  if Nat.leb 65 n && Nat.leb n 90 then ascii_of_nat (n + 32) else c.

Definition toLowerCase (s : string) : string :=
  string_of_list_ascii (map lower (list_ascii_of_string s)).

(** [s.endsWith(suffix)] *)
Definition endsWith (s suffix : string) : bool :=
  let l := list_ascii_of_string s in
  let x := list_ascii_of_string suffix in
  Nat.leb (List.length x) (List.length l) &&
  (if list_eq_dec ascii_dec (skipn (List.length l - List.length x) l) x then true else false).

(** A directory as the loader sees it: whether [existsSync] and
    [statSync(...).isDirectory()] hold, the [path.basename] of the
    resolved path, and the [readdirSync] listing ([None] when reading the
    directory throws), each file with the document [yaml.load] gives for
    its content ([None] when reading or parsing it throws). *)
Record ConfigDir : Type := mkConfigDir {
  dir_is_directory : bool;
  dir_name : string;
  dir_listing : option (list (string * option jv))
}.

(** The filter of [loadConfig]: [.yaml] or [.yml], in any case. *)
Definition is_yaml_file (file : string) : bool :=
  endsWith (toLowerCase file) ".yaml" || endsWith (toLowerCase file) ".yml".

(** One iteration of [for (const file of files)]: a failed read or parse,
    a non-object document, and a [null] document (on which
    [Object.entries] throws inside [mergeConfigs], before any update) are
    all skipped. *)
Definition load_file (mergedConfig : list (string * jv)) (doc : option jv) : list (string * jv) :=
  match doc with
  | None => mergedConfig
  | Some fileConfig =>
      if negb (String.eqb (typeof fileConfig) "object") then mergedConfig
      else match fileConfig with
           | JNull => mergedConfig
           | _ => mergeConfigs mergedConfig (own_entries fileConfig)
           end
  end.

(** [loadConfigSync]; [None] and [""] are a missing path; the result
    [[]] is [defaultConfig]. *)
Definition loadConfigSync (directoryPath : option string) (dir : ConfigDir) : list (string * jv) :=
  match directoryPath with
  | None => []
  | Some p =>
      if String.eqb p "" then [] else
      if negb (dir_is_directory dir) then [] else
      if negb (existsb (String.eqb (dir_name dir)) [".workflows"; ".mcp-workflows"]) then [] else
      match dir_listing dir with
      | None => []
      | Some listing =>
          let files := filter (fun e => is_yaml_file (fst e)) listing in
          if Nat.eqb (List.length files) 0 then []
          else fold_left (fun m e => load_file m (snd e)) files []
      end
  end.

(** [loadConfig] has the same body as [loadConfigSync] (it only returns a
    promise of the result). *)
Definition loadConfig (directoryPath : option string) (dir : ConfigDir) : list (string * jv) :=
  loadConfigSync directoryPath dir.

(** Node's [path.extname] (POSIX), scanning from the last character. *)
Record ext_state : Type := mkExtState {
  startDot : Z; startPart : Z; end_ : Z; matchedSlash : bool; preDotState : Z
}.

Definition slash : ascii := "/".
Definition dot : ascii := ".".

Fixpoint extname_loop (i : Z) (cs : list ascii) (st : ext_state) : ext_state :=
  match cs with
  | [] => st
  | c :: r =>
      if Ascii.eqb c slash then
        if negb (matchedSlash st)
        then mkExtState (startDot st) (i + 1) (end_ st) (matchedSlash st) (preDotState st)
        else extname_loop (i - 1) r st
      else
        let st1 := if Z.eqb (end_ st) (-1)
                   then mkExtState (startDot st) (startPart st) (i + 1) false (preDotState st)
                   else st in
        let st2 :=
          if Ascii.eqb c dot then
            if Z.eqb (startDot st1) (-1)
            then mkExtState i (startPart st1) (end_ st1) (matchedSlash st1) (preDotState st1)
            else if negb (Z.eqb (preDotState st1) 1)
            then mkExtState (startDot st1) (startPart st1) (end_ st1) (matchedSlash st1) 1
            else st1
          else if negb (Z.eqb (startDot st1) (-1))
          then mkExtState (startDot st1) (startPart st1) (end_ st1) (matchedSlash st1) (-1)
          else st1 in
        extname_loop (i - 1) r st2
  end.

(** [s.slice(a, b)] for [0 <= a <= b <= s.length]. *)
Definition slice (s : string) (a b : Z) : string :=
  string_of_list_ascii (firstn (Z.to_nat (b - a)) (skipn (Z.to_nat a) (list_ascii_of_string s))).

Definition extname (path : string) : string :=
  let cs := list_ascii_of_string path in
  let st := extname_loop (Z.of_nat (List.length cs) - 1) (rev cs) (mkExtState (-1) 0 (-1) true 0) in
  if Z.eqb (startDot st) (-1) || Z.eqb (end_ st) (-1) || Z.eqb (preDotState st) 0 ||
     (Z.eqb (preDotState st) 1 && Z.eqb (startDot st) (end_ st - 1) &&
      Z.eqb (startDot st) (startPart st + 1))
  then "" else slice path (startDot st) (end_ st).

(** Node's [path.basename(path, suffix)] (POSIX). *)
Record base_state : Type := mkBaseState {
  b_start : Z; b_end : Z; b_matchedSlash : bool; extIdx : Z; firstNonSlashEnd : Z
}.

Fixpoint basename_suffix_loop (suffix : list ascii) (i : Z) (cs : list ascii) (st : base_state)
  : base_state :=
  match cs with
  | [] => st
  | c :: r =>
      if Ascii.eqb c slash then
        if negb (b_matchedSlash st)
        then mkBaseState (i + 1) (b_end st) (b_matchedSlash st) (extIdx st) (firstNonSlashEnd st)
        else basename_suffix_loop suffix (i - 1) r st
      else
        let st1 := if Z.eqb (firstNonSlashEnd st) (-1)
                   then mkBaseState (b_start st) (b_end st) false (extIdx st) (i + 1)
                   else st in
        let st2 :=
          if Z.leb 0 (extIdx st1) then
            if Ascii.eqb c (nth (Z.to_nat (extIdx st1)) suffix " "%char) then
              if Z.eqb (extIdx st1 - 1) (-1)
              then mkBaseState (b_start st1) i (b_matchedSlash st1) (extIdx st1 - 1) (firstNonSlashEnd st1)
              else mkBaseState (b_start st1) (b_end st1) (b_matchedSlash st1) (extIdx st1 - 1)
                               (firstNonSlashEnd st1)
            else mkBaseState (b_start st1) (firstNonSlashEnd st1) (b_matchedSlash st1) (-1)
                             (firstNonSlashEnd st1)
          else st1 in
        basename_suffix_loop suffix (i - 1) r st2
  end.

Fixpoint basename_loop (i : Z) (cs : list ascii) (st : Z * Z * bool) : Z * Z * bool :=
  match cs with
  | [] => st
  | c :: r =>
      let '(start, e, matched) := st in
      if Ascii.eqb c slash then
        if negb matched then ((i + 1)%Z, e, matched) else basename_loop (i - 1) r st
      else if Z.eqb e (-1) then basename_loop (i - 1) r (start, (i + 1)%Z, false)
      else basename_loop (i - 1) r st
  end.

Definition basename (path suffix : string) : string :=
  let cs := list_ascii_of_string path in
  let n := Z.of_nat (List.length cs) in
  let sx := list_ascii_of_string suffix in
  if Nat.ltb 0 (List.length sx) && Nat.leb (List.length sx) (List.length cs) then
    if String.eqb suffix path then "" else
    let st := basename_suffix_loop sx (n - 1) (rev cs)
                (mkBaseState 0 (-1) true (Z.of_nat (List.length sx) - 1) (-1)) in
    let e := if Z.eqb (b_start st) (b_end st) then firstNonSlashEnd st
             else if Z.eqb (b_end st) (-1) then n else b_end st in
    slice path (b_start st) e
  else
    let '(start, e, _) := basename_loop (n - 1) (rev cs) (0%Z, (-1)%Z, true) in
    if Z.eqb e (-1) then "" else slice path start e.

(** The presets directory: [None] when it does not exist (or reading it
    throws); otherwise its listing, as for [ConfigDir]. *)
Definition PresetsDir : Type := option (list (string * option jv)).

(** [listAvailablePresets] *)
Definition listAvailablePresets (presets : PresetsDir) : list string :=
  match presets with
  | None => []
  | Some listing =>
      map (fun file => basename file (extname file))
          (filter (fun file => endsWith file ".yaml" || endsWith file ".yml") (map fst listing))
  end.

(** [loadPresetConfig] on the file [file] of the presets directory. *)
Definition loadPresetConfig (presets : PresetsDir) (file : string) : jv :=
  match presets with
  | None => JObj []
  | Some listing =>
      match lookup file listing with
      | Some (Some config) =>
          if negb (String.eqb (typeof config) "object") then JObj [] else config
      | _ => JObj []
      end
  end.

(** One iteration of [for (const preset of presets)] in [loadPresetConfigs]. *)
Definition load_preset (presets : PresetsDir) (availablePresets : list string)
           (mergedConfig : list (string * jv)) (preset : string) : list (string * jv) :=
  if String.eqb preset "" then mergedConfig
  else if negb (existsb (String.eqb preset) availablePresets) then mergedConfig
  else match loadPresetConfig presets (preset ++ ".yaml") with
       | JNull => mergedConfig
       | presetConfig => mergeConfigs mergedConfig (own_entries presetConfig)
       end.

(** [loadPresetConfigs] *)
Definition loadPresetConfigs (presets : PresetsDir) (names : list string) : list (string * jv) :=
  fold_left (load_preset presets (listAvailablePresets presets)) names [].

(** ** Auxiliary definitions of the further properties *)

(** The lines of a list of bare tool names, numbered from [index + 1] or
    bulleted. *)
Fixpoint numbered_names (index : nat) (names : list string) : string :=
  match names with
  | [] => ""
  | n :: r => (index_key (S index) ++ ". " ++ n ++ nl ++ numbered_names (S index) r)%string
  end.

Fixpoint bulleted_names (names : list string) : string :=
  match names with
  | [] => ""
  | n :: r => ("- " ++ n ++ nl ++ bulleted_names r)%string
  end.

(** No two consecutive ['{'] characters. *)
Fixpoint no_double_brace (l : list ascii) : bool :=
  match l with
  | c :: ((c2 :: _) as r) => negb (Ascii.eqb c "{" && Ascii.eqb c2 "{") && no_double_brace r
  | _ => true
  end.

(** The JSON Schema type of a present value. *)
Definition json_type (v : jv) : option string :=
  match v with
  | JStr _ => Some "string"
  | JNum _ => Some "number"
  | JBool _ => Some "boolean"
  | JArr _ => Some "array"
  | JObj _ => Some "object"
  | _ => None
  end.

(** All values of an enum list are numbers, or all are strings. *)
Definition same_kind (vs : list lit) : bool :=
  match vs with
  | [] => true
  | v0 :: r => forallb (fun v => Bool.eqb (lit_is_number v) (lit_is_number v0)) r
  end.

Definition json_types : list string := ["string"; "number"; "boolean"; "array"; "object"].

(** A JSON Schema node declares one of [json_types] as its [type], and so
    do its [items] schema and each schema under its [properties]. *)
Fixpoint wire_typed (v : jv) : bool :=
  match v with
  | JObj fs =>
      match lookup "type" fs with
      | Some (JStr t) => existsb (String.eqb t) json_types
      | _ => false
      end &&
      forallb (fun e => if String.eqb (fst e) "items" then wire_typed (snd e)
                        else if String.eqb (fst e) "properties" then
                          match snd e with
                          | JObj ps => forallb (fun e' => wire_typed (snd e')) ps
                          | _ => false
                          end
                        else true) fs
  | _ => false
  end.

(** A file the loaders skip: it cannot be read or parsed, or its document
    is not an object, or it is [null]. *)
Definition skipped (doc : option jv) : bool :=
  match doc with
  | None => true
  | Some v => negb (String.eqb (typeof v) "object") || match v with JNull => true | _ => false end
  end.

(** The declarations of a mapping document. *)
Definition doc_entries (doc : option jv) : list (string * jv) :=
  match doc with Some (JObj fs) => fs | _ => [] end.

(** The declarations of the YAML files of a listing, file by file. *)
Definition yaml_entries (listing : list (string * option jv)) : list (string * jv) :=
  List.concat (map (fun e => doc_entries (snd e)) (filter (fun e => is_yaml_file (fst e)) listing)).

(** The [<preset>.yaml] file of the presets directory is missing or
    skipped. *)
Definition preset_skipped (presets : PresetsDir) (preset : string) : bool :=
  match presets with
  | None => true
  | Some listing =>
      match lookup (preset ++ ".yaml") listing with
      | Some doc => skipped doc
      | None => true
      end
  end.

(** A character that is neither ['/'] nor ['.']. *)
Definition stem_char_ok (c : ascii) : bool := negb (Ascii.eqb c slash) && negb (Ascii.eqb c dot).

(** ** Auxiliary definitions of the proofs *)

(** The claim as stated, for the numeric kind: the validator accepts
    exactly the listed numeric literals. *)
Definition accepts_exactly_numeric_literals (z : zod) (vs : list lit) : Prop :=
  forall x, x <> JUndef ->
    (accepts z x = true <-> exists n, x = JNum n /\ In (LNum n) vs).

(** Induction over shapes, through array items and object properties. *)
Fixpoint ParameterConfig_rect' (P : ParameterConfig -> Prop)
  (H : forall ty de rq df en it pr,
         match it with Some i => P i | None => True end ->
         match pr with Some ps => Forall (fun e => P (snd e)) ps | None => True end ->
         P (mkParam ty de rq df en it pr))
  (p : ParameterConfig) {struct p} : P p :=
  match p with
  | mkParam ty de rq df en it pr =>
      H ty de rq df en it pr
        (match it as o return match o with Some i => P i | None => True end with
         | Some i => ParameterConfig_rect' P H i
         | None => I
         end)
        (match pr as o return match o with
                              | Some ps => Forall (fun e => P (snd e)) ps
                              | None => True
                              end with
         | Some ps =>
             (fix go (ps : list (string * ParameterConfig)) : Forall (fun e => P (snd e)) ps :=
                match ps with
                | [] => Forall_nil _
                | (n, q) :: r => @Forall_cons _ (fun e => P (snd e)) (n, q) r
                                   (ParameterConfig_rect' P H q) (go r)
                end) ps
         | None => I
         end)
  end.

(** A declaration whose enum with no values sits in the item shape of an
    array property of an object parameter. *)
Definition deep_entry : ToolEntry :=
  mkToolEntry (Some
    [("opts", mkParam (Some "object") None None None None None
        (Some [("xs", mkParam (Some "array") None None None None
                  (Some (mkParam (Some "enum") None None None (Some []) None None)) None)]))]).

(** * Properties of the schema compilers *)

Section CompilerFacts.

Lemma accepts_union_literals (vs : list lit) (x : jv) :
  accepts (ZUnion (map ZLiteral vs)) x = existsb (fun l => lit_match l x) vs.
Proof. induction vs as [|l vs IH]; simpl; [reflexivity|]. rewrite <- IH. reflexivity. Qed.

Lemma accepts_object (sh : list (string * zod)) (fs : list (string * jv)) :
  accepts (ZObject sh) (JObj fs) = forallb (fun e => accepts (snd e) (get fs (fst e))) sh.
Proof.
  induction sh as [|[k z] sh IH]; simpl; [reflexivity|].
  rewrite <- IH. reflexivity.
Qed.

(** The description and default wrappers leave the verdict on a present
    value to the compiled base schema. *)
Lemma accepts_wrappers (p : ParameterConfig) (base : zod) (x : jv) :
  x <> JUndef ->
  accepts (match pdefault p with
           | Some d => ZDefault d (match description_set p with
                                   | Some ds => ZDescribe ds base | None => base end)
           | None => match description_set p with
                     | Some ds => ZDescribe ds base | None => base end
           end) x = accepts base x.
Proof.
  intros Hx.
  destruct (pdefault p) as [d|], (description_set p) as [ds|]; simpl;
    try reflexivity; destruct x; try reflexivity; congruence.
Qed.

End CompilerFacts.

(** ** C1 *)


(** C1 (counterexample): the kind is chosen from the first value only; for
    [enum: [1, "a"]] the numeric kind is selected, yet the validator (a
    union of a literal per listed value) accepts the string ["a"], which is
    not a listed numeric literal. *)
Lemma C1_mixed_enum_counterexample :
  ~ accepts_exactly_numeric_literals
      (convertParameterToZodSchema
         (mkParam (Some "enum") None None None (Some [LNum 1; LStr "a"]) None None))
      [LNum 1; LStr "a"].
Proof.
  unfold accepts_exactly_numeric_literals. intros H.
  destruct (H (JStr "a")) as [H1 _]; [discriminate|].
  destruct (H1 eq_refl) as [n [Hn _]]. discriminate.
Qed.

(** C1 (amended): for an enum shape with a non-empty value list both
    compilers choose the kind from the first value.  The wire schema's
    [type] is ["number"] if the first value is a number and ["string"]
    otherwise, and its [enum] is the declared list.  On every present value
    the validator of the numeric kind accepts exactly the listed values
    (strict equality with any of them); the validator of the string kind
    accepts exactly the listed string values. *)
Theorem enum_kind_from_first_value (de : option string) (rq : option bool)
  (df : option jv) (v0 : lit) (vs : list lit) (it : option ParameterConfig)
  (pr : option (list (string * ParameterConfig))) :
  let p := mkParam (Some "enum") de rq df (Some (v0 :: vs)) it pr in
  lookup "type" (own_entries (convertParameterToJsonSchema p))
    = Some (JStr (if lit_is_number v0 then "number" else "string")) /\
  lookup "enum" (own_entries (convertParameterToJsonSchema p))
    = Some (JArr (map lit_jv (v0 :: vs))) /\
  (forall x, x <> JUndef ->
     accepts (convertParameterToZodSchema p) x =
       if lit_is_number v0
       then existsb (fun l => lit_match l x) (v0 :: vs)
       else match x with
            | JStr _ => existsb (fun l => lit_match l x) (v0 :: vs)
            | _ => false
            end).
Proof.
  intros p. subst p. split; [|split]; try reflexivity.
  intros x Hx. simpl convertParameterToZodSchema.
  set (p := mkParam (Some "enum") de rq df (Some (v0 :: vs)) it pr).
  change df with (pdefault p).
  rewrite (accepts_wrappers p _ x Hx).
  destruct (lit_is_number v0).
  - exact (accepts_union_literals (v0 :: vs) x).
  - reflexivity.
Qed.

Lemma enum_kind_from_first_value_witness :
  JNum 4 <> JUndef /\
  accepts (convertParameterToZodSchema
             (mkParam (Some "enum") None (Some true) None
                      (Some [LNum 1; LNum 2; LNum 3]) None None)) (JNum 4) = false.
Proof.
  split; [discriminate|].
  destruct (enum_kind_from_first_value None (Some true) None (LNum 1) [LNum 2; LNum 3] None None)
    as [_ [_ H]].
  rewrite (H (JNum 4)); [reflexivity | discriminate].
Defined.

(** ** C5 *)

(** An unknown type tag: [convertParameterToJsonSchema] has no [default]
    case in its [switch], so no [type] is set, while
    [convertParameterToZodSchema] falls back to [z.string()]. *)
Lemma unknown_tag_compilers (ty : option string) (de : option string) (rq : option bool)
  (df : option jv) (en : option (list lit)) (it : option ParameterConfig)
  (pr : option (list (string * ParameterConfig))) :
  tag_of ty = TOther ->
  let p := mkParam ty de rq df en it pr in
  convertParameterToJsonSchema p = JObj (annotations p) /\
  (forall x, x <> JUndef ->
     accepts (convertParameterToZodSchema p) x = match x with JStr _ => true | _ => false end).
Proof.
  intros Ht p. subst p. split.
  - simpl. rewrite Ht. reflexivity.
  - intros x Hx. simpl convertParameterToZodSchema. rewrite Ht.
    set (p := mkParam ty de rq df en it pr).
    change df with (pdefault p).
    rewrite (accepts_wrappers p _ x Hx). reflexivity.
Qed.

(** C5 (evaluation at the failing input [{type: "date"}]): the wire schema
    is the empty schema [{}], not [{type: "string"}]; the validator is
    [z.string()]. *)
Theorem unknown_tag_wire_schema_is_empty :
  convertParameterToJsonSchema (mkParam (Some "date") None None None None None None) = JObj [] /\
  convertParameterToZodSchema (mkParam (Some "date") None None None None None None) = ZString.
Proof. split; reflexivity. Qed.

(** ** C6 *)

(** C6: an enum shape whose value list is empty or absent compiles to the
    wire node [{type: "string", enum: []}] (followed, as every node, by the
    shape's [description] and [default] annotations), and to a validator
    that accepts exactly the empty string among present values. *)
Theorem empty_enum_fallback (de : option string) (rq : option bool) (df : option jv)
  (en : option (list lit)) (it : option ParameterConfig)
  (pr : option (list (string * ParameterConfig))) :
  en = None \/ en = Some [] ->
  let p := mkParam (Some "enum") de rq df en it pr in
  convertParameterToJsonSchema p
    = JObj ([("type", JStr "string"); ("enum", JArr [])] ++ annotations p) /\
  (forall x, x <> JUndef -> (accepts (convertParameterToZodSchema p) x = true <-> x = JStr "")).
Proof.
  intros Hen p. subst p. split.
  - destruct Hen as [-> | ->]; reflexivity.
  - intros x Hx. simpl convertParameterToZodSchema.
    set (p := mkParam (Some "enum") de rq df en it pr).
    change df with (pdefault p).
    assert (Hb : (match en with
                  | Some ((v0 :: _) as vs) =>
                      if lit_is_number v0 then ZUnion (map ZLiteral vs) else ZEnum vs
                  | _ => ZEnum [LStr ""]
                  end) = ZEnum [LStr ""]) by (destruct Hen as [-> | ->]; reflexivity).
    simpl tag_of. cbv iota beta. rewrite Hb.
    rewrite (accepts_wrappers p _ x Hx). simpl.
    destruct x; simpl; split; intros H; try discriminate; try congruence.
    + destruct s; [reflexivity | discriminate].
    + inversion H; subst; reflexivity.
Qed.

Lemma empty_enum_fallback_witness :
  (None : option (list lit)) = None /\
  accepts (convertParameterToZodSchema
             (mkParam (Some "enum") None None None None None None)) (JStr "x") = false.
Proof.
  split; [reflexivity|].
  destruct (empty_enum_fallback None None None None None None (or_introl eq_refl)) as [_ H].
  destruct (accepts _ (JStr "x")) eqn:E; [|reflexivity].
  apply (H (JStr "x")) in E; [discriminate | discriminate].
Defined.

Section ObjectFacts.

Lemma lookup_none_of_notin {A} (k : string) (l : list (string * A)) :
  ~ In k (map fst l) -> lookup k l = None.
Proof.
  induction l as [|[k' w] l IH]; simpl; intros H; [reflexivity|].
  destruct (String.eqb k k') eqn:E.
  - apply String.eqb_eq in E. subst. exfalso. apply H. left. reflexivity.
  - apply IH. intros Hin. apply H. right. exact Hin.
Qed.

Lemma lookup_some_in {A} (k : string) (v : A) (l : list (string * A)) :
  lookup k l = Some v -> In k (map fst l).
Proof.
  induction l as [|[k' w] l IH]; simpl; intros H; [discriminate|].
  destruct (String.eqb k k') eqn:E.
  - apply String.eqb_eq in E. left. symmetry. exact E.
  - right. apply IH, H.
Qed.

Lemma lookup_insert_key {A} (k k' : string) (v : A) (l : list (string * A)) :
  lookup k' l = None ->
  lookup k (insert_key k' v l) = if String.eqb k k' then Some v else lookup k l.
Proof.
  induction l as [|[k'' w] l IH]; intros H; simpl; [reflexivity|].
  simpl in H. destruct (String.eqb k' k'') eqn:E0; [discriminate|].
  destruct (key_before k' k''); simpl; [reflexivity|].
  destruct (String.eqb k k'') eqn:E2.
  - apply String.eqb_eq in E2. subst k''.
    destruct (String.eqb k k') eqn:E3; [|reflexivity].
    apply String.eqb_eq in E3. subst. rewrite String.eqb_refl in E0. discriminate.
  - apply IH, H.
Qed.

Lemma lookup_update_key {A} (k k' : string) (v : A) (l : list (string * A)) :
  lookup k (update_key k' v l) =
  if String.eqb k k' then match lookup k' l with Some _ => Some v | None => None end
  else lookup k l.
Proof.
  induction l as [|[k'' w] l IH]; simpl.
  - destruct (String.eqb k k'); reflexivity.
  - destruct (String.eqb k' k'') eqn:E1; simpl.
    + apply String.eqb_eq in E1. subst k''.
      destruct (String.eqb k k'); reflexivity.
    + rewrite IH. destruct (String.eqb k k'') eqn:E2; destruct (String.eqb k k') eqn:E3;
        try reflexivity.
      apply String.eqb_eq in E2. apply String.eqb_eq in E3. subst.
      rewrite String.eqb_refl in E1. discriminate.
Qed.

Lemma lookup_adef {A} (k k' : string) (v : A) (l : list (string * A)) :
  lookup k (adef k' v l) = if String.eqb k k' then Some v else lookup k l.
Proof.
  unfold adef. destruct (lookup k' l) eqn:L.
  - rewrite lookup_update_key, L. reflexivity.
  - apply lookup_insert_key, L.
Qed.

Lemma aset_adef {A} (k : string) (v : A) (l : list (string * A)) :
  k <> "__proto__" -> aset k v l = adef k v l.
Proof.
  intros H. unfold aset, adef. destruct (lookup k l); [reflexivity|].
  apply String.eqb_neq in H. rewrite H. reflexivity.
Qed.

Lemma aset_proto {A} (v : A) (l : list (string * A)) :
  lookup "__proto__" l = None -> aset "__proto__" v l = l.
Proof. intros H. unfold aset. rewrite H. reflexivity. Qed.

Lemma keys_update_key {A} (k : string) (v : A) (l : list (string * A)) :
  map fst (update_key k v l) = map fst l.
Proof.
  induction l as [|[k' w] l IH]; simpl; [reflexivity|].
  destruct (String.eqb k k'); simpl; [reflexivity|]. rewrite IH. reflexivity.
Qed.

Lemma insert_key_perm {A} (k : string) (v : A) (l : list (string * A)) :
  Permutation (insert_key k v l) ((k, v) :: l).
Proof.
  induction l as [|[k' w] l IH]; simpl; [reflexivity|].
  destruct (key_before k k'); [reflexivity|].
  eapply perm_trans; [apply perm_skip, IH | apply perm_swap].
Qed.

Lemma insert_key_last {A} (k : string) (v : A) (l : list (string * A)) :
  forallb (fun e => negb (key_before k (fst e))) l = true ->
  insert_key k v l = l ++ [(k, v)].
Proof.
  induction l as [|[k' w] l IH]; simpl; [reflexivity|].
  intros H. apply andb_prop in H. destruct H as [H1 H2].
  destruct (key_before k k'); [discriminate|]. rewrite IH by exact H2. reflexivity.
Qed.

Lemma adef_fresh_perm {A} (k : string) (v : A) (l : list (string * A)) :
  lookup k l = None -> Permutation (adef k v l) (l ++ [(k, v)]).
Proof.
  intros H. unfold adef. rewrite H.
  eapply perm_trans; [apply insert_key_perm|].
  apply Permutation_cons_append.
Qed.

Lemma in_keys_adef {A} (x k : string) (v : A) (l : list (string * A)) :
  In x (map fst (adef k v l)) -> x = k \/ In x (map fst l).
Proof.
  unfold adef. destruct (lookup k l).
  - rewrite keys_update_key. right. exact H.
  - intros Hin. apply (Permutation_in _ (Permutation_map fst (insert_key_perm k v l))) in Hin.
    destruct Hin as [Hin|Hin]; [left; symmetry; exact Hin | right; exact Hin].
Qed.

Lemma keys_adef {A} (k : string) (v : A) (l : list (string * A)) :
  NoDup (map fst l) -> NoDup (map fst (adef k v l)).
Proof.
  intros Hnd. unfold adef. destruct (lookup k l) eqn:L.
  - rewrite keys_update_key. exact Hnd.
  - apply (Permutation_NoDup (Permutation_sym (Permutation_map fst (insert_key_perm k v l)))).
    simpl. constructor; [|exact Hnd].
    intros Hin. apply in_map_iff in Hin. destruct Hin as [[k' w] [Hk Hin]]. simpl in Hk. subst k'.
    clear Hnd. induction l as [|[k'' w'] l IH]; [destruct Hin|].
    simpl in L. destruct Hin as [Hin|Hin].
    + injection Hin as <- <-. rewrite String.eqb_refl in L. discriminate.
    + destruct (String.eqb k k''); [discriminate|]. exact (IH L Hin).
Qed.

Lemma keys_aset {A} (k : string) (v : A) (l : list (string * A)) :
  NoDup (map fst l) -> NoDup (map fst (aset k v l)).
Proof.
  intros Hnd. destruct (String.eqb k "__proto__") eqn:E.
  - apply String.eqb_eq in E. subst k. unfold aset. destruct (lookup _ l).
    + rewrite keys_update_key. exact Hnd.
    + exact Hnd.
  - apply String.eqb_neq in E. rewrite aset_adef by exact E. apply keys_adef, Hnd.
Qed.

Lemma in_update_key {A} (k n : string) (x z : A) (l : list (string * A)) :
  In (k, x) (update_key n z l) -> In (k, x) l \/ x = z.
Proof.
  induction l as [|[k' w] l IH]; simpl; [tauto|].
  destruct (String.eqb n k'); simpl.
  - intros [H|H]; [injection H as _ <-; right; reflexivity | left; right; exact H].
  - intros [H|H]; [left; left; exact H|]. destruct (IH H); tauto.
Qed.

Lemma in_aset {A} (k n : string) (x z : A) (l : list (string * A)) :
  In (k, x) (aset n z l) -> In (k, x) l \/ x = z.
Proof.
  unfold aset. destruct (lookup n l); [apply in_update_key|].
  destruct (String.eqb n "__proto__"); [left; exact H|].
  intros H. apply (Permutation_in _ (insert_key_perm n z l)) in H.
  destruct H as [H|H]; [injection H as _ <-; right; reflexivity | left; exact H].
Qed.

Lemma enum_ordered_app_r (l1 l2 : list string) :
  enum_ordered (l1 ++ l2) = true -> enum_ordered l2 = true.
Proof.
  induction l1 as [|k l1 IH]; simpl; [auto|].
  intros H. apply andb_prop in H. apply IH, H.
Qed.

Lemma enum_ordered_app_l (l1 l2 : list string) :
  enum_ordered (l1 ++ l2) = true -> enum_ordered l1 = true.
Proof.
  induction l1 as [|k l1 IH]; simpl; [auto|].
  intros H. apply andb_prop in H. destruct H as [H1 H2].
  rewrite forallb_app in H1. apply andb_prop in H1. destruct H1 as [H1 _].
  rewrite H1, (IH H2). reflexivity.
Qed.

Lemma proto_member_ne (k : string) : is_proto_member k = false -> k <> "__proto__".
Proof. intros H ->. discriminate H. Qed.

Lemma enum_ordered_app_cross (l1 l2 : list string) :
  enum_ordered (l1 ++ l2) = true ->
  forall x y, In x l1 -> In y l2 -> key_before y x = false.
Proof.
  induction l1 as [|k l1 IH]; simpl; [intros _ x y []|].
  intros H x y Hx Hy. apply andb_prop in H. destruct H as [H1 H2].
  destruct Hx as [<-|Hx].
  - rewrite forallb_forall in H1. specialize (H1 y (in_or_app _ _ _ (or_intror Hy))).
    destruct (key_before y k); [discriminate | reflexivity].
  - exact (IH H2 x y Hx Hy).
Qed.

(** The assignment loop over distinct names (as [Object.entries] gives
    them), none of them [__proto__], keeps every entry. *)
Lemma fold_aset_perm {A} (es acc : list (string * A)) :
  NoDup (map fst (acc ++ es)) -> ~ In "__proto__" (map fst es) ->
  Permutation (fold_left (fun (acc : list (string * A)) (e : string * A) =>
                            let '(n, z) := e in aset n z acc) es acc) (acc ++ es).
Proof.
  revert acc. induction es as [|[k v] es IH]; intros acc Hnd Hp; simpl.
  - rewrite app_nil_r. reflexivity.
  - assert (Hk : k <> "__proto__") by (intros ->; apply Hp; left; reflexivity).
    assert (Hl : lookup k acc = None).
    { apply lookup_none_of_notin. rewrite map_app in Hnd. simpl in Hnd.
      apply NoDup_remove_2 in Hnd. intros Hin. apply Hnd. apply in_or_app. left. exact Hin. }
    rewrite aset_adef by exact Hk.
    pose proof (adef_fresh_perm k v acc Hl) as Hpm.
    eapply perm_trans; [apply IH|].
    + apply (Permutation_NoDup (l := map fst (acc ++ (k, v) :: es))); [|exact Hnd].
      apply Permutation_map, Permutation_sym.
      eapply perm_trans; [apply Permutation_app_tail, Hpm|]. rewrite <- app_assoc. reflexivity.
    + intros Hin. apply Hp. right. exact Hin.
    + eapply perm_trans; [apply Permutation_app_tail, Hpm|]. rewrite <- app_assoc. reflexivity.
Qed.

(** With the keys also in their enumeration order, the loop keeps the
    entries in order. *)
Lemma fold_aset_ordered {A} (es acc : list (string * A)) :
  NoDup (map fst (acc ++ es)) -> ~ In "__proto__" (map fst es) ->
  enum_ordered (map fst (acc ++ es)) = true ->
  fold_left (fun (acc : list (string * A)) (e : string * A) =>
               let '(n, z) := e in aset n z acc) es acc = acc ++ es.
Proof.
  revert acc. induction es as [|[k v] es IH]; intros acc Hnd Hp Ho; simpl.
  - rewrite app_nil_r. reflexivity.
  - assert (Hk : k <> "__proto__") by (intros ->; apply Hp; left; reflexivity).
    assert (Hl : lookup k acc = None).
    { apply lookup_none_of_notin. rewrite map_app in Hnd. simpl in Hnd.
      apply NoDup_remove_2 in Hnd. intros Hin. apply Hnd. apply in_or_app. left. exact Hin. }
    rewrite aset_adef by exact Hk. unfold adef. rewrite Hl.
    rewrite insert_key_last.
    + rewrite IH; [rewrite <- app_assoc; reflexivity| | |].
      * rewrite <- app_assoc. exact Hnd.
      * intros Hin. apply Hp. right. exact Hin.
      * rewrite <- app_assoc. exact Ho.
    + apply forallb_forall. intros [k' w] Hin. simpl.
      rewrite map_app in Ho. simpl in Ho.
      rewrite (enum_ordered_app_cross _ _ Ho k' k); [reflexivity| |left; reflexivity].
      apply in_map_iff. exists (k', w). split; [reflexivity | exact Hin].
Qed.

End ObjectFacts.

(** ** C2 *)

Section ParamsFacts.

Lemma params_loop_required (es : list (string * bool * jv)) props req :
  snd (fold_left (fun (acc : list (string * jv) * list string) (e : string * bool * jv) =>
               let '(props, req) := acc in
               let '(n, r, sch) := e in
               (aset n sch props, if r then req ++ [n] else req))
            es (props, req))
  = req ++ map (fun e => fst (fst e)) (filter (fun e => snd (fst e)) es).
Proof.
  revert props req. induction es as [|[[n r] sch] es IH]; intros props req; simpl.
  - rewrite app_nil_r. reflexivity.
  - rewrite IH. destruct r; simpl; [rewrite <- app_assoc; reflexivity | reflexivity].
Qed.

Lemma required_names_map (ps : list (string * ParameterConfig)) :
  map (fun e => fst (fst e))
      (filter (fun e => snd (fst e))
              (map (fun '(n, q) => (n, is_required q, convertParameterToJsonSchema q)) ps))
  = map fst (filter (fun e => is_required (snd e)) ps).
Proof.
  induction ps as [|[n q] ps IH]; simpl; [reflexivity|].
  destruct (is_required q); simpl; rewrite IH; reflexivity.
Qed.

Lemma lookup_app {A} (k : string) (l1 l2 : list (string * A)) :
  lookup k (l1 ++ l2) = match lookup k l1 with Some v => Some v | None => lookup k l2 end.
Proof.
  induction l1 as [|[k' v] l1 IH]; simpl; [reflexivity|].
  destruct (String.eqb k k'); [reflexivity | exact IH].
Qed.

Lemma map_fst_zod_entries (ps : list (string * ParameterConfig)) :
  map fst (map (fun '(n, q) => (n, wrap_optional q (convertParameterToZodSchema q))) ps)
  = map fst ps.
Proof. induction ps as [|[n q] ps IH]; simpl; [reflexivity|]. rewrite IH. reflexivity. Qed.

Lemma convertParametersToZodSchema_perm (ps : list (string * ParameterConfig)) :
  NoDup (map fst ps) -> ~ In "__proto__" (map fst ps) ->
  Permutation (convertParametersToZodSchema ps)
              (map (fun '(n, q) => (n, wrap_optional q (convertParameterToZodSchema q))) ps).
Proof.
  intros Hnd Hp. unfold convertParametersToZodSchema, zod_params_loop.
  apply (fold_aset_perm _ []); simpl; rewrite map_fst_zod_entries; assumption.
Qed.

Lemma forallb_perm {A} (f : A -> bool) (l l' : list A) :
  Permutation l l' -> forallb f l = forallb f l'.
Proof.
  induction 1; simpl; try reflexivity.
  - rewrite IHPermutation. reflexivity.
  - rewrite !andb_assoc, (andb_comm (f y)). reflexivity.
  - congruence.
Qed.

Lemma not_in_map_fst_filter {A} (k : string) (f : string * A -> bool) (l : list (string * A)) :
  ~ In k (map fst l) -> ~ In k (map fst (filter f l)).
Proof.
  intros H Hin. apply H. apply in_map_iff in Hin. destruct Hin as [e [He Hin]].
  apply in_map_iff. exists e. split; [exact He|]. apply filter_In in Hin. apply Hin.
Qed.

Lemma NoDup_map_fst_filter {A} (f : string * A -> bool) (l : list (string * A)) :
  NoDup (map fst l) -> NoDup (map fst (filter f l)).
Proof.
  induction l as [|[k v] l IH]; simpl; intros Hnd; [constructor|].
  inversion Hnd as [|? ? Hnin Hnd']; subst.
  destruct (f (k, v)); simpl; [|apply IH; exact Hnd'].
  constructor; [|apply IH; exact Hnd'].
  intros Hin. apply Hnin. rewrite in_map_iff in Hin |- *.
  destruct Hin as [[k' v'] [Hk Hin]]. exists (k', v'). split; [exact Hk|].
  apply filter_In in Hin. apply Hin.
Qed.

Lemma lit_match_undef (l : lit) : lit_match l JUndef = false.
Proof. destruct l; reflexivity. Qed.

(** Without a default, a compiled schema rejects an absent value. *)
Lemma convertParameterToZodSchema_rejects_absent (p : ParameterConfig) :
  pdefault p = None -> accepts (convertParameterToZodSchema p) JUndef = false.
Proof.
  destruct p as [ty de rq df en it pr]. simpl. intros ->.
  assert (Hbase : forall base : zod, accepts base JUndef = false ->
            accepts (match description_set (mkParam ty de rq None en it pr) with
                     | Some d => ZDescribe d base | None => base end) JUndef = false).
  { intros base Hb. destruct (description_set _); exact Hb. }
  apply Hbase.
  destruct (tag_of ty); try reflexivity.
  - destruct it; reflexivity.
  - destruct pr; reflexivity.
  - destruct en as [[|v0 vs]|]; try reflexivity.
    destruct (lit_is_number v0); [|reflexivity].
    rewrite (accepts_union_literals (v0 :: vs) JUndef). simpl.
    rewrite lit_match_undef. simpl. clear Hbase.
    induction vs as [|v vs IH]; [reflexivity|]. simpl. rewrite lit_match_undef. exact IH.
Qed.

Lemma get_absent (fs : list (string * jv)) (k : string) :
  lookup k fs = None -> is_proto_member k = false -> get fs k = JUndef.
Proof.
  unfold get, proto_get. intros -> H.
  destruct (String.eqb k "__proto__") eqn:E.
  - apply String.eqb_eq in E. subst k. discriminate H.
  - rewrite H. reflexivity.
Qed.

End ParamsFacts.

(** C2 (counterexample): a required parameter that declares a default
    does not make the validator reject an input missing it: [z.default]
    substitutes the default, which is then checked. *)
Lemma C2_required_with_default_counterexample :
  accepts (parameters_validator
             [("a", mkParam (Some "string") None (Some true) (Some (JStr "x")) None None None)])
          (JObj []) <> false.
Proof. discriminate. Qed.

(** C2 (amended): for a mapping of named shapes (distinct names, as
    [Object.entries] gives them, none of them [__proto__], whose
    assignment replaces the prototype of the shape object instead of
    adding a key), the wire schema's [required] key is
    absent when no shape is required and is otherwise the list of the
    names of the required shapes, in order.  The validator rejects an input
    object missing a required property that declares no default, and an
    input object missing a non-required property gets the verdict it would
    get if that property were not declared at all (the missing property
    never causes a rejection).  Property names read through
    [Object.prototype] (such as [toString] or [__proto__]) are not absent
    in JavaScript and are excluded. *)
Theorem required_list_and_validator (ps : list (string * ParameterConfig)) :
  NoDup (map fst ps) -> ~ In "__proto__" (map fst ps) ->
  let names := map fst (filter (fun e => is_required (snd e)) ps) in
  lookup "required" (own_entries (convertParametersToJsonSchema ps))
    = match names with [] => None | _ => Some (JArr (map JStr names)) end /\
  (forall fs a pa, In (a, pa) ps -> is_required pa = true -> pdefault pa = None ->
     lookup a fs = None -> is_proto_member a = false ->
     accepts (parameters_validator ps) (JObj fs) = false) /\
  (forall fs b, (forall pb, In (b, pb) ps -> is_required pb = false) ->
     lookup b fs = None -> is_proto_member b = false ->
     accepts (parameters_validator ps) (JObj fs)
     = accepts (parameters_validator (filter (fun e => negb (String.eqb (fst e) b)) ps)) (JObj fs)).
Proof.
  intros Hnd Hp names. split; [|split].
  - unfold convertParametersToJsonSchema, params_schema, params_loop.
    pose proof (params_loop_required
                  (map (fun '(n, q) => (n, is_required q, convertParameterToJsonSchema q)) ps)
                  [] []) as Hr.
    destruct (fold_left _ _ _) as [props req]. simpl in Hr. rewrite required_names_map in Hr.
    subst req. fold names. simpl.
    destruct names; reflexivity.
  - intros fs a pa Hin Hreq Hdf Hfs Hpm.
    unfold parameters_validator. rewrite accepts_object.
    rewrite (forallb_perm _ _ _ (convertParametersToZodSchema_perm ps Hnd Hp)).
    apply not_true_iff_false. intros Hall. rewrite forallb_forall in Hall.
    specialize (Hall (a, wrap_optional pa (convertParameterToZodSchema pa))).
    simpl in Hall. unfold wrap_optional in Hall. rewrite Hreq in Hall.
    rewrite get_absent, convertParameterToZodSchema_rejects_absent in Hall by assumption.
    discriminate Hall. apply in_map_iff. exists (a, pa).
    split; [simpl; rewrite Hreq; reflexivity | exact Hin].
  - intros fs b Hopt Hfs Hpm. unfold parameters_validator.
    rewrite !accepts_object.
    rewrite (forallb_perm _ _ _ (convertParametersToZodSchema_perm ps Hnd Hp)).
    rewrite (forallb_perm _ _ _ (convertParametersToZodSchema_perm _
               (NoDup_map_fst_filter _ _ Hnd) (not_in_map_fst_filter _ _ _ Hp))).
    clear Hnd Hp names. induction ps as [|[n q] ps IH]; simpl; [reflexivity|].
    destruct (String.eqb n b) eqn:E; simpl.
    + apply String.eqb_eq in E. subst n.
      unfold wrap_optional. rewrite (Hopt q (or_introl eq_refl)).
      rewrite get_absent by assumption. simpl.
      apply IH. intros pb Hpb. apply Hopt. right. exact Hpb.
    + f_equal. apply IH. intros pb Hpb. apply Hopt. right. exact Hpb.
Qed.

Lemma required_list_and_validator_witness :
  NoDup (map fst [("a", mkParam (Some "string") None (Some true) None None None None);
                  ("b", mkParam (Some "number") None None None None None None)]) /\
  accepts (parameters_validator
             [("a", mkParam (Some "string") None (Some true) None None None None);
              ("b", mkParam (Some "number") None None None None None None)])
          (JObj [("b", JNum 1)]) = false.
Proof.
  assert (Hnd : NoDup (map fst [("a", mkParam (Some "string") None (Some true) None None None None);
                  ("b", mkParam (Some "number") None None None None None None)])).
  { simpl. constructor; [simpl; intros [H|[]]; discriminate H|].
    constructor; [intros []|constructor]. }
  assert (Hp : ~ In "__proto__" (map fst [("a", mkParam (Some "string") None (Some true) None None None None);
                  ("b", mkParam (Some "number") None None None None None None)])).
  { simpl. intros [H|[H|[]]]; discriminate H. }
  split; [exact Hnd|].
  destruct (required_list_and_validator _ Hnd Hp) as [_ [H _]].
  apply (H [("b", JNum 1)] "a" (mkParam (Some "string") None (Some true) None None None None));
    try reflexivity.
  left. reflexivity.
Defined.

(** ** C10 *)

Section ValidateFacts.


Lemma or_else_none (a b : option string) : or_else a b = None <-> a = None /\ b = None.
Proof. destruct a; simpl; split; intros H; try discriminate; try tauto; destruct H; discriminate. Qed.

Lemma type_missing_invalid (t : option string) : type_missing t = true -> type_valid t = false.
Proof.
  destruct t as [s|]; simpl; [|reflexivity].
  intros H. apply String.eqb_eq in H. subst. reflexivity.
Qed.

Lemma shape_ok_type_valid (p : ParameterConfig) : shape_ok p = true -> type_valid (ptype p) = true.
Proof.
  destruct p as [ty de rq df en it pr]. simpl. intros H.
  apply andb_prop in H as [H _]. apply andb_prop in H as [H _].
  apply andb_prop in H as [H _]. exact H.
Qed.

(** Checking a property (or item) shape the way both validators do: the
    type tag first, then [validateNestedParameter]. *)
Lemma child_check_none (q : ParameterConfig) (e1 e2 path : string) :
  (forall path', type_valid (ptype q) = true ->
     validateNestedParameter q path' = None <-> shape_ok q = true) ->
  (if type_missing (ptype q) then Some e1
   else if negb (type_valid (ptype q)) then Some e2
   else validateNestedParameter q path) = None <-> shape_ok q = true.
Proof.
  intros IH. destruct (type_missing (ptype q)) eqn:Em.
  - split; intros H; [discriminate|].
    apply shape_ok_type_valid in H. rewrite type_missing_invalid in H by exact Em. discriminate.
  - destruct (type_valid (ptype q)) eqn:Ev; simpl.
    + apply IH. reflexivity.
    + split; intros H; [discriminate|]. apply shape_ok_type_valid in H. congruence.
Qed.

Lemma validateNestedParameter_none (p : ParameterConfig) :
  forall path, type_valid (ptype p) = true ->
    validateNestedParameter p path = None <-> shape_ok p = true.
Proof.
  induction p as [ty de rq df en it pr IHit IHpr] using ParameterConfig_rect'.
  intros path Hv. simpl in Hv |- *. rewrite Hv. simpl.
  rewrite !or_else_none.
  destruct (type_is ty "enum" && negb (enum_nonempty en)) eqn:Ee.
  - split; [intros [H _]; discriminate|]. intros H.
    destruct (type_is ty "enum"), (enum_nonempty en); simpl in Ee, H; discriminate.
  - assert (He : (if type_is ty "enum" then enum_nonempty en else true) = true).
    { destruct (type_is ty "enum"), (enum_nonempty en); simpl in Ee |- *; congruence. }
    rewrite He. simpl.
    assert (Ho : (if negb (type_is ty "object") then None else
                  match pr with
                  | Some ps =>
                      (fix go (ps : list (string * ParameterConfig)) : option string :=
                         match ps with
                         | [] => None
                         | (n, q) :: r =>
                             if type_missing (ptype q)
                             then Some ("Nested parameter " ++ quoted n ++ " in " ++ quoted path ++
                                        " is missing type property")%string
                             else if negb (type_valid (ptype q))
                             then Some ("Nested parameter " ++ quoted n ++ " in " ++ quoted path ++
                                        " has invalid type " ++ quoted (type_text (ptype q)))%string
                             else or_else (validateNestedParameter q (path ++ "." ++ n)%string) (go r)
                         end) ps
                  | None => None
                  end) = None <->
                 (if type_is ty "object" then
                    match pr with
                    | Some ps =>
                        (fix all (ps : list (string * ParameterConfig)) : bool :=
                           match ps with
                           | [] => true
                           | (_, q) :: r => shape_ok q && all r
                           end) ps
                    | None => true
                    end
                  else true) = true).
    { destruct (type_is ty "object"); simpl; [|tauto].
      destruct pr as [ps|]; [|tauto].
      induction ps as [|[n q] ps IHps]; simpl; [tauto|].
      inversion IHpr as [|? ? IHq IHr]; subst. simpl in IHq.
      destruct (type_missing (ptype q)) eqn:Em.
      - split; intros H; [discriminate|].
        apply andb_prop in H as [H _]. apply shape_ok_type_valid in H.
        rewrite type_missing_invalid in H by exact Em. discriminate.
      - destruct (type_valid (ptype q)) eqn:Ev; simpl.
        + rewrite or_else_none, (IHq _ eq_refl), andb_true_iff, (IHps IHr). tauto.
        + split; intros H; [discriminate|].
          apply andb_prop in H as [H _]. apply shape_ok_type_valid in H. congruence. }
    rewrite Ho. clear Ho.
    assert (Ha : (if negb (type_is ty "array") then None else
                  match it with
                  | Some i =>
                      if type_missing (ptype i)
                      then Some ("Items in array parameter " ++ quoted path ++ " must specify a type")%string
                      else if negb (type_valid (ptype i))
                      then Some ("Items in array parameter " ++ quoted path ++ " have invalid type " ++
                                 quoted (type_text (ptype i)))%string
                      else validateNestedParameter i (path ++ " items")%string
                  | None => None
                  end) = None <->
                 (if type_is ty "array" then
                    match it with Some i => shape_ok i | None => true end
                  else true) = true).
    { destruct (type_is ty "array"); simpl; [|tauto].
      destruct it as [i|]; [|tauto].
      apply (child_check_none i _ _ _ (fun path' Hv' => IHit path' Hv')). }
    rewrite Ha. rewrite !andb_true_iff. tauto.
Qed.

End ValidateFacts.

Lemma type_valid_not_missing (t : option string) : type_valid t = true -> type_missing t = false.
Proof.
  intros Hv. destruct (type_missing t) eqn:Em; [|reflexivity].
  rewrite type_missing_invalid in Hv by exact Em. discriminate.
Qed.

(** Once the tag is checked, the top-level loop body performs the checks
    of [validateNestedParameter]. *)
Lemma validateTopParameter_nested (n : string) (p : ParameterConfig) :
  type_valid (ptype p) = true -> validateTopParameter n p = validateNestedParameter p n.
Proof.
  destruct p as [ty de rq df en it pr]. simpl. intros Hv.
  unfold validateTopParameter. simpl. rewrite (type_valid_not_missing _ Hv), Hv. simpl.
  destruct (type_is ty "enum" && negb (enum_nonempty en)); [reflexivity|]. simpl.
  destruct (type_is ty "object"); reflexivity.
Qed.

Lemma validateTopParameter_none (n : string) (p : ParameterConfig) :
  validateTopParameter n p = None <-> shape_ok p = true.
Proof.
  destruct (type_valid (ptype p)) eqn:Ev.
  - rewrite validateTopParameter_nested by exact Ev. apply validateNestedParameter_none. exact Ev.
  - unfold validateTopParameter. split; intros H.
    + destruct (type_missing (ptype p)); [discriminate|]. rewrite Ev in H. discriminate.
    + apply shape_ok_type_valid in H. congruence.
Qed.

(** C10: for a tool present in the configuration, [validateToolConfig]
    returns [null] exactly when every declared parameter, at the top level,
    among an object's properties at any depth and as an array's item
    shape, has a recognized type tag and, for an enum, a non-empty value
    list; otherwise it returns an error string. *)
Theorem validate_tool_config_complete (config : ToolsConfig) (toolName : string) (te : ToolEntry) :
  lookup toolName config = Some (Some te) ->
  (validateToolConfig config toolName = None <-> params_ok (te_parameters te) = true).
Proof.
  intros Hl. unfold validateToolConfig. rewrite Hl.
  destruct (te_parameters te) as [ps|]; simpl; [|tauto].
  induction ps as [|[n p] ps IH]; simpl; [tauto|].
  rewrite or_else_none, validateTopParameter_none, andb_true_iff, IH. tauto.
Qed.


Lemma validate_tool_config_complete_witness :
  lookup "t" [("t", Some deep_entry)] = Some (Some deep_entry) /\
  validateToolConfig [("t", Some deep_entry)] "t" <> None.
Proof.
  split; [reflexivity|]. intros H.
  apply (validate_tool_config_complete [("t", Some deep_entry)] "t" deep_entry eq_refl) in H.
  discriminate H.
Defined.

(** ** C9 *)

Section ToolsStrings.

Lemma dropws_prefix (l : list ascii) : exists p, l = p ++ dropws l.
Proof.
  induction l as [|c l IH]; simpl; [exists []; reflexivity|].
  destruct (is_ws c).
  - destruct IH as [p Hp]. exists (c :: p). simpl. f_equal. exact Hp.
  - exists []. reflexivity.
Qed.

Lemma dropws_head (l : list ascii) :
  match dropws l with [] => True | c :: _ => is_ws c = false end.
Proof.
  induction l as [|c l IH]; simpl; [exact I|].
  destruct (is_ws c) eqn:E; [exact IH | exact E].
Qed.

Lemma dropws_idem (l : list ascii) : dropws (dropws l) = dropws l.
Proof.
  induction l as [|c l IH]; simpl; [reflexivity|].
  destruct (is_ws c) eqn:E; [exact IH|]. simpl. rewrite E. reflexivity.
Qed.

Lemma trim_l_idem (l : list ascii) : trim_l (trim_l l) = trim_l l.
Proof.
  unfold trim_l. set (a := dropws l). set (b := dropws (rev a)).
  assert (Hb : dropws (rev b) = rev b).
  { destruct (dropws_prefix (rev a)) as [p Hp]. fold b in Hp.
    assert (Ha : a = rev b ++ rev p).
    { rewrite <- (rev_involutive a), Hp, rev_app_distr. reflexivity. }
    pose proof (dropws_head l) as Hh. fold a in Hh.
    destruct (rev b) as [|c t] eqn:Erb; [reflexivity|].
    rewrite Ha in Hh. simpl in Hh. simpl. rewrite Hh. reflexivity. }
  rewrite Hb, rev_involutive. unfold b. rewrite dropws_idem. reflexivity.
Qed.

Lemma trim_l_space (l : list ascii) : trim_l (" "%char :: l) = trim_l l.
Proof. reflexivity. Qed.

Lemma in_dropws (c : ascii) (l : list ascii) : In c (dropws l) -> In c l.
Proof.
  induction l as [|d l IH]; simpl; [tauto|].
  destruct (is_ws d); [intros H; right; exact (IH H) | tauto].
Qed.

Lemma in_trim_l (c : ascii) (l : list ascii) : In c (trim_l l) -> In c l.
Proof.
  unfold trim_l. intros H. apply in_rev in H. apply in_dropws in H.
  apply in_rev in H. apply in_dropws in H. exact H.
Qed.

Lemma split_comma_nonempty (l : list ascii) : split_comma l <> [].
Proof.
  induction l as [|c l IH]; simpl; [discriminate|].
  destruct (Ascii.eqb c comma); [discriminate|]. destruct (split_comma l); discriminate.
Qed.

Lemma split_comma_segments (l seg : list ascii) : In seg (split_comma l) -> ~ In comma seg.
Proof.
  revert seg. induction l as [|c l IH]; simpl; intros seg Hin.
  - destruct Hin as [<-|[]]. simpl. tauto.
  - destruct (Ascii.eqb c comma) eqn:E.
    + destruct Hin as [<-|Hin]; [simpl; tauto | exact (IH _ Hin)].
    + destruct (split_comma l) as [|h t] eqn:Es.
      * destruct Hin as [<-|[]]. simpl. intros [H|[]]. subst. rewrite Ascii.eqb_refl in E. discriminate.
      * destruct Hin as [<-|Hin].
        -- simpl. intros [H|H]; [subst; rewrite Ascii.eqb_refl in E; discriminate|].
           exact (IH h (or_introl eq_refl) H).
        -- exact (IH seg (or_intror Hin)).
Qed.

Lemma split_comma_free (x : list ascii) : ~ In comma x -> split_comma x = [x].
Proof.
  induction x as [|c x IH]; simpl; intros H; [reflexivity|].
  destruct (Ascii.eqb c comma) eqn:E.
  - apply Ascii.eqb_eq in E. subst. tauto.
  - rewrite IH by tauto. reflexivity.
Qed.

Lemma split_comma_app (x r : list ascii) :
  ~ In comma x -> split_comma (x ++ comma :: r) = x :: split_comma r.
Proof.
  induction x as [|c x IH]; simpl; intros H.
  - reflexivity.
  - destruct (Ascii.eqb c comma) eqn:E.
    + apply Ascii.eqb_eq in E. subst. tauto.
    + rewrite IH by tauto. reflexivity.
Qed.

(** Splitting a [", "]-joined list of comma-free names gives the names
    back, each after the first preceded by the space of the separator. *)
Lemma split_join_cs (x : list ascii) (r : list (list ascii)) :
  Forall (fun y => ~ In comma y) (x :: r) ->
  split_comma (join_cs (x :: r)) = x :: map (fun y => " "%char :: y) r.
Proof.
  revert x. induction r as [|y r IH]; intros x Hf.
  - simpl. apply split_comma_free. inversion Hf; assumption.
  - inversion Hf as [|? ? Hx Hr]; subst.
    change (join_cs (x :: y :: r)) with (x ++ comma :: " "%char :: join_cs (y :: r)).
    rewrite split_comma_app by exact Hx.
    remember (join_cs (y :: r)) as J eqn:HJ. simpl.
    rewrite HJ, (IH y Hr). reflexivity.
Qed.

Lemma in_set_add (acc : list (list ascii)) (x y : list ascii) :
  In y (set_add acc x) <-> In y acc \/ y = x.
Proof.
  unfold set_add. destruct (existsb _ acc) eqn:E.
  - split; [tauto|]. intros [H|H]; [exact H|]. subst.
    apply existsb_exists in E as [z [Hz Hxz]].
    destruct (list_eq_dec ascii_dec x z); [subst; exact Hz | discriminate].
  - rewrite in_app_iff. simpl. intuition.
Qed.

Lemma in_dedup_acc (l acc : list (list ascii)) (y : list ascii) :
  In y (fold_left set_add l acc) <-> In y acc \/ In y l.
Proof.
  revert acc. induction l as [|x l IH]; intros acc; simpl; [tauto|].
  rewrite IH, in_set_add. split; intros H; intuition (subst; auto).
Qed.

Lemma in_dedup (l : list (list ascii)) (y : list ascii) : In y (dedup l) <-> In y l.
Proof. unfold dedup. rewrite in_dedup_acc. simpl. tauto. Qed.

Lemma dedup_nonempty (l : list (list ascii)) : l <> [] -> dedup l <> [].
Proof.
  intros Hl Hd. destruct l as [|x l]; [contradiction|].
  assert (Hin : In x (dedup (x :: l))) by (apply in_dedup; left; reflexivity).
  rewrite Hd in Hin. exact Hin.
Qed.

Lemma toks_trimmed (s : string) (y : list ascii) :
  In y (toks s) -> trim_l y = y /\ ~ In comma y.
Proof.
  unfold toks. intros H. apply in_map_iff in H as [seg [<- Hseg]].
  split; [apply trim_l_idem|].
  intros Hc. apply in_trim_l in Hc. exact (split_comma_segments _ _ Hseg Hc).
Qed.

(** Reading back a [", "]-joined list of trimmed, comma-free names. *)
Lemma toks_join_cs (names : list (list ascii)) :
  names <> [] -> Forall (fun y => trim_l y = y /\ ~ In comma y) names ->
  toks (string_of_list_ascii (join_cs names)) = names.
Proof.
  intros Hne Hf. destruct names as [|x r]; [contradiction|].
  unfold toks. rewrite list_ascii_of_string_of_list_ascii.
  rewrite split_join_cs by (eapply Forall_impl; [|exact Hf]; intros y [_ H]; exact H).
  simpl. inversion Hf as [|? ? [Hx _] Hr]; subst. rewrite Hx. f_equal.
  clear Hne Hf Hx. induction r as [|y r IH]; simpl; [reflexivity|].
  inversion Hr as [|? ? [Hy _] Hr']; subst. rewrite trim_l_space, Hy, (IH Hr').
  reflexivity.
Qed.

Lemma NoDup_dedup_acc (l acc : list (list ascii)) :
  NoDup acc -> NoDup (fold_left set_add l acc).
Proof.
  revert acc. induction l as [|x l IH]; intros acc Hacc; simpl; [exact Hacc|].
  apply IH. unfold set_add. destruct (existsb _ acc) eqn:E; [exact Hacc|].
  apply NoDup_app; [exact Hacc | constructor; [simpl; tauto | constructor] |].
  intros y Hy [<-|[]]. assert (Hex : existsb (fun y => if list_eq_dec ascii_dec x y then true else false) acc = true).
  { apply existsb_exists. exists x. split; [exact Hy|]. destruct (list_eq_dec ascii_dec x x); [reflexivity|contradiction]. }
  rewrite Hex in E. discriminate.
Qed.

Lemma NoDup_dedup (l : list (list ascii)) : NoDup (dedup l).
Proof. apply NoDup_dedup_acc. constructor. Qed.

Lemma toks_nonempty (s : string) : toks s <> [].
Proof.
  unfold toks. intros H. apply map_eq_nil in H. exact (split_comma_nonempty _ H).
Qed.

Lemma merge_tools_strings_eq (a b : string) :
  a <> "" -> b <> "" ->
  mergeTools (JStr a) (JStr b) = JStr (string_of_list_ascii (join_cs (dedup (toks a ++ toks b)))).
Proof.
  intros Ha Hb. unfold mergeTools. simpl.
  destruct (String.eqb a "") eqn:Ea; [apply String.eqb_eq in Ea; contradiction|].
  destruct (String.eqb b "") eqn:Eb; [apply String.eqb_eq in Eb; contradiction|].
  reflexivity.
Qed.

Lemma tokens_of_merge (a b : string) :
  a <> "" -> b <> "" ->
  tokens_of (mergeTools (JStr a) (JStr b)) = dedup (toks a ++ toks b).
Proof.
  intros Ha Hb. rewrite merge_tools_strings_eq by assumption. simpl.
  apply toks_join_cs.
  - apply dedup_nonempty. destruct (toks a) eqn:E; [destruct (toks_nonempty a E)|discriminate].
  - apply Forall_forall. intros y Hy. apply in_dedup, in_app_iff in Hy.
    destruct Hy as [Hy|Hy]; exact (toks_trimmed _ _ Hy).
Qed.

End ToolsStrings.

(** C9, counterexample: the empty string is a tools string, but it is
    falsy, so [mergeTools] returns the other side unchanged rather than the
    re-serialized union of the two token lists (which would be [", a"]). *)
Lemma C9_empty_string_counterexample :
  mergeTools (JStr "") (JStr " a ") = JStr " a " /\
  mergeTools (JStr "") (JStr " a ") <>
    JStr (string_of_list_ascii (join_cs (dedup (toks "" ++ toks " a ")))).
Proof. split; [reflexivity | vm_compute; discriminate]. Qed.

(** C9 (amended): for two non-empty tools strings, [mergeTools] returns
    the [", "]-join of the de-duplicated concatenation of the trimmed tokens
    of both; reading the result back gives exactly that duplicate-free list,
    its token set is the union of the two token sets, and so it does not
    depend on the argument order. An empty string on one side returns the
    other side unchanged. *)
Theorem merge_tools_strings (a b : string) :
  a <> "" -> b <> "" ->
  mergeTools (JStr a) (JStr b) = JStr (string_of_list_ascii (join_cs (dedup (toks a ++ toks b)))) /\
  tokens_of (mergeTools (JStr a) (JStr b)) = dedup (toks a ++ toks b) /\
  NoDup (tokens_of (mergeTools (JStr a) (JStr b))) /\
  (forall x, In x (tokens_of (mergeTools (JStr a) (JStr b))) <-> In x (toks a) \/ In x (toks b)) /\
  (forall x, In x (tokens_of (mergeTools (JStr a) (JStr b))) <->
             In x (tokens_of (mergeTools (JStr b) (JStr a)))) /\
  mergeTools (JStr "") (JStr a) = JStr a /\ mergeTools (JStr a) (JStr "") = JStr a.
Proof.
  intros Ha Hb.
  assert (Ea : String.eqb a "" = false) by (apply String.eqb_neq; exact Ha).
  split; [apply merge_tools_strings_eq; assumption|].
  rewrite !tokens_of_merge by assumption.
  split; [reflexivity|]. split; [apply NoDup_dedup|].
  split; [intros x; rewrite in_dedup, in_app_iff; tauto|].
  split; [intros x; rewrite !in_dedup, !in_app_iff; tauto|].
  unfold mergeTools; simpl; rewrite Ea; split; reflexivity.
Qed.

Lemma merge_tools_strings_witness :
  ("a,b" <> "" /\ "b,c" <> "") /\
  (mergeTools (JStr "a,b") (JStr "b,c") =
     JStr (string_of_list_ascii (join_cs (dedup (toks "a,b" ++ toks "b,c")))) /\
   tokens_of (mergeTools (JStr "a,b") (JStr "b,c")) = dedup (toks "a,b" ++ toks "b,c") /\
   NoDup (tokens_of (mergeTools (JStr "a,b") (JStr "b,c"))) /\
   (forall x, In x (tokens_of (mergeTools (JStr "a,b") (JStr "b,c"))) <->
              In x (toks "a,b") \/ In x (toks "b,c")) /\
   (forall x, In x (tokens_of (mergeTools (JStr "a,b") (JStr "b,c"))) <->
              In x (tokens_of (mergeTools (JStr "b,c") (JStr "a,b")))) /\
   mergeTools (JStr "") (JStr "a,b") = JStr "a,b" /\
   mergeTools (JStr "a,b") (JStr "") = JStr "a,b").
Proof.
  split; [split; discriminate|].
  apply (merge_tools_strings "a,b" "b,c"); discriminate.
Defined.

(** ** C4 *)

Section ToolsObjects.

Lemma nodup_keys_NoDup {A} (fs : list (string * A)) :
  nodup_keys fs = true -> NoDup (map fst fs).
Proof.
  induction fs as [|[k v] fs IH]; simpl; intros H; [constructor|].
  apply andb_prop in H as [H1 H2]. constructor; [|exact (IH H2)].
  intros Hin. apply negb_true_iff in H1.
  assert (Hex : existsb (String.eqb k) (map fst fs) = true).
  { apply existsb_exists. exists k. split; [exact Hin | apply String.eqb_refl]. }
  rewrite Hex in H1. discriminate.
Qed.

Lemma lookup_spread (acc fs : list (string * jv)) (f : string) :
  NoDup (map fst fs) ->
  lookup f (spread acc (JObj fs)) = match lookup f fs with Some v => Some v | None => lookup f acc end.
Proof.
  unfold spread. simpl. revert acc. induction fs as [|[k x] fs IH]; intros acc Hnd; simpl; [reflexivity|].
  inversion Hnd as [|? ? Hn Hnd']; subst.
  rewrite (IH _ Hnd'), lookup_adef.
  destruct (String.eqb f k) eqn:E; [|reflexivity].
  apply String.eqb_eq in E. subst. rewrite (lookup_none_of_notin _ _ Hn). reflexivity.
Qed.

Lemma keys_spread (acc fs : list (string * jv)) :
  NoDup (map fst acc) -> NoDup (map fst (spread acc (JObj fs))).
Proof.
  unfold spread. simpl. revert acc. induction fs as [|[k x] fs IH]; intros acc Hnd; simpl; [exact Hnd|].
  apply IH, keys_adef, Hnd.
Qed.

Lemma lookup_merge_tool_entry (acc : list (string * jv)) (k' : string) (v : jv) (k : string) :
  k' <> "__proto__" ->
  lookup k (merge_tool_entry acc (k', v)) =
  if String.eqb k k' then merged_entry (lookup k' acc) (Some v) else lookup k acc.
Proof.
  intros Hk. unfold merge_tool_entry. rewrite !(aset_adef k') by exact Hk.
  unfold key_in, get, merged_entry.
  destruct (lookup k' acc) as [x|] eqn:L.
  - simpl. destruct (is_object_type x && is_object_type v); rewrite lookup_adef; reflexivity.
  - unfold proto_get. apply String.eqb_neq in Hk. rewrite Hk.
    destruct (is_proto_member k'); simpl; rewrite lookup_adef; reflexivity.
Qed.

Lemma keys_merge_tool_entry (acc : list (string * jv)) (e : string * jv) :
  NoDup (map fst acc) -> NoDup (map fst (merge_tool_entry acc e)).
Proof.
  destruct e as [k v]. unfold merge_tool_entry.
  destruct (_ && _); apply keys_aset.
Qed.

Lemma lookup_fold_merge (src acc : list (string * jv)) (k : string) :
  NoDup (map fst src) -> ~ In "__proto__" (map fst src) ->
  lookup k (fold_left merge_tool_entry src acc) = merged_entry (lookup k acc) (lookup k src).
Proof.
  revert acc. induction src as [|[k' v] src IH]; intros acc Hnd Hp; cbn [fold_left lookup].
  - destruct (lookup k acc); reflexivity.
  - inversion Hnd as [|? ? Hn Hnd']; subst.
    assert (Hk : k' <> "__proto__") by (intros ->; apply Hp; left; reflexivity).
    rewrite (IH _ Hnd'), (lookup_merge_tool_entry _ _ _ _ Hk)
      by (intros Hin; apply Hp; right; exact Hin).
    destruct (String.eqb k k') eqn:E.
    + apply String.eqb_eq in E. subst. rewrite (lookup_none_of_notin _ _ Hn).
      destruct (merged_entry (lookup k' acc) (Some v)); reflexivity.
    + reflexivity.
Qed.

Lemma keys_fold_merge (src acc : list (string * jv)) :
  NoDup (map fst acc) -> NoDup (map fst (fold_left merge_tool_entry src acc)).
Proof.
  revert acc. induction src as [|e src IH]; intros acc Hnd; simpl; [exact Hnd|].
  apply IH, keys_merge_tool_entry, Hnd.
Qed.

Lemma lookup_names_fold (l : list (list ascii)) (acc : list (string * jv)) (k : string) :
  lookup k (fold_left (fun (acc : list (string * jv)) (t : list ascii) =>
                         adef (string_of_list_ascii (trim_l t)) (JStr "") acc) l acc)
  = if existsb (String.eqb k) (map (fun t => string_of_list_ascii (trim_l t)) l)
    then Some (JStr "") else lookup k acc.
Proof.
  revert acc. induction l as [|t l IH]; intros acc; simpl; [reflexivity|].
  rewrite IH, lookup_adef.
  destruct (String.eqb k (string_of_list_ascii (trim_l t))); simpl;
    [destruct (existsb (String.eqb k) _)|]; reflexivity.
Qed.

Lemma keys_names_fold (l : list (list ascii)) (acc : list (string * jv)) :
  NoDup (map fst acc) ->
  NoDup (map fst (fold_left (fun (acc : list (string * jv)) (t : list ascii) =>
                              adef (string_of_list_ascii (trim_l t)) (JStr "") acc) l acc)).
Proof.
  revert acc. induction l as [|t l IH]; intros acc Hnd; simpl; [exact Hnd|].
  apply IH, keys_adef, Hnd.
Qed.

Lemma tools_to_obj_string (a k : string) :
  lookup k (own_entries (tools_to_obj (JStr a))) =
  if existsb (String.eqb k) (tool_names a) then Some (JStr "") else None.
Proof. simpl. rewrite lookup_names_fold. reflexivity. Qed.

Lemma tools_to_obj_keys (v : jv) :
  tools_form v = true -> NoDup (map fst (own_entries (tools_to_obj v))).
Proof.
  destruct v; simpl; try discriminate; intros H.
  - apply keys_names_fold. constructor.
  - apply nodup_keys_NoDup, H.
Qed.

Lemma tools_to_obj_is_obj (v : jv) :
  tools_form v = true -> tools_to_obj v = JObj (own_entries (tools_to_obj v)).
Proof. destruct v; simpl; try discriminate; reflexivity. Qed.

Lemma tools_form_truthy (v : jv) : tools_form v = true -> truthy v = true.
Proof. destruct v; simpl; try discriminate; auto. Qed.

Lemma merge_tools_objects_eq (t s : jv) :
  tools_form t = true -> tools_form s = true -> is_obj t || is_obj s = true ->
  mergeTools t s =
  JObj (fold_left merge_tool_entry (own_entries (tools_to_obj s)) (spread [] (tools_to_obj t))).
Proof.
  intros Ht Hs Ho. unfold mergeTools.
  rewrite (tools_form_truthy _ Ht), (tools_form_truthy _ Hs). simpl.
  destruct t; try discriminate; destruct s; try discriminate; reflexivity.
Qed.

End ToolsObjects.

(** C4, counterexample: a string side is normalized to name -> [""] (an
    empty string, not a record), and a key present on both sides whose
    overlay value is not an object replaces the base record wholesale.
    An overlay key [__proto__] that the base lacks is dropped:
    [result.__proto__ = ""] reaches the inherited accessor. *)
Lemma C4_normalization_counterexample :
  mergeTools (JObj [("a", JStr "x")]) (JStr "__proto__") = JObj [("a", JStr "x")] /\
  lookup "a" (own_entries (mergeTools (JStr "a") (JObj [("b", JStr "d")]))) = Some (JStr "") /\
  lookup "a" (own_entries (mergeTools (JStr "a") (JObj [("b", JStr "d")]))) <>
    Some (JObj [("description", JStr ""); ("prompt", JStr ""); ("optional", JBool false)]) /\
  lookup "a" (own_entries (mergeTools (JObj [("a", JObj [("description", JStr "x"); ("prompt", JStr "p")])])
                                      (JObj [("a", JStr "y")]))) = Some (JStr "y").
Proof. split; [reflexivity|]. split; [reflexivity|]. split; [discriminate | reflexivity]. Qed.

(** C4 (amended): when both tools values are in a declared form (a
    non-empty string or an object with distinct keys) and at least one is
    an object, [mergeTools] returns an object with distinct keys whose entry
    for every key is [merged_entry] of the two normalized sides, where a
    string side is normalized to the mapping from each trimmed name to the
    empty string; when both entries of a key are objects (with distinct
    fields), every field of the merged record is the overlay's field when
    the overlay has it and the base's otherwise.  The normalized overlay
    has no key [__proto__]: [result.__proto__ = value] reaches the
    inherited accessor instead of adding a key. *)
Theorem merge_tools_objects (t s : jv) :
  tools_form t = true -> tools_form s = true -> is_obj t || is_obj s = true ->
  ~ In "__proto__" (map fst (own_entries (tools_to_obj s))) ->
  exists fs, mergeTools t s = JObj fs /\ NoDup (map fst fs) /\
  (forall k, lookup k fs =
             merged_entry (lookup k (own_entries (tools_to_obj t)))
                          (lookup k (own_entries (tools_to_obj s)))) /\
  (forall a k, lookup k (own_entries (tools_to_obj (JStr a))) =
               if existsb (String.eqb k) (tool_names a) then Some (JStr "") else None) /\
  (forall k xs ys,
     lookup k (own_entries (tools_to_obj t)) = Some (JObj xs) ->
     lookup k (own_entries (tools_to_obj s)) = Some (JObj ys) ->
     nodup_keys xs = true -> nodup_keys ys = true ->
     exists zs, lookup k fs = Some (JObj zs) /\
       forall f, lookup f zs = match lookup f ys with Some v => Some v | None => lookup f xs end).
Proof.
  intros Ht Hs Ho Hp.
  pose proof (tools_to_obj_keys _ Ht) as Kt. pose proof (tools_to_obj_keys _ Hs) as Ks.
  assert (Hl : forall k, lookup k (fold_left merge_tool_entry (own_entries (tools_to_obj s))
                                             (spread [] (tools_to_obj t))) =
                         merged_entry (lookup k (own_entries (tools_to_obj t)))
                                      (lookup k (own_entries (tools_to_obj s)))).
  { intros k. rewrite (lookup_fold_merge _ _ _ Ks Hp), (tools_to_obj_is_obj _ Ht), (lookup_spread _ _ _ Kt).
    simpl. destruct (lookup k (own_entries (tools_to_obj t))); reflexivity. }
  eexists. split; [apply merge_tools_objects_eq; assumption|].
  split.
  { apply keys_fold_merge. rewrite (tools_to_obj_is_obj _ Ht). apply keys_spread. constructor. }
  split; [exact Hl|]. split; [exact tools_to_obj_string|].
  intros k xs ys Hx Hy Nx Ny. rewrite Hl, Hx, Hy. simpl.
  eexists. split; [reflexivity|]. intros f.
  rewrite (lookup_spread _ _ _ (nodup_keys_NoDup _ Ny)), (lookup_spread _ _ _ (nodup_keys_NoDup _ Nx)).
  destruct (lookup f xs); reflexivity.
Qed.

Lemma merge_tools_objects_witness :
  (tools_form (JStr "a, b") = true /\ tools_form (JObj [("b", JObj [("prompt", JStr "p")])]) = true /\
   is_obj (JStr "a, b") || is_obj (JObj [("b", JObj [("prompt", JStr "p")])]) = true /\
   ~ In "__proto__" (map fst (own_entries (tools_to_obj (JObj [("b", JObj [("prompt", JStr "p")])]))))) /\
  exists fs, mergeTools (JStr "a, b") (JObj [("b", JObj [("prompt", JStr "p")])]) = JObj fs /\
  NoDup (map fst fs) /\
  (forall k, lookup k fs =
             merged_entry (lookup k (own_entries (tools_to_obj (JStr "a, b"))))
                          (lookup k (own_entries (tools_to_obj (JObj [("b", JObj [("prompt", JStr "p")])]))))) /\
  (forall a k, lookup k (own_entries (tools_to_obj (JStr a))) =
               if existsb (String.eqb k) (tool_names a) then Some (JStr "") else None) /\
  (forall k xs ys,
     lookup k (own_entries (tools_to_obj (JStr "a, b"))) = Some (JObj xs) ->
     lookup k (own_entries (tools_to_obj (JObj [("b", JObj [("prompt", JStr "p")])]))) = Some (JObj ys) ->
     nodup_keys xs = true -> nodup_keys ys = true ->
     exists zs, lookup k fs = Some (JObj zs) /\
       forall f, lookup f zs = match lookup f ys with Some v => Some v | None => lookup f xs end).
Proof.
  assert (Hp : ~ In "__proto__" (map fst (own_entries (tools_to_obj (JObj [("b", JObj [("prompt", JStr "p")])]))))).
  { simpl. intros [H|[]]. discriminate H. }
  split; [split; [reflexivity | split; [reflexivity | split; [reflexivity | exact Hp]]]|].
  apply merge_tools_objects; [reflexivity | reflexivity | reflexivity | exact Hp].
Defined.

(** ** C3 *)

Section ConfigsMerge.

Lemma lookup_merge_config_entry (tgt : list (string * jv)) (k' : string) (v : jv) (k : string) :
  k' <> "__proto__" ->
  lookup k (merge_config_entry tgt (k', v)) =
  if String.eqb k k'
  then Some (if truthy (get tgt k')
             then JObj (adef "tools" (mergeTools (tools_of (get tgt k')) (tools_of v))
                             (spread (spread [] (get tgt k')) v))
             else v)
  else lookup k tgt.
Proof.
  intros Hk. unfold merge_config_entry. rewrite !(aset_adef k') by exact Hk.
  destruct (truthy (get tgt k')); rewrite lookup_adef; reflexivity.
Qed.

Lemma lookup_merge_configs (target source : list (string * jv)) (k : string) :
  NoDup (map fst source) -> ~ In "__proto__" (map fst source) -> is_proto_member k = false ->
  lookup k (mergeConfigs target source) =
  match lookup k source with
  | None => lookup k target
  | Some y =>
      match lookup k target with
      | Some x =>
          Some (if truthy x
                then JObj (adef "tools" (mergeTools (tools_of x) (tools_of y)) (spread (spread [] x) y))
                else y)
      | None => Some y
      end
  end.
Proof.
  unfold mergeConfigs. intros Hnd Hp Hk. revert target.
  induction source as [|[k' v] src IH]; intros target; cbn [fold_left lookup]; [reflexivity|].
  inversion Hnd as [|? ? Hn Hnd']; subst.
  assert (Hk' : k' <> "__proto__") by (intros ->; apply Hp; left; reflexivity).
  rewrite (IH Hnd'), (lookup_merge_config_entry _ _ _ _ Hk')
    by (intros Hin; apply Hp; right; exact Hin).
  destruct (String.eqb k k') eqn:E; [|reflexivity].
  apply String.eqb_eq in E. subst. rewrite (lookup_none_of_notin _ _ Hn).
  unfold get. destruct (lookup k' target) as [x|]; [reflexivity|].
  unfold proto_get. apply String.eqb_neq in Hk'. rewrite Hk', Hk. reflexivity.
Qed.

End ConfigsMerge.

(** C3 (code bug): [target[key]] is read through [Object.prototype], so
    a key such as [toString] that is absent from the base set is taken for
    a present one: the overlay declaration is merged with the inherited
    native function instead of being inserted directly, and its [tools]
    field ([""]) becomes [undefined]. For the other keys, when the base
    declarations are objects and the overlay keys are distinct, none of
    them [__proto__] (whose assignment replaces the prototype of the target
    and with it what later reads of [target[key]] find), the merge is the
    one C3 describes. *)
Theorem merge_configs_inherited_key :
  mergeConfigs [] [("toString", JObj [("prompt", JStr "p"); ("tools", JStr "")])]
    = [("toString", JObj [("prompt", JStr "p"); ("tools", JUndef)])] /\
  lookup "toString" (mergeConfigs [] [("toString", JObj [("prompt", JStr "p"); ("tools", JStr "")])])
    <> merged_config None (Some (JObj [("prompt", JStr "p"); ("tools", JStr "")])) /\
  (forall target source k,
     NoDup (map fst source) -> ~ In "__proto__" (map fst source) -> is_proto_member k = false ->
     (forall x, lookup k target = Some x -> is_obj x = true) ->
     lookup k (mergeConfigs target source) = merged_config (lookup k target) (lookup k source)).
Proof.
  split; [reflexivity|]. split; [discriminate|].
  intros target source k Hnd Hp Hk Ho. rewrite (lookup_merge_configs _ _ _ Hnd Hp Hk).
  unfold merged_config.
  destruct (lookup k source) as [y|], (lookup k target) as [x|] eqn:Ex; try reflexivity.
  specialize (Ho x eq_refl). destruct x; try discriminate. reflexivity.
Qed.

(** ** C7 *)

Section Templates.

Lemma sapp_nil_r (s : string) : (s ++ "")%string = s.
Proof. induction s as [|c s IH]; simpl; [reflexivity | rewrite IH; reflexivity]. Qed.

Lemma take_run_free (n rest : list ascii) :
  ~ In "}"%char n -> take_run (n ++ "}"%char :: rest) = (n, "}"%char :: rest).
Proof.
  induction n as [|c n IH]; simpl; intros H; [reflexivity|].
  destruct (Ascii.eqb c "}") eqn:E.
  - apply Ascii.eqb_eq in E. subst. tauto.
  - rewrite IH by tauto. reflexivity.
Qed.

(** One step of the scan at a well-formed token ["{{" run "}}"]. *)
Lemma replace_loop_token (f : nat) (params : list (string * jv)) (run rest : list ascii)
      (used : list string) :
  run <> [] -> ~ In "}"%char run ->
  replace_loop (S f) params ("{"%char :: "{"%char :: run ++ "}"%char :: "}"%char :: rest) used =
  let trimmedName := string_of_list_ascii (trim_l run) in
  if key_in params trimmedName then
    match js_String (get params trimmedName) with
    | Some s =>
        match replace_loop f params rest (str_set_add used trimmedName) with
        | Some (out, u) => Some (list_ascii_of_string s ++ out, u)
        | None => None
        end
    | None => None
    end
  else
    match replace_loop f params rest used with
    | Some (out, u) => Some (("{"%char :: "{"%char :: run ++ ["}"%char; "}"%char]) ++ out, u)
    | None => None
    end.
Proof.
  intros Hne Hfree. cbn [replace_loop].
  rewrite take_run_free by exact Hfree.
  destruct run as [|a run']; [contradiction|]. reflexivity.
Qed.

End Templates.

(** C7 (code bug): whether a token is replaced is decided by
    [trimmedName in params], which also holds for the names inherited from
    [Object.prototype]. A template made of one token whose trimmed name is
    [n] is rendered to [String(params[n])] with used set [{n}] exactly when
    [n in params] (the call throws when [String] throws), and is left
    verbatim otherwise; so ["{{toString}}"] with arguments [{x: 5}] is
    rendered to the source text of the native function, and
    ["{{__proto__}}"] to ["[object Object]"], although neither name is a
    key of the arguments, and an argument [{toString: 1}] makes the call
    throw. The two examples of C7 hold. *)
Theorem process_template_inherited_name (n : list ascii) (params : list (string * jv)) :
  params <> [] -> n <> [] -> ~ In "}"%char n -> trim_l n = n ->
  processTemplate (Some (string_of_list_ascii ("{"%char :: "{"%char :: n ++ ["}"%char; "}"%char]))) params =
    (if key_in params (string_of_list_ascii n)
     then option_map (fun s => (s, [string_of_list_ascii n]))
                     (js_String (get params (string_of_list_ascii n)))
     else Some (string_of_list_ascii ("{"%char :: "{"%char :: n ++ ["}"%char; "}"%char]), [])) /\
  processTemplate (Some "{{toString}}") [("x", JNum 5)] =
    Some ("function toString() { [native code] }", ["toString"]) /\
  processTemplate (Some "{{__proto__}}") [("x", JNum 5)] =
    Some ("[object Object]", ["__proto__"]) /\
  processTemplate (Some "{{a}}") [("a", JObj [("toString", JNum 1)])] = None /\
  processTemplate (Some "{{x}}") [] = Some ("{{x}}", []) /\
  processTemplate (Some "{{x}}") [("x", JNum 5)] = Some ("5", ["x"]).
Proof.
  intros Hp Hne Hfree Htrim.
  split; [|repeat split; reflexivity].
  unfold processTemplate. destruct params as [|e ps]; [contradiction|]. simpl Nat.eqb. cbv iota.
  rewrite list_ascii_of_string_of_list_ascii.
  change (List.length ("{"%char :: "{"%char :: n ++ ["}"%char; "}"%char]))
    with (S (S (List.length (n ++ ["}"%char; "}"%char])))).
  rewrite (replace_loop_token _ _ n [] [] Hne Hfree). rewrite Htrim. cbv zeta.
  rewrite length_app. simpl Nat.add.
  destruct (key_in (e :: ps) (string_of_list_ascii n)).
  - destruct (js_String _) as [str|]; [|reflexivity].
    destruct (List.length n + 2); simpl; rewrite app_nil_r, string_of_list_ascii_of_string; reflexivity.
  - destruct (List.length n + 2); simpl; rewrite app_nil_r; reflexivity.
Qed.

Lemma process_template_inherited_name_witness :
  ([("x", JNum 5)] <> [] /\ list_ascii_of_string "toString" <> [] /\
   ~ In "}"%char (list_ascii_of_string "toString") /\
   trim_l (list_ascii_of_string "toString") = list_ascii_of_string "toString") /\
  (processTemplate (Some (string_of_list_ascii ("{"%char :: "{"%char :: list_ascii_of_string "toString" ++ ["}"%char; "}"%char]))) [("x", JNum 5)] =
    (if key_in [("x", JNum 5)] (string_of_list_ascii (list_ascii_of_string "toString"))
     then option_map (fun s => (s, [string_of_list_ascii (list_ascii_of_string "toString")]))
                     (js_String (get [("x", JNum 5)] (string_of_list_ascii (list_ascii_of_string "toString"))))
     else Some (string_of_list_ascii ("{"%char :: "{"%char :: list_ascii_of_string "toString" ++ ["}"%char; "}"%char]), [])) /\
  processTemplate (Some "{{toString}}") [("x", JNum 5)] =
    Some ("function toString() { [native code] }", ["toString"]) /\
  processTemplate (Some "{{__proto__}}") [("x", JNum 5)] =
    Some ("[object Object]", ["__proto__"]) /\
  processTemplate (Some "{{a}}") [("a", JObj [("toString", JNum 1)])] = None /\
  processTemplate (Some "{{x}}") [] = Some ("{{x}}", []) /\
  processTemplate (Some "{{x}}") [("x", JNum 5)] = Some ("5", ["x"])).
Proof.
  assert (Hfree : ~ In "}"%char (list_ascii_of_string "toString")).
  { simpl. intros H. repeat (destruct H as [H|H]; [discriminate H|]). exact H. }
  split; [split; [discriminate | split; [discriminate | split; [exact Hfree | reflexivity]]]|].
  apply (process_template_inherited_name (list_ascii_of_string "toString") [("x", JNum 5)]);
    [discriminate | discriminate | exact Hfree | reflexivity].
Defined.

(** ** C8 *)

Section Formatting.

Lemma sapp_assoc (a b c : string) : ((a ++ b) ++ c)%string = (a ++ (b ++ c))%string.
Proof. induction a as [|x a IH]; simpl; [reflexivity | rewrite IH; reflexivity]. Qed.

Lemma tool_line_entry (prefix : string) (tool : ToolItem) :
  tool_line prefix tool = (prefix ++ entry_text tool ++ nl)%string.
Proof.
  destruct tool as [nm [d|] [p|] o]; unfold tool_line, entry_text, present; simpl;
    repeat match goal with
           | |- context [String.eqb ?s ""] => destruct (String.eqb s "")
           end; repeat progress (simpl; rewrite ?sapp_assoc); reflexivity.
Qed.

Lemma sequential_lines_entries (index : nat) (tools : list ToolItem) :
  sequential_lines index tools = numbered_entries index tools.
Proof.
  revert index. induction tools as [|tool r IH]; intros index; cbn [sequential_lines numbered_entries];
    [reflexivity|].
  rewrite tool_line_entry, IH, !sapp_assoc. reflexivity.
Qed.

Lemma dynamic_lines_entries (tools : list ToolItem) :
  dynamic_lines tools = bulleted_entries tools.
Proof.
  induction tools as [|tool r IH]; cbn [dynamic_lines bulleted_entries]; [reflexivity|].
  rewrite tool_line_entry, IH, !sapp_assoc. reflexivity.
Qed.

End Formatting.

(** C8, counterexample: the separator between a description and a
    prompt is an ASCII hyphen-minus, after a colon; the section holds no
    en-dash at all. *)
Lemma C8_hyphen_not_en_dash_counterexample :
  appendFormattedTools "B" [mkToolItem "t" (Some "d") (Some "p") None] None =
    ("B" ++ tools_header ++ dynamic_intro ++ nl ++ nl ++ "- t: d - p" ++ nl ++ nl ++ next_steps)%string /\
  ascii_only (appendFormattedTools "B" [mkToolItem "t" (Some "d") (Some "p") None] None) = true.
Proof. split; [reflexivity | vm_compute; reflexivity]. Qed.

(** C8 (amended): for a non-empty tools list, [appendFormattedTools]
    appends the ["## Available Tools"] header, the introduction of the
    mode, one line per entry ([entry_text]: the name, then [": "] and the
    description when present, then [" - "] and the prompt when both are
    present, or [": "] and the prompt when only the prompt is present, then
    [" (Optional)"] exactly when the optional flag is set), numbered
    [1. 2. ...] in sequential mode and bulleted otherwise, and the closing
    paragraph; for an empty list it returns the base text unchanged. *)
Theorem append_formatted_tools_entries (baseText : string) (toolsList : list ToolItem)
        (toolMode : option string) :
  toolsList <> [] ->
  appendFormattedTools baseText toolsList toolMode =
    (baseText ++ tools_header
     ++ match toolMode with
        | Some "sequential" => sequential_intro ++ nl ++ nl ++ numbered_entries 0 toolsList
        | _ => dynamic_intro ++ nl ++ nl ++ bulleted_entries toolsList
        end
     ++ nl ++ next_steps)%string /\
  appendFormattedTools baseText [] toolMode = baseText.
Proof.
  intros Hne. split; [|reflexivity].
  unfold appendFormattedTools. destruct toolsList as [|t r]; [contradiction|].
  rewrite <- sequential_lines_entries, <- dynamic_lines_entries.
  destruct toolMode as [m|]; [destruct m as [|c m]|];
    try (repeat match goal with
                | |- context [match ?a with Ascii.Ascii _ _ _ _ _ _ _ _ => _ end] => destruct a
                | |- context [match ?b with true => _ | false => _ end] => destruct b
                | |- context [match ?s with EmptyString => _ | String _ _ => _ end] => destruct s
                end);
    rewrite ?sapp_assoc; reflexivity.
Qed.

Lemma append_formatted_tools_entries_witness :
  [mkToolItem "t" (Some "d") (Some "p") (Some true)] <> [] /\
  appendFormattedTools "B" [mkToolItem "t" (Some "d") (Some "p") (Some true)] (Some "sequential") =
    ("B" ++ tools_header
     ++ match Some "sequential" with
        | Some "sequential" => sequential_intro ++ nl ++ nl ++
                               numbered_entries 0 [mkToolItem "t" (Some "d") (Some "p") (Some true)]
        | _ => dynamic_intro ++ nl ++ nl ++ bulleted_entries [mkToolItem "t" (Some "d") (Some "p") (Some true)]
        end
     ++ nl ++ next_steps)%string /\
  appendFormattedTools "B" [] (Some "sequential") = "B".
Proof.
  split; [discriminate|].
  apply (append_formatted_tools_entries "B" [mkToolItem "t" (Some "d") (Some "p") (Some true)] (Some "sequential")).
  discriminate.
Defined.

(** * Further properties of the configuration, template and formatting code *)

Section FormatFacts.

Lemma in_dropws_keep (c : ascii) (l : list ascii) :
  In c l -> is_ws c = false -> In c (dropws l).
Proof.
  induction l as [|d l IH]; simpl; [tauto|]. intros Hin Hc.
  destruct (is_ws d) eqn:E; [|exact Hin].
  destruct Hin as [<-|Hin]; [congruence | exact (IH Hin Hc)].
Qed.

Lemma in_trim_l_keep (c : ascii) (l : list ascii) :
  In c l -> is_ws c = false -> In c (trim_l l).
Proof.
  intros Hin Hc. unfold trim_l. rewrite <- in_rev. apply in_dropws_keep; [|exact Hc].
  rewrite <- in_rev. exact (in_dropws_keep _ _ Hin Hc).
Qed.

Lemma string_of_list_ascii_empty (l : list ascii) : string_of_list_ascii l = "" -> l = [].
Proof. destruct l; [reflexivity | discriminate]. Qed.

Lemma tool_names_blank (s : string) : String.eqb (trim s) "" = true -> tool_names s = [""].
Proof.
  intros E. apply String.eqb_eq, string_of_list_ascii_empty in E.
  unfold tool_names. rewrite split_comma_free.
  - simpl. rewrite E. reflexivity.
  - intros Hc. pose proof (in_trim_l_keep _ _ Hc eq_refl) as H. rewrite E in H. exact H.
Qed.

Lemma formatToolsList_string (s : string) :
  formatToolsList (JStr s) = map (fun n => mkToolItemValue n (JStr "") JUndef JUndef) (tool_names s).
Proof.
  unfold formatToolsList. destruct (String.eqb (trim s) "") eqn:E.
  - rewrite (tool_names_blank s E). reflexivity.
  - unfold tool_names. rewrite map_map. reflexivity.
Qed.

Lemma split_comma_length (l : list ascii) :
  List.length (split_comma l) = S (count_occ ascii_dec l comma).
Proof.
  induction l as [|c l IH]; [reflexivity|]. simpl.
  destruct (Ascii.eqb_spec c comma) as [->|Hc].
  - destruct (ascii_dec comma comma) as [_|N]; [|contradiction]. simpl. rewrite IH. reflexivity.
  - destruct (ascii_dec c comma) as [|_]; [contradiction|].
    destruct (split_comma l) as [|h t]; simpl in *; [discriminate | exact IH].
Qed.

Lemma tool_names_toks (s : string) : tool_names s = map string_of_list_ascii (toks s).
Proof. unfold tool_names, toks. rewrite map_map. reflexivity. Qed.

Lemma NoDup_map_string_of_list_ascii (l : list (list ascii)) :
  NoDup l -> NoDup (map string_of_list_ascii l).
Proof.
  induction 1 as [|x l Hx Hl IH]; simpl; constructor; [|exact IH].
  intros Hin. apply in_map_iff in Hin. destruct Hin as [y [Hy Hin]].
  apply (f_equal list_ascii_of_string) in Hy. rewrite !list_ascii_of_string_of_list_ascii in Hy.
  subst. contradiction.
Qed.

Lemma tool_names_nonempty (s : string) : tool_names s <> [].
Proof.
  unfold tool_names. intros H. apply map_eq_nil in H. exact (split_comma_nonempty _ H).
Qed.

End FormatFacts.

(** [formatToolsList] on a tools string: one item per comma-separated
    piece (the number of commas plus one), in order, named by the trimmed
    piece, with an empty description and no prompt or optional flag.  A
    blank string is no exception: it is a single piece, and gives a single
    item with an empty name. *)
Theorem format_tools_list_string (s : string) :
  formatToolsList (JStr s) = map (fun n => mkToolItemValue n (JStr "") JUndef JUndef) (tool_names s) /\
  List.length (formatToolsList (JStr s)) = S (count_occ ascii_dec (list_ascii_of_string s) comma).
Proof.
  rewrite formatToolsList_string. split; [reflexivity|].
  rewrite length_map. unfold tool_names. rewrite length_map. apply split_comma_length.
Qed.

(** Formatting the tools string that [mergeTools] builds from two
    non-empty tools strings lists each trimmed name of either string once,
    in order of first occurrence. *)
Theorem format_merged_tools_strings (a b : string) :
  a <> "" -> b <> "" ->
  map item_name (formatToolsList (mergeTools (JStr a) (JStr b))) =
    map string_of_list_ascii (dedup (toks a ++ toks b)) /\
  NoDup (map item_name (formatToolsList (mergeTools (JStr a) (JStr b)))).
Proof.
  intros Ha Hb.
  assert (Ht : toks (string_of_list_ascii (join_cs (dedup (toks a ++ toks b)))) = dedup (toks a ++ toks b)).
  { pose proof (tokens_of_merge a b Ha Hb) as H. rewrite (merge_tools_strings_eq a b Ha Hb) in H.
    exact H. }
  rewrite (merge_tools_strings_eq a b Ha Hb), formatToolsList_string, map_map.
  cbn [item_name]. rewrite map_id, tool_names_toks, Ht.
  split; [reflexivity|]. apply NoDup_map_string_of_list_ascii, NoDup_dedup.
Qed.

Lemma format_merged_tools_strings_witness :
  ("a, b" <> "" /\ "b,c" <> "") /\
  map item_name (formatToolsList (mergeTools (JStr "a, b") (JStr "b,c"))) =
    map string_of_list_ascii (dedup (toks "a, b" ++ toks "b,c")) /\
  NoDup (map item_name (formatToolsList (mergeTools (JStr "a, b") (JStr "b,c")))).
Proof.
  split; [split; discriminate|].
  apply (format_merged_tools_strings "a, b" "b,c"); discriminate.
Defined.

(** A tools string, formatted by [formatToolsList] and rendered by
    [appendFormattedTools], lists the bare trimmed names: every item
    converts to a [ToolItem] with an empty description and no prompt or
    flag, and each line is ["- name"] (or ["i. name"] in sequential mode),
    with no separator or suffix. *)
Theorem format_then_append_tools_string (s baseText : string) (toolMode : option string) :
  map to_tool_item (formatToolsList (JStr s)) =
    map (fun n => Some (mkToolItem n (Some "") None None)) (tool_names s) /\
  appendFormattedTools baseText (map (fun n => mkToolItem n (Some "") None None) (tool_names s)) toolMode =
    (baseText ++ tools_header
     ++ match toolMode with
        | Some "sequential" => sequential_intro ++ nl ++ nl ++ numbered_names 0 (tool_names s)
        | _ => dynamic_intro ++ nl ++ nl ++ bulleted_names (tool_names s)
        end
     ++ nl ++ next_steps)%string.
Proof.
  rewrite formatToolsList_string, map_map. split; [reflexivity|].
  assert (Hb : forall ns, bulleted_entries (map (fun n => mkToolItem n (Some "") None None) ns) =
                        bulleted_names ns).
  { induction ns as [|n r IH]; [reflexivity|]. cbn [map bulleted_entries bulleted_names].
    rewrite IH. unfold entry_text. simpl. rewrite sapp_nil_r. reflexivity. }
  assert (Hn : forall i ns, numbered_entries i (map (fun n => mkToolItem n (Some "") None None) ns) =
                          numbered_names i ns).
  { intros i ns. revert i. induction ns as [|n r IH]; intros i; [reflexivity|].
    cbn [map numbered_entries numbered_names].
    rewrite IH. unfold entry_text. simpl. rewrite sapp_nil_r. reflexivity. }
  pose proof (tool_names_nonempty s) as Hne.
  destruct (tool_names s) as [|n r] eqn:E; [contradiction|].
  rewrite <- Hb, <- Hn.
  rewrite <- sequential_lines_entries, <- dynamic_lines_entries.
  unfold appendFormattedTools.
  destruct toolMode as [m|]; [destruct m as [|c m]|];
    try (repeat match goal with
                | |- context [match ?a with Ascii.Ascii _ _ _ _ _ _ _ _ => _ end] => destruct a
                | |- context [match ?b with true => _ | false => _ end] => destruct b
                | |- context [match ?s with EmptyString => _ | String _ _ => _ end] => destruct s
                end);
    rewrite ?sapp_assoc; reflexivity.
Qed.

Section TemplateFacts.

Lemma replace_loop_no_brace (f : nat) (params : list (string * jv)) (l : list ascii) (used : list string) :
  no_double_brace l = true -> replace_loop f params l used = Some (l, used).
Proof.
  revert l used. induction f as [|f IH]; intros l used H; [reflexivity|].
  destruct l as [|c r]; [reflexivity|]. cbn [replace_loop].
  destruct r as [|c2 r2].
  - rewrite IH by reflexivity. reflexivity.
  - simpl in H. apply andb_prop in H as [H1 H2]. apply negb_true_iff in H1. rewrite H1.
    rewrite IH by exact H2. reflexivity.
Qed.

End TemplateFacts.

(** [processTemplate] leaves a template without a ["{{"] as it is, and
    reports no name as used, whatever the parameters (a lone ["}}"] or a
    single-brace ["{name}"] is kept verbatim). *)
Theorem process_template_no_placeholder (t : string) (params : list (string * jv)) :
  no_double_brace (list_ascii_of_string t) = true ->
  processTemplate (Some t) params = Some (t, []).
Proof.
  intros H. unfold processTemplate.
  destruct (Nat.eqb (List.length params) 0); [reflexivity|].
  rewrite replace_loop_no_brace by exact H. rewrite string_of_list_ascii_of_string. reflexivity.
Qed.

Lemma process_template_no_placeholder_witness :
  no_double_brace (list_ascii_of_string "Hello {name} }}") = true /\
  processTemplate (Some "Hello {name} }}") [("name", JStr "x")] = Some ("Hello {name} }}", []).
Proof.
  split; [reflexivity|].
  apply (process_template_no_placeholder "Hello {name} }}" [("name", JStr "x")]). reflexivity.
Defined.

Section WireFacts.

Lemma params_loop_fst (es : list (string * bool * jv)) props req :
  fst (fold_left (fun (acc : list (string * jv) * list string) (e : string * bool * jv) =>
               let '(props, req) := acc in
               let '(n, r, sch) := e in
               (aset n sch props, if r then req ++ [n] else req))
            es (props, req))
  = fold_left (fun (acc : list (string * jv)) (e : string * jv) => let '(n, z) := e in aset n z acc)
              (map (fun e => (fst (fst e), snd e)) es) props.
Proof.
  revert props req. induction es as [|[[n r] sch] es IH]; intros props req; simpl; [reflexivity|].
  apply IH.
Qed.

Lemma params_loop_distinct (ps : list (string * ParameterConfig)) :
  NoDup (map fst ps) -> ~ In "__proto__" (map fst ps) -> enum_ordered (map fst ps) = true ->
  params_loop (map (fun '(n, q) => (n, is_required q, convertParameterToJsonSchema q)) ps) =
    (map (fun '(n, q) => (n, convertParameterToJsonSchema q)) ps,
     map fst (filter (fun e => is_required (snd e)) ps)).
Proof.
  intros Hnd Hp Ho. unfold params_loop.
  set (es := map (fun '(n, q) => (n, is_required q, convertParameterToJsonSchema q)) ps).
  assert (Hm : map (fun e => (fst (fst e), snd e)) es =
               map (fun '(n, q) => (n, convertParameterToJsonSchema q)) ps).
  { unfold es. rewrite map_map. apply map_ext. intros [n q]. reflexivity. }
  apply injective_projections.
  - assert (Hk : map fst (map (fun '(n, q) => (n, convertParameterToJsonSchema q)) ps) = map fst ps).
    { rewrite map_map. apply map_ext. intros [n q]. reflexivity. }
    rewrite params_loop_fst, Hm. apply (fold_aset_ordered _ []); simpl; rewrite Hk; assumption.
  - rewrite params_loop_required. simpl. apply required_names_map.
Qed.

Lemma tag_of_valid (t : option string) : type_valid t = true -> tag_of t <> TOther.
Proof.
  destruct t as [s|]; [|discriminate]. unfold type_valid, valid_types, tag_of.
  intros H. cbn [existsb] in H.
  destruct (String.eqb s "string"); [discriminate|].
  destruct (String.eqb s "number"); [discriminate|].
  destruct (String.eqb s "boolean"); [discriminate|].
  destruct (String.eqb s "array"); [discriminate|].
  destruct (String.eqb s "object"); [discriminate|].
  destruct (String.eqb s "enum"); [discriminate|].
  discriminate H.
Qed.

Lemma tag_of_array (t : option string) : tag_of t = TArray -> type_is t "array" = true.
Proof.
  destruct t as [s|]; [|discriminate]. unfold tag_of, type_is.
  destruct (String.eqb s "string"); [discriminate|].
  destruct (String.eqb s "number"); [discriminate|].
  destruct (String.eqb s "boolean"); [discriminate|].
  destruct (String.eqb s "array"); [intros _; reflexivity|].
  destruct (String.eqb s "object"); [discriminate|].
  destruct (String.eqb s "enum"); discriminate.
Qed.

Lemma tag_of_object (t : option string) : tag_of t = TObject -> type_is t "object" = true.
Proof.
  destruct t as [s|]; [|discriminate]. unfold tag_of, type_is.
  destruct (String.eqb s "string"); [discriminate|].
  destruct (String.eqb s "number"); [discriminate|].
  destruct (String.eqb s "boolean"); [discriminate|].
  destruct (String.eqb s "array"); [discriminate|].
  destruct (String.eqb s "object"); [intros _; reflexivity|].
  destruct (String.eqb s "enum"); discriminate.
Qed.

Lemma lookup_type_annotated (base : list (string * jv)) (p : ParameterConfig) (t : jv) :
  lookup "type" base = Some t -> lookup "type" (base ++ annotations p) = Some t.
Proof. intros H. rewrite lookup_app, H. reflexivity. Qed.

Lemma in_fold_aset (es acc : list (string * jv)) (k : string) (x : jv) :
  In (k, x) (fold_left (fun (acc : list (string * jv)) (e : string * jv) =>
                          let '(n, z) := e in aset n z acc) es acc) ->
  In (k, x) acc \/ In x (map snd es).
Proof.
  revert acc. induction es as [|[n z] es IH]; intros acc H; simpl in *; [tauto|].
  destruct (IH _ H) as [H1|H1]; [|tauto].
  destruct (in_aset _ _ _ _ _ H1) as [H2|H2]; [left; exact H2 | right; left; symmetry; exact H2].
Qed.

Lemma convertParametersToZodSchema_ordered (ps : list (string * ParameterConfig)) :
  NoDup (map fst ps) -> ~ In "__proto__" (map fst ps) -> enum_ordered (map fst ps) = true ->
  convertParametersToZodSchema ps
  = map (fun '(n, q) => (n, wrap_optional q (convertParameterToZodSchema q))) ps.
Proof.
  intros Hnd Hp Ho. unfold convertParametersToZodSchema, zod_params_loop.
  apply (fold_aset_ordered _ []); simpl; rewrite map_fst_zod_entries; assumption.
Qed.

Lemma forallb_annotations (f : string * jv -> bool) (p : ParameterConfig) :
  (forall e, String.eqb (fst e) "items" = false -> String.eqb (fst e) "properties" = false -> f e = true) ->
  forallb f (annotations p) = true.
Proof.
  intros Hf. unfold annotations.
  destruct (description_set p), (pdefault p); simpl; rewrite ?Hf by reflexivity; reflexivity.
Qed.

End WireFacts.

(** With distinct parameter names (as in a YAML mapping), none of them
    [__proto__] (an assignment of that name replaces the prototype of the
    object instead of adding a key) and listed in their enumeration order
    (integer-like names, which objects enumerate first, precede the others
    in ascending order), the wire schema of a tool's input lists every
    parameter under [properties] with its compiled schema, in declaration
    order, and the names of the required ones under [required] (omitted
    when none is required); the Zod shape holds the same names in the same
    order, each schema made optional unless the parameter is required. *)
Theorem compiled_parameters_in_order (ps : list (string * ParameterConfig)) :
  NoDup (map fst ps) -> ~ In "__proto__" (map fst ps) -> enum_ordered (map fst ps) = true ->
  convertParametersToJsonSchema ps =
    JObj ([("type", JStr "object");
           ("properties", JObj (map (fun '(n, q) => (n, convertParameterToJsonSchema q)) ps))] ++
          (if Nat.ltb 0 (List.length (map fst (filter (fun e => is_required (snd e)) ps)))
           then [("required", JArr (map JStr (map fst (filter (fun e => is_required (snd e)) ps))))]
           else [])) /\
  convertParametersToZodSchema ps =
    map (fun '(n, q) => (n, wrap_optional q (convertParameterToZodSchema q))) ps.
Proof.
  intros Hnd Hp Ho. split; [|apply convertParametersToZodSchema_ordered; assumption].
  unfold convertParametersToJsonSchema, params_schema. rewrite (params_loop_distinct ps Hnd Hp Ho).
  reflexivity.
Qed.

Lemma compiled_parameters_in_order_witness :
  NoDup (map fst [("b", mkParam (Some "string") None (Some true) None None None None);
                  ("a", mkParam (Some "number") None None (Some (JNum 1)) None None None)]) /\
  ~ In "__proto__" (map fst [("b", mkParam (Some "string") None (Some true) None None None None);
                  ("a", mkParam (Some "number") None None (Some (JNum 1)) None None None)]) /\
  enum_ordered (map fst [("b", mkParam (Some "string") None (Some true) None None None None);
                  ("a", mkParam (Some "number") None None (Some (JNum 1)) None None None)]) = true /\
  (let ps := [("b", mkParam (Some "string") None (Some true) None None None None);
              ("a", mkParam (Some "number") None None (Some (JNum 1)) None None None)] in
   convertParametersToJsonSchema ps =
    JObj ([("type", JStr "object");
           ("properties", JObj (map (fun '(n, q) => (n, convertParameterToJsonSchema q)) ps))] ++
          (if Nat.ltb 0 (List.length (map fst (filter (fun e => is_required (snd e)) ps)))
           then [("required", JArr (map JStr (map fst (filter (fun e => is_required (snd e)) ps))))]
           else [])) /\
   convertParametersToZodSchema ps =
    map (fun '(n, q) => (n, wrap_optional q (convertParameterToZodSchema q))) ps).
Proof.
  assert (H : NoDup (map fst [("b", mkParam (Some "string") None (Some true) None None None None);
                  ("a", mkParam (Some "number") None None (Some (JNum 1)) None None None)])).
  { simpl. constructor; [simpl; intros [H|[]]; discriminate | constructor; [intros []|constructor]]. }
  assert (Hp : ~ In "__proto__" (map fst [("b", mkParam (Some "string") None (Some true) None None None None);
                  ("a", mkParam (Some "number") None None (Some (JNum 1)) None None None)])).
  { simpl. intros [Hq|[Hq|[]]]; discriminate Hq. }
  assert (Ho : enum_ordered (map fst [("b", mkParam (Some "string") None (Some true) None None None None);
                  ("a", mkParam (Some "number") None None (Some (JNum 1)) None None None)]) = true)
    by reflexivity.
  split; [exact H|]. split; [exact Hp|]. split; [exact Ho|].
  exact (compiled_parameters_in_order _ H Hp Ho).
Defined.

Section AbsentArgument.

Lemma absent_value_accepted (p : ParameterConfig) :
  accepts (wrap_optional p (convertParameterToZodSchema p)) JUndef =
    negb (is_required p) ||
    match pdefault p with
    | Some d => accepts (convertParameterToZodSchema p) d
    | None => false
    end.
Proof.
  assert (H : accepts (convertParameterToZodSchema p) JUndef =
              match pdefault p with
              | Some d => accepts (convertParameterToZodSchema p) d
              | None => false
              end).
  { destruct (pdefault p) as [d|] eqn:Ed; [|apply convertParameterToZodSchema_rejects_absent; exact Ed].
    destruct p as [ty de rq df en it pr]. simpl in Ed. subst df. simpl convertParameterToZodSchema.
    destruct d; reflexivity. }
  unfold wrap_optional. rewrite <- H. destruct (is_required p); reflexivity.
Qed.

Lemma filter_keep_notin {A} (a : string) (l : list (string * A)) :
  ~ In a (map fst l) -> filter (fun e => negb (String.eqb (fst e) a)) l = l.
Proof.
  induction l as [|[k v] l IH]; simpl; intros H; [reflexivity|].
  destruct (String.eqb k a) eqn:E.
  - apply String.eqb_eq in E. subst. exfalso. apply H. left. reflexivity.
  - simpl. rewrite IH; [reflexivity|]. intros Hin. apply H. right. exact Hin.
Qed.

End AbsentArgument.

(** A tool call whose arguments leave out a declared parameter [a] (with
    distinct parameter names, none of them [__proto__], and [a] not a name
    read through [Object.prototype]) is accepted exactly when the call
    passes the other parameters' checks and [a] is not required or its
    declared default passes [a]'s own schema (the default stands in for
    the missing value); a required parameter without a default rejects
    the call. *)
Theorem absent_argument_accepted (ps : list (string * ParameterConfig)) (a : string)
        (p : ParameterConfig) (fs : list (string * jv)) :
  NoDup (map fst ps) -> ~ In "__proto__" (map fst ps) ->
  lookup a ps = Some p -> lookup a fs = None -> is_proto_member a = false ->
  accepts (parameters_validator ps) (JObj fs) =
    (negb (is_required p) ||
     match pdefault p with
     | Some d => accepts (convertParameterToZodSchema p) d
     | None => false
     end) &&
    accepts (parameters_validator (filter (fun e => negb (String.eqb (fst e) a)) ps)) (JObj fs).
Proof.
  intros Hnd Hp Ha Hfs Hpm. unfold parameters_validator. rewrite !accepts_object.
  rewrite (forallb_perm _ _ _ (convertParametersToZodSchema_perm ps Hnd Hp)).
  rewrite (forallb_perm _ _ _ (convertParametersToZodSchema_perm _
             (NoDup_map_fst_filter _ _ Hnd) (not_in_map_fst_filter _ _ _ Hp))).
  clear Hp. induction ps as [|[n q] ps IH]; simpl in Ha |- *; [discriminate|].
  inversion Hnd as [|? ? Hn Hnd']; subst.
  destruct (String.eqb a n) eqn:E.
  - apply String.eqb_eq in E. subst n. injection Ha as ->.
    rewrite String.eqb_refl. simpl. rewrite get_absent by assumption.
    rewrite absent_value_accepted, filter_keep_notin by exact Hn. reflexivity.
  - rewrite String.eqb_sym, E. simpl. rewrite (IH Hnd' Ha).
    destruct (accepts _ (get fs n)), (negb (is_required p) || _); reflexivity.
Qed.

Lemma absent_argument_accepted_witness :
  let ps := [("a", mkParam (Some "string") None (Some true) (Some (JStr "x")) None None None);
             ("b", mkParam (Some "number") None None None None None None)] in
  (NoDup (map fst ps) /\ ~ In "__proto__" (map fst ps) /\
   lookup "a" ps = Some (mkParam (Some "string") None (Some true) (Some (JStr "x")) None None None) /\
   lookup "a" [("b", JNum 1)] = None /\ is_proto_member "a" = false) /\
  accepts (parameters_validator ps) (JObj [("b", JNum 1)]) =
    (negb (is_required (mkParam (Some "string") None (Some true) (Some (JStr "x")) None None None)) ||
     match pdefault (mkParam (Some "string") None (Some true) (Some (JStr "x")) None None None) with
     | Some d => accepts (convertParameterToZodSchema
                            (mkParam (Some "string") None (Some true) (Some (JStr "x")) None None None)) d
     | None => false
     end) &&
    accepts (parameters_validator (filter (fun e => negb (String.eqb (fst e) "a")) ps)) (JObj [("b", JNum 1)]).
Proof.
  intros ps.
  assert (Hnd : NoDup (map fst ps)).
  { simpl. constructor; [simpl; intros [H|[]]; discriminate H|].
    constructor; [intros []|constructor]. }
  assert (Hp : ~ In "__proto__" (map fst ps)).
  { simpl. intros [H|[H|[]]]; discriminate H. }
  split; [split; [exact Hnd | split; [exact Hp | split; [reflexivity | split; reflexivity]]]|].
  apply absent_argument_accepted; [exact Hnd | exact Hp | reflexivity | reflexivity | reflexivity].
Defined.

(** For a parameter whose type tag the validator accepts, and whose enum
    values (if any) are all numbers or all strings, every present value the
    Zod schema accepts has the JSON type that the wire schema announces. *)
Theorem accepted_value_has_wire_type (p : ParameterConfig) (v : jv) :
  type_valid (ptype p) = true ->
  match penum p with Some vs => same_kind vs | None => true end = true ->
  v <> JUndef ->
  accepts (convertParameterToZodSchema p) v = true ->
  lookup "type" (own_entries (convertParameterToJsonSchema p)) = option_map JStr (json_type v).
Proof.
  intros Hv Hk Hu Ha.
  pose proof (tag_of_valid _ Hv) as Ht.
  destruct p as [ty de rq df en it pr]. simpl in Hv, Hk, Ht.
  simpl convertParameterToZodSchema in Ha.
  set (p := mkParam ty de rq df en it pr) in *.
  change df with (pdefault p) in Ha.
  rewrite (accepts_wrappers p _ v Hu) in Ha.
  simpl convertParameterToJsonSchema. cbn [own_entries].
  destruct (tag_of ty); try contradiction; rewrite lookup_app.
  - destruct v; try discriminate. reflexivity.
  - destruct v; try discriminate. reflexivity.
  - destruct v; try discriminate. reflexivity.
  - destruct it; destruct v; try discriminate; reflexivity.
  - destruct pr; destruct v; try discriminate; reflexivity.
  - destruct en as [[|v0 vs]|].
    + destruct v; try discriminate. reflexivity.
    + simpl in Hk. destruct (lit_is_number v0) eqn:En.
      * rewrite accepts_union_literals in Ha. apply existsb_exists in Ha as [l [Hl Hm]].
        assert (Hln : lit_is_number l = true).
        { destruct Hl as [<-|Hl]; [exact En|].
          apply forallb_forall with (x := l) in Hk; [|exact Hl].
          destruct (lit_is_number l); [reflexivity | discriminate]. }
        destruct l; [discriminate|]. destruct v; try discriminate. reflexivity.
      * destruct v; try discriminate. reflexivity.
    + destruct v; try discriminate. reflexivity.
Qed.

Lemma accepted_value_has_wire_type_witness :
  (type_valid (ptype (mkParam (Some "enum") None None None (Some [LNum 1; LNum 2]) None None)) = true /\
   match penum (mkParam (Some "enum") None None None (Some [LNum 1; LNum 2]) None None) with
   | Some vs => same_kind vs | None => true end = true /\
   JNum 2 <> JUndef /\
   accepts (convertParameterToZodSchema (mkParam (Some "enum") None None None (Some [LNum 1; LNum 2]) None None)) (JNum 2) = true) /\
  lookup "type" (own_entries (convertParameterToJsonSchema (mkParam (Some "enum") None None None (Some [LNum 1; LNum 2]) None None)))
    = option_map JStr (json_type (JNum 2)).
Proof.
  assert (H1 : type_valid (ptype (mkParam (Some "enum") None None None (Some [LNum 1; LNum 2]) None None)) = true) by reflexivity.
  assert (H2 : match penum (mkParam (Some "enum") None None None (Some [LNum 1; LNum 2]) None None) with
   | Some vs => same_kind vs | None => true end = true) by reflexivity.
  assert (H3 : JNum 2 <> JUndef) by discriminate.
  assert (H4 : accepts (convertParameterToZodSchema (mkParam (Some "enum") None None None (Some [LNum 1; LNum 2]) None None)) (JNum 2) = true) by reflexivity.
  split; [tauto|]. exact (accepted_value_has_wire_type _ _ H1 H2 H3 H4).
Defined.

Section WireTyped.

Lemma wire_typed_obj (fs : list (string * jv)) :
  wire_typed (JObj fs) =
    match lookup "type" fs with
    | Some (JStr t) => existsb (String.eqb t) json_types
    | _ => false
    end &&
    forallb (fun e => if String.eqb (fst e) "items" then wire_typed (snd e)
                      else if String.eqb (fst e) "properties" then
                        match snd e with
                        | JObj ps => forallb (fun e' => wire_typed (snd e')) ps
                        | _ => false
                        end
                      else true) fs.
Proof. reflexivity. Qed.

Lemma props_typed (ps : list (string * ParameterConfig)) :
  Forall (fun e => wire_typed (convertParameterToJsonSchema (snd e)) = true) ps ->
  forallb (fun e' => wire_typed (snd e'))
    (fst (params_loop (map (fun '(n, q) => (n, is_required q, convertParameterToJsonSchema q)) ps))) = true.
Proof.
  intros Hf. apply forallb_forall. intros [k x] Hin. simpl.
  unfold params_loop in Hin. rewrite params_loop_fst in Hin.
  destruct (in_fold_aset _ _ _ _ Hin) as [[]|Hx].
  rewrite !map_map, in_map_iff in Hx. destruct Hx as [[n q] [Hq Hin']]. simpl in Hq. subst x.
  rewrite Forall_forall in Hf. exact (Hf _ Hin').
Qed.

Lemma params_schema_typed (ps : list (string * ParameterConfig)) :
  Forall (fun e => wire_typed (convertParameterToJsonSchema (snd e)) = true) ps ->
  wire_typed (params_schema (map (fun '(n, q) => (n, is_required q, convertParameterToJsonSchema q)) ps))
    = true /\
  get (own_entries (params_schema (map (fun '(n, q) => (n, is_required q, convertParameterToJsonSchema q)) ps)))
      "properties"
    = JObj (fst (params_loop (map (fun '(n, q) => (n, is_required q, convertParameterToJsonSchema q)) ps))).
Proof.
  intros Hf. pose proof (props_typed ps Hf) as Hp. unfold params_schema.
  destruct (params_loop _) as [props req]. simpl in Hp |- *. split; [|reflexivity].
  rewrite Hp. destruct (Nat.ltb 0 (List.length req)); reflexivity.
Qed.

Lemma shape_ok_items ty de rq df en pr (i : ParameterConfig) :
  shape_ok (mkParam ty de rq df en (Some i) pr) = true -> type_is ty "array" = true -> shape_ok i = true.
Proof.
  intros H Ha. cbn [shape_ok] in H. rewrite Ha in H.
  apply andb_prop in H as [_ H]. exact H.
Qed.

Lemma shape_ok_props ty de rq df en it (ps : list (string * ParameterConfig)) :
  shape_ok (mkParam ty de rq df en it (Some ps)) = true -> type_is ty "object" = true ->
  Forall (fun e => shape_ok (snd e) = true) ps.
Proof.
  intros H Ho. cbn [shape_ok] in H. rewrite Ho in H.
  apply andb_prop in H as [H _]. apply andb_prop in H as [_ H]. clear Ho.
  induction ps as [|[n q] ps IH]; [constructor|].
  apply andb_prop in H as [H1 H2]. constructor; [exact H1 | exact (IH H2)].
Qed.

Lemma wire_typed_compiled (p : ParameterConfig) :
  shape_ok p = true -> wire_typed (convertParameterToJsonSchema p) = true.
Proof.
  induction p as [ty de rq df en it pr IHit IHpr] using ParameterConfig_rect'.
  intros H. pose proof (tag_of_valid _ (shape_ok_type_valid _ H)) as Ht. simpl in Ht.
  simpl convertParameterToJsonSchema. rewrite wire_typed_obj, forallb_app.
  assert (Ha : forallb (fun e => if String.eqb (fst e) "items" then wire_typed (snd e)
                      else if String.eqb (fst e) "properties" then
                        match snd e with
                        | JObj ps => forallb (fun e' => wire_typed (snd e')) ps
                        | _ => false
                        end
                      else true) (annotations (mkParam ty de rq df en it pr)) = true).
  { apply forallb_annotations. intros e E1 E2. rewrite E1, E2. reflexivity. }
  rewrite Ha, andb_true_r, lookup_app.
  destruct (tag_of ty) eqn:Et; try contradiction.
  - reflexivity.
  - reflexivity.
  - reflexivity.
  - destruct it as [i|]; [|reflexivity].
    pose proof (shape_ok_items ty de rq df en pr i H (tag_of_array _ Et)) as Hi.
    simpl. rewrite (IHit Hi). reflexivity.
  - destruct pr as [ps|]; [|reflexivity].
    pose proof (shape_ok_props ty de rq df en it ps H (tag_of_object _ Et)) as Hs.
    assert (Hf : Forall (fun e => wire_typed (convertParameterToJsonSchema (snd e)) = true) ps).
    { rewrite Forall_forall in Hs, IHpr |- *. intros e He. exact (IHpr e He (Hs e He)). }
    destruct (params_schema_typed ps Hf) as [_ Hg]. rewrite Hg.
    pose proof (props_typed ps Hf) as Hp. simpl. rewrite Hp.
    destruct (get _ "required") as [| | | | |[|x xs]| |]; reflexivity.
  - destruct en as [[|v0 vs]|]; [reflexivity| |reflexivity].
    simpl. destruct (lit_is_number v0); reflexivity.
Qed.

Lemma validated_parameters_shape (ps : list (string * ParameterConfig)) :
  fold_right (fun (e : string * ParameterConfig) (rest : option string) =>
                or_else (validateTopParameter (fst e) (snd e)) rest) None ps = None ->
  Forall (fun e => shape_ok (snd e) = true) ps.
Proof.
  induction ps as [|[n p] ps IH]; simpl; intros H; [constructor|].
  apply or_else_none in H as [H1 H2]. constructor; [|exact (IH H2)].
  apply validateTopParameter_none in H1. exact H1.
Qed.

End WireTyped.

(** Once [validateToolConfig] accepts a tool, the JSON Schema built for
    its input is typed at every node: the input object, each parameter,
    and, at any depth, each array's item schema and each object's property
    schemas declare one of the JSON types string, number, boolean, array
    or object. *)
Theorem validated_tool_wire_typed (config : ToolsConfig) (toolName : string) (te : ToolEntry)
        (ps : list (string * ParameterConfig)) :
  lookup toolName config = Some (Some te) ->
  te_parameters te = Some ps ->
  validateToolConfig config toolName = None ->
  wire_typed (convertParametersToJsonSchema ps) = true.
Proof.
  intros Hl Hp Hv. unfold validateToolConfig in Hv. rewrite Hl, Hp in Hv.
  apply validated_parameters_shape in Hv.
  unfold convertParametersToJsonSchema. apply params_schema_typed.
  rewrite Forall_forall in Hv |- *. intros e He. exact (wire_typed_compiled _ (Hv e He)).
Qed.

Lemma validated_tool_wire_typed_witness :
  (lookup "t" [("t", Some (mkToolEntry (Some [("xs", mkParam (Some "array") None None None None
      (Some (mkParam (Some "enum") None None None (Some [LStr "a"]) None None)) None)])))]
     = Some (Some (mkToolEntry (Some [("xs", mkParam (Some "array") None None None None
      (Some (mkParam (Some "enum") None None None (Some [LStr "a"]) None None)) None)]))) /\
   te_parameters (mkToolEntry (Some [("xs", mkParam (Some "array") None None None None
      (Some (mkParam (Some "enum") None None None (Some [LStr "a"]) None None)) None)]))
     = Some [("xs", mkParam (Some "array") None None None None
      (Some (mkParam (Some "enum") None None None (Some [LStr "a"]) None None)) None)] /\
   validateToolConfig [("t", Some (mkToolEntry (Some [("xs", mkParam (Some "array") None None None None
      (Some (mkParam (Some "enum") None None None (Some [LStr "a"]) None None)) None)])))] "t" = None) /\
  wire_typed (convertParametersToJsonSchema [("xs", mkParam (Some "array") None None None None
      (Some (mkParam (Some "enum") None None None (Some [LStr "a"]) None None)) None)]) = true.
Proof.
  assert (H1 : lookup "t" [("t", Some (mkToolEntry (Some [("xs", mkParam (Some "array") None None None None
      (Some (mkParam (Some "enum") None None None (Some [LStr "a"]) None None)) None)])))]
     = Some (Some (mkToolEntry (Some [("xs", mkParam (Some "array") None None None None
      (Some (mkParam (Some "enum") None None None (Some [LStr "a"]) None None)) None)])))) by reflexivity.
  assert (H3 : validateToolConfig [("t", Some (mkToolEntry (Some [("xs", mkParam (Some "array") None None None None
      (Some (mkParam (Some "enum") None None None (Some [LStr "a"]) None None)) None)])))] "t" = None)
    by reflexivity.
  split; [split; [exact H1 | split; [reflexivity | exact H3]]|].
  exact (validated_tool_wire_typed _ _ _ _ H1 eq_refl H3).
Defined.

(** [validateToolConfig] reports the error of the first parameter, in
    declaration order, that fails its checks: parameters declared after it
    are not looked at. *)
Theorem validate_tool_config_first_error (config : ToolsConfig) (toolName : string) (te : ToolEntry)
        (pre post : list (string * ParameterConfig)) (n : string) (p : ParameterConfig) (err : string) :
  lookup toolName config = Some (Some te) ->
  te_parameters te = Some (pre ++ (n, p) :: post) ->
  Forall (fun e => shape_ok (snd e) = true) pre ->
  validateTopParameter n p = Some err ->
  validateToolConfig config toolName = Some err.
Proof.
  intros Hl Hp Hpre He. unfold validateToolConfig. rewrite Hl, Hp. clear Hl Hp.
  induction pre as [|[m q] pre IH]; simpl; [rewrite He; reflexivity|].
  inversion Hpre as [|? ? Hq Hr]; subst. simpl in Hq.
  apply (validateTopParameter_none m) in Hq. rewrite Hq. simpl. exact (IH Hr).
Qed.

Lemma validate_tool_config_first_error_witness :
  (lookup "t" [("t", Some (mkToolEntry (Some [("a", mkParam (Some "string") None None None None None None);
                                               ("b", mkParam (Some "date") None None None None None None);
                                               ("c", mkParam None None None None None None None)])))]
     = Some (Some (mkToolEntry (Some [("a", mkParam (Some "string") None None None None None None);
                                     ("b", mkParam (Some "date") None None None None None None);
                                     ("c", mkParam None None None None None None None)]))) /\
   te_parameters (mkToolEntry (Some [("a", mkParam (Some "string") None None None None None None);
                                     ("b", mkParam (Some "date") None None None None None None);
                                     ("c", mkParam None None None None None None None)]))
     = Some ([("a", mkParam (Some "string") None None None None None None)] ++
             ("b", mkParam (Some "date") None None None None None None) ::
             [("c", mkParam None None None None None None None)]) /\
   Forall (fun e => shape_ok (snd e) = true) [("a", mkParam (Some "string") None None None None None None)] /\
   validateTopParameter "b" (mkParam (Some "date") None None None None None None) =
     Some ("Parameter " ++ quoted "b" ++ " has invalid type " ++ quoted "date")%string) /\
  validateToolConfig [("t", Some (mkToolEntry (Some [("a", mkParam (Some "string") None None None None None None);
                                               ("b", mkParam (Some "date") None None None None None None);
                                               ("c", mkParam None None None None None None None)])))] "t"
    = Some ("Parameter " ++ quoted "b" ++ " has invalid type " ++ quoted "date")%string.
Proof.
  assert (H1 : lookup "t" [("t", Some (mkToolEntry (Some [("a", mkParam (Some "string") None None None None None None);
                                               ("b", mkParam (Some "date") None None None None None None);
                                               ("c", mkParam None None None None None None None)])))]
     = Some (Some (mkToolEntry (Some [("a", mkParam (Some "string") None None None None None None);
                                     ("b", mkParam (Some "date") None None None None None None);
                                     ("c", mkParam None None None None None None None)])))) by reflexivity.
  assert (H3 : Forall (fun e => shape_ok (snd e) = true) [("a", mkParam (Some "string") None None None None None None)])
    by (constructor; [reflexivity | constructor]).
  assert (H4 : validateTopParameter "b" (mkParam (Some "date") None None None None None None) =
     Some ("Parameter " ++ quoted "b" ++ " has invalid type " ++ quoted "date")%string) by reflexivity.
  split; [split; [exact H1 | split; [reflexivity | split; [exact H3 | exact H4]]]|].
  exact (validate_tool_config_first_error _ _ _
           [("a", mkParam (Some "string") None None None None None None)]
           [("c", mkParam None None None None None None None)] _ _ _ H1 eq_refl H3 H4).
Defined.

Section LoaderFacts.

Lemma merge_config_entry_fresh (tgt : list (string * jv)) (k : string) (v : jv) :
  lookup k tgt = None -> is_proto_member k = false ->
  forallb (fun e => negb (key_before k (fst e))) tgt = true ->
  merge_config_entry tgt (k, v) = tgt ++ [(k, v)].
Proof.
  intros Hl Hp Ho. unfold merge_config_entry. rewrite (get_absent tgt k Hl Hp). cbn [truthy].
  rewrite aset_adef by exact (proto_member_ne _ Hp). unfold adef. rewrite Hl.
  apply insert_key_last, Ho.
Qed.

Lemma mergeConfigs_disjoint (target source : list (string * jv)) :
  NoDup (map fst (target ++ source)) ->
  (forall k, In k (map fst source) -> is_proto_member k = false) ->
  enum_ordered (map fst (target ++ source)) = true ->
  mergeConfigs target source = target ++ source.
Proof.
  revert target. induction source as [|[k v] source IH]; intros target Hnd Hp Ho.
  - rewrite app_nil_r. reflexivity.
  - unfold mergeConfigs. cbn [fold_left].
    assert (Hk : lookup k target = None).
    { apply lookup_none_of_notin. rewrite map_app in Hnd. simpl in Hnd.
      apply NoDup_remove_2 in Hnd. intros Hin. apply Hnd. apply in_or_app. left. exact Hin. }
    rewrite merge_config_entry_fresh.
    + unfold mergeConfigs in IH. rewrite IH.
      * rewrite <- app_assoc. reflexivity.
      * rewrite <- app_assoc. exact Hnd.
      * intros k' Hk'. apply Hp. right. exact Hk'.
      * rewrite <- app_assoc. exact Ho.
    + exact Hk.
    + apply Hp. left. reflexivity.
    + apply forallb_forall. intros [k' w] Hin. simpl.
      rewrite map_app in Ho. simpl in Ho.
      rewrite (enum_ordered_app_cross _ _ Ho k' k); [reflexivity| |left; reflexivity].
      apply in_map_iff. exists (k', w). split; [reflexivity | exact Hin].
Qed.

Lemma load_file_skipped (m : list (string * jv)) (doc : option jv) :
  skipped doc = true -> load_file m doc = m.
Proof.
  destruct doc as [v|]; [|reflexivity]. intros H.
  destruct v; simpl in H |- *; try reflexivity; discriminate.
Qed.

Lemma load_file_entries (m : list (string * jv)) (doc : option jv) :
  skipped doc = true \/ (exists fs, doc = Some (JObj fs)) ->
  NoDup (map fst (m ++ doc_entries doc)) ->
  (forall k, In k (map fst (doc_entries doc)) -> is_proto_member k = false) ->
  enum_ordered (map fst (m ++ doc_entries doc)) = true ->
  load_file m doc = m ++ doc_entries doc.
Proof.
  intros [H|[fs ->]] Hnd Hp Ho.
  - rewrite load_file_skipped by exact H.
    destruct doc as [[]|]; simpl in H |- *; try discriminate; rewrite app_nil_r; reflexivity.
  - simpl. apply mergeConfigs_disjoint; assumption.
Qed.

Lemma fold_load_entries (files : list (string * option jv)) (m : list (string * jv)) :
  (forall e, In e files -> skipped (snd e) = true \/ exists fs, snd e = Some (JObj fs)) ->
  NoDup (map fst (m ++ List.concat (map (fun e => doc_entries (snd e)) files))) ->
  (forall k, In k (map fst (List.concat (map (fun e => doc_entries (snd e)) files))) -> is_proto_member k = false) ->
  enum_ordered (map fst (m ++ List.concat (map (fun e => doc_entries (snd e)) files))) = true ->
  fold_left (fun m e => load_file m (snd e)) files m = m ++ List.concat (map (fun e => doc_entries (snd e)) files).
Proof.
  revert m. induction files as [|e files IH]; intros m Hd Hnd Hp Ho; simpl.
  - rewrite app_nil_r. reflexivity.
  - simpl in Hnd, Hp, Ho. rewrite !map_app in Hp.
    rewrite load_file_entries.
    + rewrite IH, <- app_assoc; [reflexivity| | | |].
      * intros e' He'. apply Hd. right. exact He'.
      * rewrite <- app_assoc. exact Hnd.
      * intros k Hk. apply Hp. apply in_or_app. right. exact Hk.
      * rewrite <- app_assoc. exact Ho.
    + apply Hd. left. reflexivity.
    + rewrite app_assoc, map_app in Hnd. apply NoDup_app_remove_r in Hnd. exact Hnd.
    + intros k Hk. apply Hp. apply in_or_app. left. exact Hk.
    + rewrite app_assoc, map_app in Ho. apply (enum_ordered_app_l _ _ Ho).
Qed.

Lemma fold_load_skip (files : list (string * option jv)) (m : list (string * jv)) :
  fold_left (fun m e => load_file m (snd e)) files m <> m ->
  exists e, In e files /\ skipped (snd e) = false.
Proof.
  revert m. induction files as [|e files IH]; intros m H; simpl in H; [contradiction|].
  destruct (skipped (snd e)) eqn:E.
  - rewrite load_file_skipped in H by exact E. destruct (IH m H) as [e' [He' Hs]].
    exists e'. split; [right; exact He' | exact Hs].
  - exists e. split; [left; reflexivity | exact E].
Qed.

Lemma guarded_fold (files : list (string * option jv)) :
  (if Nat.eqb (List.length files) 0 then []
   else fold_left (fun m e => load_file m (snd e)) files []) =
  fold_left (fun m e => load_file m (snd e)) files [].
Proof. destruct files; reflexivity. Qed.

End LoaderFacts.

(** [mergeConfigs] with a source whose keys are distinct, absent from the
    target and not members of [Object.prototype] (among them the accessor
    [__proto__]), and that follow the target's keys in enumeration order
    (an integer-like key is enumerated before the other keys), appends the
    source's declarations after the target's, unchanged. *)
Theorem merge_configs_disjoint (target source : list (string * jv)) :
  NoDup (map fst (target ++ source)) ->
  (forall k, In k (map fst source) -> is_proto_member k = false) ->
  enum_ordered (map fst (target ++ source)) = true ->
  mergeConfigs target source = target ++ source.
Proof. exact (mergeConfigs_disjoint target source). Qed.

(** In the directory [loadConfigSync] (and [loadConfig]) reads, a file
    that is not named [*.yaml] or [*.yml] (in any letter case), or that
    cannot be read or parsed, or whose document is not an object or is
    [null], has no effect on the loaded configuration. *)
Theorem load_config_skips_file (directoryPath : option string) (isDir : bool) (dirName : string)
        (pre post : list (string * option jv)) (file : string) (doc : option jv) :
  is_yaml_file file = false \/ skipped doc = true ->
  loadConfigSync directoryPath (mkConfigDir isDir dirName (Some (pre ++ (file, doc) :: post))) =
  loadConfigSync directoryPath (mkConfigDir isDir dirName (Some (pre ++ post))).
Proof.
  intros H. unfold loadConfigSync. cbn [dir_is_directory dir_name dir_listing].
  destruct directoryPath as [p|]; [|reflexivity].
  destruct (String.eqb p ""); [reflexivity|].
  destruct (negb isDir); [reflexivity|].
  destruct (negb (existsb _ _)); [reflexivity|].
  rewrite !filter_app, !guarded_fold. cbn [filter]. cbn [fst].
  destruct H as [H|H].
  - rewrite H. reflexivity.
  - destruct (is_yaml_file file); [|reflexivity].
    rewrite !fold_left_app. cbn [fold_left snd]. rewrite load_file_skipped by exact H. reflexivity.
Qed.

Lemma load_config_skips_file_witness :
  (is_yaml_file "notes.txt" = false \/ skipped (Some (JObj [("x", JNum 1)])) = true) /\
  loadConfigSync (Some ".workflows") (mkConfigDir true ".workflows"
    (Some ([("a.yaml", Some (JObj [("p", JObj [("prompt", JStr "hi")])]))] ++
           ("notes.txt", Some (JObj [("x", JNum 1)])) :: [("b.YML", Some JNull)]))) =
  loadConfigSync (Some ".workflows") (mkConfigDir true ".workflows"
    (Some ([("a.yaml", Some (JObj [("p", JObj [("prompt", JStr "hi")])]))] ++ [("b.YML", Some JNull)]))).
Proof.
  assert (H : is_yaml_file "notes.txt" = false \/ skipped (Some (JObj [("x", JNum 1)])) = true)
    by (left; reflexivity).
  split; [exact H | exact (load_config_skips_file _ _ _ _ _ _ _ H)].
Defined.

(** [loadConfigSync] (and [loadConfig]) returns the empty default
    configuration unless it is given a non-empty path to a directory
    named [.workflows] or [.mcp-workflows] whose listing can be read and
    holds a [*.yaml] or [*.yml] file with a non-null object document. *)
Theorem load_config_nonempty_requires (directoryPath : option string) (dir : ConfigDir) :
  loadConfigSync directoryPath dir <> [] ->
  exists p listing file doc,
    directoryPath = Some p /\ p <> "" /\ dir_is_directory dir = true /\
    In (dir_name dir) [".workflows"; ".mcp-workflows"] /\
    dir_listing dir = Some listing /\ In (file, doc) listing /\
    is_yaml_file file = true /\ skipped doc = false.
Proof.
  intros H. unfold loadConfigSync in H.
  destruct directoryPath as [p|]; [|contradiction].
  destruct (String.eqb p "") eqn:Ep; [contradiction|].
  destruct (dir_is_directory dir) eqn:Ed; [|contradiction]. cbn [negb] in H.
  destruct (existsb (String.eqb (dir_name dir)) [".workflows"; ".mcp-workflows"]) eqn:En;
    [|contradiction]. cbn [negb] in H.
  destruct (dir_listing dir) as [listing|] eqn:El; [|contradiction].
  rewrite guarded_fold in H. destruct (fold_load_skip _ _ H) as [[file doc] [Hin Hs]].
  apply filter_In in Hin as [Hin Hy].
  exists p, listing, file, doc. repeat split; try assumption.
  - apply String.eqb_neq. exact Ep.
  - apply existsb_exists in En as [x [Hx Hx']]. apply String.eqb_eq in Hx'. subst. exact Hx.
Qed.

Lemma load_config_nonempty_requires_witness :
  loadConfigSync (Some ".workflows")
    (mkConfigDir true ".workflows" (Some [("a.yaml", Some (JObj [("p", JNum 1)]))])) <> [] /\
  exists p listing file doc,
    Some ".workflows" = Some p /\ p <> "" /\ true = true /\
    In ".workflows" [".workflows"; ".mcp-workflows"] /\
    Some [("a.yaml", Some (JObj [("p", JNum 1)]))] = Some listing /\ In (file, doc) listing /\
    is_yaml_file file = true /\ skipped doc = false.
Proof.
  assert (H : loadConfigSync (Some ".workflows")
    (mkConfigDir true ".workflows" (Some [("a.yaml", Some (JObj [("p", JNum 1)]))])) <> []).
  { intro E. vm_compute in E. discriminate E. }
  split; [exact H | exact (load_config_nonempty_requires _ _ H)].
Defined.

(** When every [*.yaml]/[*.yml] file of the directory holds a mapping
    (or is skipped), and the declared names are distinct across the files,
    are not members of [Object.prototype] (among them the accessor
    [__proto__]) and are listed in their enumeration order (integer-like
    names, which objects enumerate first, come first in ascending order),
    [loadConfigSync] (and [loadConfig]) returns all the declarations, file
    by file in listing order. *)
Theorem load_config_disjoint_files (p : string) (isDir : bool) (dirName : string)
        (listing : list (string * option jv)) :
  p <> "" -> isDir = true -> In dirName [".workflows"; ".mcp-workflows"] ->
  (forall file doc, In (file, doc) listing -> is_yaml_file file = true ->
     skipped doc = true \/ exists fs, doc = Some (JObj fs)) ->
  NoDup (map fst (yaml_entries listing)) ->
  (forall k, In k (map fst (yaml_entries listing)) -> is_proto_member k = false) ->
  enum_ordered (map fst (yaml_entries listing)) = true ->
  loadConfigSync (Some p) (mkConfigDir isDir dirName (Some listing)) = yaml_entries listing.
Proof.
  intros Hp Hd Hn Hdocs Hnd Hk Ho. unfold loadConfigSync. cbn [dir_is_directory dir_name dir_listing].
  rewrite (proj2 (String.eqb_neq p "") Hp), Hd. cbn [negb].
  assert (E : existsb (String.eqb dirName) [".workflows"; ".mcp-workflows"] = true).
  { apply existsb_exists. exists dirName. split; [exact Hn | apply String.eqb_refl]. }
  rewrite E. cbn [negb]. rewrite guarded_fold.
  apply (fold_load_entries _ []); [|exact Hnd|exact Hk|exact Ho].
  intros [file doc] He. apply filter_In in He as [He Hy]. exact (Hdocs file doc He Hy).
Qed.

Lemma load_config_disjoint_files_witness :
  (".workflows" <> "" /\ true = true /\ In ".workflows" [".workflows"; ".mcp-workflows"] /\
   (forall file doc, In (file, doc) [("a.yaml", Some (JObj [("p", JNum 1)])); ("README.md", None);
                                     ("b.yml", Some (JObj [("q", JNum 2)]))] ->
      is_yaml_file file = true -> skipped doc = true \/ exists fs, doc = Some (JObj fs)) /\
   NoDup (map fst (yaml_entries [("a.yaml", Some (JObj [("p", JNum 1)])); ("README.md", None);
                                 ("b.yml", Some (JObj [("q", JNum 2)]))])) /\
   (forall k, In k (map fst (yaml_entries [("a.yaml", Some (JObj [("p", JNum 1)])); ("README.md", None);
                                           ("b.yml", Some (JObj [("q", JNum 2)]))])) ->
      is_proto_member k = false) /\
   enum_ordered (map fst (yaml_entries [("a.yaml", Some (JObj [("p", JNum 1)])); ("README.md", None);
                                        ("b.yml", Some (JObj [("q", JNum 2)]))])) = true) /\
  loadConfigSync (Some ".workflows") (mkConfigDir true ".workflows"
    (Some [("a.yaml", Some (JObj [("p", JNum 1)])); ("README.md", None); ("b.yml", Some (JObj [("q", JNum 2)]))]))
  = yaml_entries [("a.yaml", Some (JObj [("p", JNum 1)])); ("README.md", None);
                  ("b.yml", Some (JObj [("q", JNum 2)]))].
Proof.
  assert (H1 : ".workflows" <> "") by discriminate.
  assert (H3 : In ".workflows" [".workflows"; ".mcp-workflows"]) by (left; reflexivity).
  assert (H4 : forall file doc, In (file, doc) [("a.yaml", Some (JObj [("p", JNum 1)])); ("README.md", None);
                                     ("b.yml", Some (JObj [("q", JNum 2)]))] ->
      is_yaml_file file = true -> skipped doc = true \/ exists fs, doc = Some (JObj fs)).
  { intros file doc [E|[E|[E|[]]]]; inversion E; subst; intros _.
    - right. eexists. reflexivity.
    - left. reflexivity.
    - right. eexists. reflexivity. }
  assert (H5 : NoDup (map fst (yaml_entries [("a.yaml", Some (JObj [("p", JNum 1)])); ("README.md", None);
                                 ("b.yml", Some (JObj [("q", JNum 2)]))]))).
  { vm_compute. constructor; [intros [H|[]]; discriminate | constructor; [intros []|constructor]]. }
  assert (H6 : forall k, In k (map fst (yaml_entries [("a.yaml", Some (JObj [("p", JNum 1)])); ("README.md", None);
                                           ("b.yml", Some (JObj [("q", JNum 2)]))])) ->
      is_proto_member k = false).
  { vm_compute. intros k [<-|[<-|[]]]; reflexivity. }
  assert (H7 : enum_ordered (map fst (yaml_entries [("a.yaml", Some (JObj [("p", JNum 1)])); ("README.md", None);
                                        ("b.yml", Some (JObj [("q", JNum 2)]))])) = true) by reflexivity.
  split; [repeat split; assumption|].
  exact (load_config_disjoint_files _ _ _ _ H1 eq_refl H3 H4 H5 H6 H7).
Defined.

Lemma merge_configs_disjoint_witness :
  (NoDup (map fst ([("a", JObj [("prompt", JStr "x")])] ++ [("b", JNum 1)])) /\
   (forall k, In k (map fst [("b", JNum 1)]) -> is_proto_member k = false) /\
   enum_ordered (map fst ([("a", JObj [("prompt", JStr "x")])] ++ [("b", JNum 1)])) = true) /\
  mergeConfigs [("a", JObj [("prompt", JStr "x")])] [("b", JNum 1)] =
    [("a", JObj [("prompt", JStr "x")])] ++ [("b", JNum 1)].
Proof.
  assert (H1 : NoDup (map fst ([("a", JObj [("prompt", JStr "x")])] ++ [("b", JNum 1)]))).
  { simpl. constructor; [intros [H|[]]; discriminate | constructor; [intros []|constructor]]. }
  assert (H2 : forall k, In k (map fst [("b", JNum 1)]) -> is_proto_member k = false).
  { intros k [<-|[]]. reflexivity. }
  assert (H3 : enum_ordered (map fst ([("a", JObj [("prompt", JStr "x")])] ++ [("b", JNum 1)])) = true)
    by reflexivity.
  split; [split; [exact H1 | split; [exact H2 | exact H3]]|].
  exact (merge_configs_disjoint _ _ H1 H2 H3).
Defined.

Lemma list_ascii_of_string_app (a b : string) :
  list_ascii_of_string (a ++ b) = list_ascii_of_string a ++ list_ascii_of_string b.
Proof. induction a as [|c a IH]; simpl; [reflexivity | rewrite IH; reflexivity]. Qed.

Lemma extname_loop_stem (cs : list ascii) (i : Z) (st : ext_state) :
  (forall c, In c cs -> Ascii.eqb c slash = false /\ Ascii.eqb c dot = false) ->
  Z.eqb (end_ st) (-1) = false -> Z.eqb (startDot st) (-1) = false -> cs <> [] ->
  extname_loop i cs st = mkExtState (startDot st) (startPart st) (end_ st) (matchedSlash st) (-1).
Proof.
  revert i st. induction cs as [|c cs IH]; intros i st Hc He Hs Hne; [contradiction|].
  cbn [extname_loop]. destruct (Hc c (or_introl eq_refl)) as [H1 H2].
  rewrite H1, He, H2, Hs. cbn [negb].
  destruct cs as [|c' cs'].
  - reflexivity.
  - rewrite IH; [reflexivity| | | |discriminate].
    + intros x Hx. apply Hc. right. exact Hx.
    + exact He.
    + exact Hs.
Qed.

Lemma basename_loop_stem (sx cs : list ascii) (i : Z) (st : base_state) :
  (forall c, In c cs -> Ascii.eqb c slash = false) ->
  Z.eqb (firstNonSlashEnd st) (-1) = false -> Z.leb 0 (extIdx st) = false ->
  basename_suffix_loop sx i cs st = st.
Proof.
  revert i. induction cs as [|c cs IH]; intros i Hc Hf Hx; [reflexivity|].
  cbn [basename_suffix_loop]. rewrite (Hc c (or_introl eq_refl)), Hf, Hx.
  apply IH; [intros x Hin; apply Hc; right; exact Hin | exact Hf | exact Hx].
Qed.

Lemma ext_step_plain (i : Z) (c : ascii) (r : list ascii) (st : ext_state) :
  Ascii.eqb c slash = false -> Ascii.eqb c dot = false ->
  Z.eqb (end_ st) (-1) = false -> Z.eqb (startDot st) (-1) = true ->
  extname_loop i (c :: r) st = extname_loop (i - 1) r st.
Proof.
  intros H1 H2 H3 H4. cbn [extname_loop]. rewrite H1, H3, H2, H4. reflexivity.
Qed.

Lemma ext_step_dot (i : Z) (r : list ascii) (st : ext_state) :
  Z.eqb (end_ st) (-1) = false -> Z.eqb (startDot st) (-1) = true ->
  extname_loop i ("."%char :: r) st =
  extname_loop (i - 1) r (mkExtState i (startPart st) (end_ st) (matchedSlash st) (preDotState st)).
Proof. intros H3 H4. cbn [extname_loop]. rewrite H3, H4. reflexivity. Qed.

Lemma base_step_match (sx : list ascii) (i : Z) (c : ascii) (r : list ascii) (st : base_state) :
  Ascii.eqb c slash = false -> Z.eqb (firstNonSlashEnd st) (-1) = false ->
  Z.leb 0 (extIdx st) = true -> Ascii.eqb c (nth (Z.to_nat (extIdx st)) sx " "%char) = true ->
  basename_suffix_loop sx i (c :: r) st =
  basename_suffix_loop sx (i - 1) r
    (if Z.eqb (extIdx st - 1) (-1)
     then mkBaseState (b_start st) i (b_matchedSlash st) (extIdx st - 1) (firstNonSlashEnd st)
     else mkBaseState (b_start st) (b_end st) (b_matchedSlash st) (extIdx st - 1) (firstNonSlashEnd st)).
Proof. intros H1 H2 H3 H4. cbn [basename_suffix_loop]. rewrite H1, H2, H3, H4. reflexivity. Qed.

Lemma ext_step_first (i : Z) (c : ascii) (r : list ascii) :
  Ascii.eqb c slash = false -> Ascii.eqb c dot = false ->
  extname_loop i (c :: r) (mkExtState (-1) 0 (-1) true 0) =
  extname_loop (i - 1) r (mkExtState (-1) 0 (i + 1) false 0).
Proof. intros H1 H2. cbn [extname_loop]. rewrite H1, H2. reflexivity. Qed.

Lemma base_step_first (sx : list ascii) (i : Z) (c : ascii) (r : list ascii) (k : Z) :
  Ascii.eqb c slash = false -> (0 < k)%Z -> Ascii.eqb c (nth (Z.to_nat k) sx " "%char) = true ->
  basename_suffix_loop sx i (c :: r) (mkBaseState 0 (-1) true k (-1)) =
  basename_suffix_loop sx (i - 1) r (mkBaseState 0 (-1) false (k - 1) (i + 1)).
Proof.
  intros H1 Hk H3. cbn [basename_suffix_loop]. rewrite H1.
  cbn [Z.eqb Pos.eqb negb b_start b_end b_matchedSlash extIdx firstNonSlashEnd].
  replace (Z.leb 0 k) with true by (symmetry; apply Z.leb_le; lia). rewrite H3.
  replace (Z.eqb (k - 1) (-1)) with false by (symmetry; apply Z.eqb_neq; lia). reflexivity.
Qed.

Lemma yml_extname_basename (stem : string) :
  stem <> "" -> forallb stem_char_ok (list_ascii_of_string stem) = true ->
  extname (stem ++ ".yml") = ".yml" /\ basename (stem ++ ".yml") ".yml" = stem.
Proof.
  intros Hne Hok.
  assert (Hc : forall c, In c (rev (list_ascii_of_string stem)) ->
                 Ascii.eqb c slash = false /\ Ascii.eqb c dot = false).
  { intros c Hin. rewrite <- in_rev in Hin. rewrite forallb_forall in Hok.
    specialize (Hok c Hin). unfold stem_char_ok in Hok.
    apply andb_prop in Hok as [H1 H2]. apply negb_true_iff in H1, H2. tauto. }
  assert (Hl : List.length (list_ascii_of_string stem) <> 0%nat).
  { destruct stem; [contradiction | discriminate]. }
  assert (Hr : rev (list_ascii_of_string stem) <> []).
  { intros H. apply Hl. rewrite <- length_rev, H. reflexivity. }
  remember (list_ascii_of_string stem) as ls eqn:Els.
  assert (Hcs : list_ascii_of_string (stem ++ ".yml") = ls ++ ["."; "y"; "m"; "l"]%char).
  { rewrite list_ascii_of_string_app, Els. reflexivity. }
  assert (Hrev : rev (ls ++ ["."; "y"; "m"; "l"]%char) = ("l" :: "m" :: "y" :: "." :: rev ls)%char).
  { rewrite rev_app_distr. reflexivity. }
  assert (Hlen : List.length (ls ++ ["."; "y"; "m"; "l"]%char) = (List.length ls + 4)%nat).
  { rewrite length_app. reflexivity. }
  set (N := Z.of_nat (List.length ls)).
  assert (HN : (0 < N)%Z) by (unfold N; lia).
  split.
  - unfold extname. rewrite Hcs, Hrev, Hlen.
    replace (Z.of_nat (List.length ls + 4) - 1)%Z with (N + 3)%Z by (unfold N; lia).
    rewrite ext_step_first by reflexivity.
    rewrite ext_step_plain by (reflexivity || (cbn [end_ startDot firstNonSlashEnd extIdx]; apply Z.eqb_neq; lia)).
    rewrite ext_step_plain by (reflexivity || (cbn [end_ startDot firstNonSlashEnd extIdx]; apply Z.eqb_neq; lia)).
    rewrite ext_step_dot by (reflexivity || (cbn [end_ startDot firstNonSlashEnd extIdx]; apply Z.eqb_neq; lia)).
    cbn [startDot startPart end_ matchedSlash preDotState].
    rewrite extname_loop_stem; cbn [startDot startPart end_ matchedSlash preDotState];
      [| exact Hc | apply Z.eqb_neq; lia | apply Z.eqb_neq; lia | exact Hr].
    replace (Z.eqb (N + 3 - 1 - 1 - 1) (-1)) with false by (symmetry; apply Z.eqb_neq; lia).
    replace (Z.eqb (N + 3 + 1) (-1)) with false by (symmetry; apply Z.eqb_neq; lia).
    cbn [orb andb Z.eqb]. unfold slice. rewrite Hcs.
    replace (Z.to_nat (N + 3 + 1 - (N + 3 - 1 - 1 - 1))) with 4%nat by lia.
    replace (Z.to_nat (N + 3 - 1 - 1 - 1)) with (List.length ls) by (unfold N; lia).
    rewrite skipn_app, skipn_all, Nat.sub_diag. reflexivity.
  - unfold basename. rewrite Hcs, Hrev, Hlen.
    replace (List.length (list_ascii_of_string ".yml")) with 4%nat by reflexivity.
    replace (Nat.ltb 0 4 && Nat.leb 4 (List.length ls + 4)) with true
      by (symmetry; apply andb_true_iff; split; [reflexivity | apply Nat.leb_le; lia]).
    replace (String.eqb ".yml" (stem ++ ".yml")) with false.
    2:{ symmetry. apply String.eqb_neq. intros E. apply (f_equal list_ascii_of_string) in E.
        rewrite Hcs in E. apply (f_equal (@List.length ascii)) in E.
        rewrite length_app in E. simpl in E. lia. }
    replace (Z.of_nat (List.length ls + 4) - 1)%Z with (N + 3)%Z by (unfold N; lia).
    replace (Z.of_nat 4 - 1)%Z with 3%Z by reflexivity.
    rewrite base_step_first by (reflexivity || lia).
    rewrite base_step_match by (reflexivity || (cbn [end_ startDot firstNonSlashEnd extIdx]; apply Z.eqb_neq; lia)).
    cbn [b_start b_end b_matchedSlash extIdx firstNonSlashEnd].
    replace (Z.eqb (3 - 1 - 1) (-1)) with false by reflexivity.
    rewrite base_step_match by (reflexivity || (cbn [end_ startDot firstNonSlashEnd extIdx]; apply Z.eqb_neq; lia)).
    cbn [b_start b_end b_matchedSlash extIdx firstNonSlashEnd].
    replace (Z.eqb (3 - 1 - 1 - 1) (-1)) with false by reflexivity.
    rewrite base_step_match by (reflexivity || (cbn [end_ startDot firstNonSlashEnd extIdx]; apply Z.eqb_neq; lia)).
    cbn [b_start b_end b_matchedSlash extIdx firstNonSlashEnd].
    replace (Z.eqb (3 - 1 - 1 - 1 - 1) (-1)) with true by reflexivity.
    rewrite basename_loop_stem; cbn [b_start b_end b_matchedSlash extIdx firstNonSlashEnd].
    + replace (Z.eqb 0 (N + 3 - 1 - 1 - 1)) with false by (symmetry; apply Z.eqb_neq; lia).
      replace (Z.eqb (N + 3 - 1 - 1 - 1) (-1)) with false by (symmetry; apply Z.eqb_neq; lia).
      unfold slice. rewrite Hcs.
      replace (Z.to_nat (N + 3 - 1 - 1 - 1 - 0)) with (List.length ls) by (unfold N; lia).
      cbn [Z.to_nat skipn]. rewrite firstn_app, firstn_all, Nat.sub_diag, app_nil_r, Els.
      apply string_of_list_ascii_of_string.
    + intros c Hin. apply (Hc c Hin).
    + apply Z.eqb_neq. lia.
    + reflexivity.
Qed.

Lemma endsWith_app (a b : string) : endsWith (a ++ b) b = true.
Proof.
  unfold endsWith. rewrite list_ascii_of_string_app, length_app.
  replace (List.length (list_ascii_of_string a) + List.length (list_ascii_of_string b) -
           List.length (list_ascii_of_string b))%nat with (List.length (list_ascii_of_string a)) by lia.
  rewrite skipn_app, skipn_all, Nat.sub_diag. cbn [app skipn].
  destruct (list_eq_dec ascii_dec _ _) as [_|N]; [|contradiction].
  rewrite andb_true_r. apply Nat.leb_le. lia.
Qed.

Lemma load_preset_skip (presets : PresetsDir) (available : list string) (m : list (string * jv))
      (preset : string) :
  preset = "" \/ ~ In preset available \/ preset_skipped presets preset = true ->
  load_preset presets available m preset = m.
Proof.
  intros H. unfold load_preset.
  destruct (String.eqb preset "") eqn:E; [reflexivity|].
  destruct (existsb (String.eqb preset) available) eqn:Ea; cbn [negb]; [|reflexivity].
  destruct H as [H|[H|H]].
  - apply String.eqb_neq in E. contradiction.
  - apply existsb_exists in Ea as [x [Hx Hx']]. apply String.eqb_eq in Hx'. subst. contradiction.
  - unfold preset_skipped in H. unfold loadPresetConfig.
    destruct presets as [listing|]; [|reflexivity].
    destruct (lookup (preset ++ ".yaml") listing) as [[v|]|]; [|reflexivity|reflexivity].
    destruct v; simpl in H |- *; try reflexivity; discriminate.
Qed.

(** [loadPresetConfigs] ignores an empty preset name, a name that
    [listAvailablePresets] does not list, and a preset whose
    [<name>.yaml] file is missing, unreadable, not an object or [null]:
    dropping it from the list of names does not change the result. *)
Theorem load_presets_skips (presets : PresetsDir) (pre post : list string) (preset : string) :
  preset = "" \/ ~ In preset (listAvailablePresets presets) \/ preset_skipped presets preset = true ->
  loadPresetConfigs presets (pre ++ preset :: post) = loadPresetConfigs presets (pre ++ post).
Proof.
  intros H. unfold loadPresetConfigs. rewrite !fold_left_app. cbn [fold_left].
  rewrite load_preset_skip by exact H. reflexivity.
Qed.

Lemma load_presets_skips_witness :
  ("" = "" \/ ~ In "" (listAvailablePresets (Some [("base.yaml", Some (JObj [("p", JNum 1)]))])) \/
   preset_skipped (Some [("base.yaml", Some (JObj [("p", JNum 1)]))]) "" = true) /\
  loadPresetConfigs (Some [("base.yaml", Some (JObj [("p", JNum 1)]))]) (["base"] ++ "" :: ["base"]) =
  loadPresetConfigs (Some [("base.yaml", Some (JObj [("p", JNum 1)]))]) (["base"] ++ ["base"]).
Proof.
  assert (H : "" = "" \/ ~ In "" (listAvailablePresets (Some [("base.yaml", Some (JObj [("p", JNum 1)]))])) \/
   preset_skipped (Some [("base.yaml", Some (JObj [("p", JNum 1)]))]) "" = true) by (left; reflexivity).
  split; [exact H | exact (load_presets_skips _ _ _ _ H)].
Defined.

(** A preset shipped only as [<name>.yml] ([name] non-empty, without
    ['.'] or ['/']) is listed by [listAvailablePresets], yet
    [loadPresetConfigs] reads [<name>.yaml] for it, so asking for it loads
    nothing. *)
Theorem yml_preset_listed_not_loaded (listing : list (string * option jv)) (stem : string)
        (doc : option jv) :
  stem <> "" -> forallb stem_char_ok (list_ascii_of_string stem) = true ->
  In ((stem ++ ".yml")%string, doc) listing -> lookup (stem ++ ".yaml") listing = None ->
  In stem (listAvailablePresets (Some listing)) /\
  (forall pre post, loadPresetConfigs (Some listing) (pre ++ stem :: post) =
                    loadPresetConfigs (Some listing) (pre ++ post)).
Proof.
  intros Hne Hok Hin Hl. split.
  - unfold listAvailablePresets. apply in_map_iff. exists (stem ++ ".yml")%string.
    destruct (yml_extname_basename stem Hne Hok) as [He Hb]. rewrite He. split; [exact Hb|].
    apply filter_In. split.
    + apply in_map_iff. exists ((stem ++ ".yml")%string, doc). split; [reflexivity | exact Hin].
    + rewrite endsWith_app. apply orb_true_r.
  - intros pre post. unfold loadPresetConfigs. rewrite !fold_left_app. cbn [fold_left].
    rewrite load_preset_skip; [reflexivity|]. right. right. simpl. rewrite Hl. reflexivity.
Qed.

Lemma yml_preset_listed_not_loaded_witness :
  ("review" <> "" /\ forallb stem_char_ok (list_ascii_of_string "review") = true /\
   In (("review" ++ ".yml")%string, Some (JObj [("review", JObj [("prompt", JStr "r")])]))
      [("review.yml", Some (JObj [("review", JObj [("prompt", JStr "r")])]))] /\
   lookup ("review" ++ ".yaml") [("review.yml", Some (JObj [("review", JObj [("prompt", JStr "r")])]))] = None) /\
  (In "review" (listAvailablePresets (Some [("review.yml", Some (JObj [("review", JObj [("prompt", JStr "r")])]))])) /\
   (forall pre post,
      loadPresetConfigs (Some [("review.yml", Some (JObj [("review", JObj [("prompt", JStr "r")])]))])
        (pre ++ "review" :: post) =
      loadPresetConfigs (Some [("review.yml", Some (JObj [("review", JObj [("prompt", JStr "r")])]))])
        (pre ++ post))).
Proof.
  assert (H1 : "review" <> "") by discriminate.
  assert (H2 : forallb stem_char_ok (list_ascii_of_string "review") = true) by reflexivity.
  assert (H3 : In (("review" ++ ".yml")%string, Some (JObj [("review", JObj [("prompt", JStr "r")])]))
      [("review.yml", Some (JObj [("review", JObj [("prompt", JStr "r")])]))]) by (left; reflexivity).
  assert (H4 : lookup ("review" ++ ".yaml") [("review.yml", Some (JObj [("review", JObj [("prompt", JStr "r")])]))] = None)
    by reflexivity.
  split; [repeat split; assumption|].
  exact (yml_preset_listed_not_loaded _ _ _ H1 H2 H3 H4).
Defined.
